(** * School Management System backend: service-layer rules

    A shallow embedding of the service layer of the backend
    (src/modules/*/*.service.ts, the model hooks and src/middleware/rbac.ts)
    and the properties of the specification that are checked against it.

    Conventions of the embedding
    - a MongoDB collection is a finite map from [_id] to document;
    - a service method is a computation in the monad [M]: it reads and writes
      the [Store] and either returns or throws; a throw keeps the writes made
      before it (the services use no transactions);
    - [new Date()] is the argument [now] (milliseconds), a fresh [_id] is the
      argument [oid];
    - a JavaScript number that carries data (capacity, marks) is a rational
      and arithmetic on it is exact (no rounding); the values [NaN] and
      [Infinity] only arise from the division of the grade hook and are kept
      in [JS.number];
    - [populate] and [toJSON] only decorate what a method returns; the
      methods return the stored document here;
    - unique indexes: an insert is preceded by the service's own look-up of
      the key, which stands for the index; an update that changes an indexed
      key is checked against the index when it is written
      ([saveModified]);
    - a string is ASCII text; the setters that a schema declares on a string
      path ([trim], [lowercase], [uppercase]) are applied where Mongoose
      applies them: to a value assigned to a document and to a value of that
      path in a query filter. *)

From Stdlib Require Import ssreflect ZArith QArith Qround.
#[local] Set Warnings "-rewrite-rw".
From stdpp Require Import base option list strings gmap fin_maps.

Local Open Scope string_scope.
Local Open Scope Z_scope.
Local Open Scope list_scope.

Abbreviation ObjectId := string.

(** ** JavaScript values used by the services *)

Module JS.

(** Result of an arithmetic expression. *)
Inductive number :=
| NaN
| PosInf
| NegInf
| Fin (q : Q).

(** What reading a numeric property of a document may give. *)
Inductive prop :=
| Undefined
| Number (q : Q).

Definition Qsign (q : Q) : comparison := (q ?= 0)%Q.

(** [a / b] for a finite [a]. *)
Definition div (a : Q) (b : prop) : number :=
  match b with
  | Undefined => NaN
  | Number d =>
      match Qsign d with
      | Eq => match Qsign a with Eq => NaN | Gt => PosInf | Lt => NegInf end
      | _ => Fin (a / d)
      end
  end.

(** [x * k] for a finite, positive literal [k]. *)
Definition mul_pos (x : number) (k : Q) : number :=
  match x with
  | Fin q => Fin (q * k)
  | other => other
  end.

(** [x >= k] for a literal [k]. *)
Definition ge (x : number) (k : Q) : bool :=
  match x with
  | NaN => false
  | PosInf => true
  | NegInf => false
  | Fin q => Qle_bool k q
  end.

(** [a || dflt] on an optional number: [undefined], [0] are falsy. *)
Definition or_default (a : option Q) (dflt : Q) : Q :=
  match a with
  | Some q => if Qeq_bool q 0 then dflt else q
  | None => dflt
  end.

(** Truthiness of an optional string and of an optional number. *)
Definition truthy_str (s : option string) : bool :=
  match s with
  | Some s => negb (String.eqb s "")
  | None => false
  end.

Definition truthy_Z (z : option Z) : bool :=
  match z with
  | Some z => negb (Z.eqb z 0)
  | None => false
  end.

(** [Object.assign] on one field. *)
Definition assign {A} (old : A) (upd : option A) : A := default old upd.

(** [String.prototype.trim]: white space and line terminators go from both
    ends. *)
Definition isWhiteSpace (c : Ascii.ascii) : bool :=
  let n := Ascii.nat_of_ascii c in
  ((9 <=? n) && (n <=? 13) || (n =? 32))%nat.

Fixpoint trimStart (s : string) : string :=
  match s with
  | String c r => if isWhiteSpace c then trimStart r else s
  | EmptyString => EmptyString
  end.

Definition trim (s : string) : string :=
  String.rev (trimStart (String.rev (trimStart s))).

(** [String.prototype.toLowerCase] and [toUpperCase]. *)
Definition lowerChar (c : Ascii.ascii) : Ascii.ascii :=
  let n := Ascii.nat_of_ascii c in
  if ((65 <=? n) && (n <=? 90))%nat then Ascii.ascii_of_nat (n + 32) else c.

Definition upperChar (c : Ascii.ascii) : Ascii.ascii :=
  let n := Ascii.nat_of_ascii c in
  if ((97 <=? n) && (n <=? 122))%nat then Ascii.ascii_of_nat (n - 32) else c.

Fixpoint mapChars (f : Ascii.ascii → Ascii.ascii) (s : string) : string :=
  match s with
  | String c r => String (f c) (mapChars f r)
  | EmptyString => EmptyString
  end.

Definition toLowerCase (s : string) : string := mapChars lowerChar s.
Definition toUpperCase (s : string) : string := mapChars upperChar s.

End JS.

(** ** Errors *)

Inductive Error :=
| CustomError (message : string) (statusCode : Z)
| ValidationError (message : string)
| MongoServerError (message : string)
| TypeError (message : string).

Inductive Result (A : Type) :=
| Ok (a : A)
| Throw (e : Error).
Arguments Ok {A} a.
Arguments Throw {A} e.

(** ** Documents *)

Inductive Role := ADMIN | TEACHER | STUDENT | PARENT.
Inductive UserStatus := ACTIVE | INACTIVE | SUSPENDED.
Inductive ClassStatus := CLASS_ACTIVE | CLASS_INACTIVE.

Global Instance Role_eq_dec : EqDecision Role.
Proof. solve_decision. Defined.
Global Instance UserStatus_eq_dec : EqDecision UserStatus.
Proof. solve_decision. Defined.

(** user.model.ts; the name fields play no part in the rules below. *)
Record User := mkUser {
  email : string;
  passwordHash : string;
  role : Role;
  status : UserStatus;
  meta_class : option ObjectId;
  resetPasswordToken : option string;
  resetPasswordExpires : option Z;
  lastLogin : option Z
}.

(** class.model.ts *)
Record Class := mkClass {
  name : string;
  section : string;
  year : Z;
  classTeacher : ObjectId;
  students : list ObjectId;
  subjects : list ObjectId;
  capacity : Q;
  classStatus : ClassStatus
}.

(** exam.model.ts; only the fields the grade rules read. *)
Record Exam := mkExam {
  examName : string;
  examClass : ObjectId;
  examSubject : ObjectId;
  maxMarks : Q
}.

(** grade.model.ts; [grade] is absent until something sets it. *)
Record Grade := mkGrade {
  exam : ObjectId;
  student : ObjectId;
  marks : Q;
  grade : option string;
  remarks : option string;
  gradedBy : ObjectId
}.

Inductive Audience := ALL | CLASS | ROLE | USER.
Inductive AnnouncementStatus := DRAFT | PUBLISHED | ARCHIVED.

Global Instance Audience_eq_dec : EqDecision Audience.
Proof. solve_decision. Defined.
Global Instance AnnouncementStatus_eq_dec : EqDecision AnnouncementStatus.
Proof. solve_decision. Defined.

(** announcement.model.ts *)
Record Announcement := mkAnnouncement {
  title : string;
  body : string;
  audience : Audience;
  targets : list ObjectId;
  targetModel : option string;
  createdBy : ObjectId;
  annStatus : AnnouncementStatus;
  publishedAt : option Z;
  expiresAt : option Z
}.

(** ** The store and the service monad *)

Record Store := mkStore {
  users : gmap ObjectId User;
  classes : gmap ObjectId Class;
  exams : gmap ObjectId Exam;
  grades : gmap ObjectId Grade;
  announcements : gmap ObjectId Announcement
}.

Definition set_users (f : gmap ObjectId User → gmap ObjectId User) (s : Store) : Store :=
  mkStore (f (users s)) (classes s) (exams s) (grades s) (announcements s).
Definition set_classes (f : gmap ObjectId Class → gmap ObjectId Class) (s : Store) : Store :=
  mkStore (users s) (f (classes s)) (exams s) (grades s) (announcements s).
Definition set_exams (f : gmap ObjectId Exam → gmap ObjectId Exam) (s : Store) : Store :=
  mkStore (users s) (classes s) (f (exams s)) (grades s) (announcements s).
Definition set_grades (f : gmap ObjectId Grade → gmap ObjectId Grade) (s : Store) : Store :=
  mkStore (users s) (classes s) (exams s) (f (grades s)) (announcements s).
Definition set_announcements
    (f : gmap ObjectId Announcement → gmap ObjectId Announcement) (s : Store) : Store :=
  mkStore (users s) (classes s) (exams s) (grades s) (f (announcements s)).

Definition M (A : Type) : Type := Store → Result A * Store.

Global Instance M_ret : MRet M := λ A a s, (Ok a, s).
Global Instance M_bind : MBind M := λ A B k m s,
  match m s with
  | (Ok a, s') => k a s'
  | (Throw e, s') => (Throw e, s')
  end.

Definition throw {A} (e : Error) : M A := λ s, (Throw e, s).
Definition gets {A} (f : Store → A) : M A := λ s, (Ok (f s), s).
Definition modify (f : Store → Store) : M unit := λ s, (Ok tt, f s).

(** [if (c) throw e;] *)
Definition throwIf (c : bool) (e : Error) : M unit :=
  if c then throw e else mret tt.

(** ** Collection primitives (the Mongoose model API the services call) *)

Section Collection.
Context {A : Type}.

Definition findById (c : gmap ObjectId A) (id : ObjectId) : option A := c !! id.

(** [Model.findOne(filter)]: some document matching the filter, if any. *)
Definition findOne (p : ObjectId → A → bool) (c : gmap ObjectId A)
    : option (ObjectId * A) :=
  List.find (λ kv, p kv.1 kv.2) (map_to_list c).

(** [Model.findByIdAndUpdate(id, upd)]: no validation, no hooks,
    nothing happens when the id is absent. *)
Definition findByIdAndUpdate (id : ObjectId) (upd : A → A) (c : gmap ObjectId A)
    : gmap ObjectId A :=
  alter upd id c.

Definition findByIdAndDelete (id : ObjectId) (c : gmap ObjectId A) : gmap ObjectId A :=
  delete id c.

(** [Model.deleteMany(filter)] *)
Definition deleteMany (p : A → bool) (c : gmap ObjectId A) : gmap ObjectId A :=
  filter (λ kv, p kv.2 = false) c.

Lemma findOne_Some p c k v :
  findOne p c = Some (k, v) → c !! k = Some v ∧ p k v = true.
Proof.
  unfold findOne. intros H. apply find_some in H as [Hin Hp].
  split; [|done]. apply elem_of_map_to_list. by apply list_elem_of_In.
Qed.

Lemma findOne_None p c :
  findOne p c = None ↔ ∀ k v, c !! k = Some v → p k v = false.
Proof.
  unfold findOne. split.
  - intros H k v Hkv.
    apply (find_none _ _ H (k, v)).
    apply list_elem_of_In. by apply elem_of_map_to_list.
  - intros H. destruct (List.find _ _) as [[k v]|] eqn:E; [|done].
    apply find_some in E as [Hin Hp]. simpl in Hp.
    apply list_elem_of_In, elem_of_map_to_list in Hin.
    rewrite (H _ _ Hin) in Hp. done.
Qed.

Lemma findOne_is_Some p c k v :
  c !! k = Some v → p k v = true → is_Some (findOne p c).
Proof.
  intros Hkv Hp. destruct (findOne p c) eqn:E; [eauto|].
  rewrite findOne_None in E. rewrite (E _ _ Hkv) in Hp. done.
Qed.

End Collection.

(** ** Classes: class.model.ts and class.service.ts *)

Module ClassService.

Definition count (l : list ObjectId) : Q := inject_Z (Z.of_nat (length l)).

(** The validators of [classSchema], in schema order; [save()] runs them. *)
Definition validate (c : Class) : M unit :=
  throwIf (String.eqb (name c) "") (ValidationError "Class name is required");;
  throwIf (50 <? String.length (name c))%nat
    (ValidationError "Class name cannot exceed 50 characters");;
  throwIf (String.eqb (section c) "") (ValidationError "Section is required");;
  throwIf (10 <? String.length (section c))%nat
    (ValidationError "Section cannot exceed 10 characters");;
  throwIf (year c <? 2020)%Z (ValidationError "Year must be 2020 or later");;
  throwIf (2030 <? year c)%Z (ValidationError "Year must be 2030 or earlier");;
  throwIf (negb (Qle_bool 1 (capacity c))) (ValidationError "Capacity must be at least 1");;
  throwIf (negb (Qle_bool (capacity c) 100)) (ValidationError "Capacity cannot exceed 100").

(** [doc.save()] on a loaded document: validate, then write the document
    under its [_id]. *)
Definition save (id : ObjectId) (c : Class) : M Class :=
  validate c;;
  modify (set_classes <[id := c]>);;
  mret c.

(** [doc.save()] on a new document: validate, then insert; the database
    refuses an [_id] that is in use. *)
Definition saveNew (oid : ObjectId) (c : Class) : M Class :=
  validate c;;
  taken ← gets (λ s, findById (classes s) oid);
  throwIf (bool_decide (is_Some taken)) (MongoServerError "E11000 duplicate key error");;
  modify (set_classes <[oid := c]>);;
  mret c.

Record CreateData := mkCreate {
  c_name : string;
  c_section : string;
  c_year : Z;
  c_classTeacher : ObjectId;
  c_capacity : option Q;
  c_status : option ClassStatus
}.

Definition sameKey (n s : string) (y : Z) (c : Class) : bool :=
  String.eqb (name c) n && String.eqb (section c) s && Z.eqb (year c) y.

(** The unique index on (name, section, year).  [save()] on a loaded
    document writes the paths that were modified: when the triple has
    changed, the database refuses it if another class holds the new one. *)
Definition keyTaken (id : ObjectId) (old new : Class) (s : Store) : bool :=
  negb (sameKey (name old) (section old) (year old) new)
  && bool_decide (is_Some (findOne
       (λ k c', sameKey (name new) (section new) (year new) c' && bool_decide (k ≠ id))
       (classes s))).

(** [doc.save()] on a loaded document after [Object.assign]: validate, then
    write under the unique index. *)
Definition saveModified (id : ObjectId) (old new : Class) : M Class :=
  validate new;;
  taken ← gets (keyTaken id old new);
  throwIf taken (MongoServerError "E11000 duplicate key error");;
  modify (set_classes <[id := new]>);;
  mret new.

(** [name] and [section] are [trim: true] paths of the schema: the query and
    the new document hold the trimmed strings. *)
Definition createClass (oid : ObjectId) (d : CreateData) : M Class :=
  existingClass ← gets (λ s,
    findOne (λ _ c, sameKey (JS.trim (c_name d)) (JS.trim (c_section d)) (c_year d) c)
            (classes s));
  throwIf (bool_decide (is_Some existingClass))
    (CustomError "Class with this name, section, and year already exists" 400);;
  teacher ← gets (λ s, findById (users s) (c_classTeacher d));
  match teacher with
  | None => throw (CustomError "Class teacher not found" 404)
  | Some t =>
      throwIf (bool_decide (role t ≠ TEACHER))
        (CustomError "Class teacher must have TEACHER role" 400);;
      saveNew oid {|
        name := JS.trim (c_name d);
        section := JS.trim (c_section d);
        year := c_year d;
        classTeacher := c_classTeacher d;
        students := [];
        subjects := [];
        capacity := JS.or_default (c_capacity d) 30;
        classStatus := default CLASS_ACTIVE (c_status d)
      |}
  end.

Definition getClassById (id : ObjectId) : M Class :=
  classData ← gets (λ s, findById (classes s) id);
  match classData with
  | None => throw (CustomError "Class not found" 404)
  | Some c => mret c
  end.

(** The body accepted by the route (updateClassSchema); other keys are
    stripped before the service is called. *)
Record UpdateData := mkUpdate {
  u_name : option string;
  u_section : option string;
  u_year : option Z;
  u_classTeacher : option ObjectId;
  u_capacity : option Q;
  u_status : option ClassStatus
}.

(** [Object.assign(classData, updateData)]; the setters of the document trim
    [name] and [section]. *)
Definition assignUpdate (c : Class) (u : UpdateData) : Class := {|
  name := JS.assign (name c) (JS.trim <$> u_name u);
  section := JS.assign (section c) (JS.trim <$> u_section u);
  year := JS.assign (year c) (u_year u);
  classTeacher := JS.assign (classTeacher c) (u_classTeacher u);
  students := students c;
  subjects := subjects c;
  capacity := JS.assign (capacity c) (u_capacity u);
  classStatus := JS.assign (classStatus c) (u_status u)
|}.

Definition updateClass (id : ObjectId) (u : UpdateData) : M Class :=
  classData ← gets (λ s, findById (classes s) id);
  match classData with
  | None => throw (CustomError "Class not found" 404)
  | Some c =>
      (if JS.truthy_str (u_name u) && JS.truthy_str (u_section u) && JS.truthy_Z (u_year u)
       then
         existingClass ← gets (λ s,
           findOne (λ k c',
             sameKey (JS.trim (default "" (u_name u)))
                     (JS.trim (default "" (u_section u)))
                     (default 0 (u_year u)) c'
             && bool_decide (k ≠ id)) (classes s));
         throwIf (bool_decide (is_Some existingClass))
           (CustomError "Class with this name, section, and year already exists" 400)
       else mret tt);;
      (if JS.truthy_str (u_classTeacher u) then
         teacher ← gets (λ s, findById (users s) (default "" (u_classTeacher u)));
         match teacher with
         | None => throw (CustomError "Class teacher not found" 404)
         | Some t =>
             throwIf (bool_decide (role t ≠ TEACHER))
               (CustomError "Class teacher must have TEACHER role" 400)
         end
       else mret tt);;
      saveModified id c (assignUpdate c u)
  end.

Definition setStudents (l : list ObjectId) (c : Class) : Class := {|
  name := name c; section := section c; year := year c;
  classTeacher := classTeacher c; students := l; subjects := subjects c;
  capacity := capacity c; classStatus := classStatus c
|}.

Definition setMetaClass (v : option ObjectId) (u : User) : User := {|
  email := email u; passwordHash := passwordHash u; role := role u;
  status := status u; meta_class := v;
  resetPasswordToken := resetPasswordToken u;
  resetPasswordExpires := resetPasswordExpires u; lastLogin := lastLogin u
|}.

Definition addStudentToClass (classId studentId : ObjectId) : M Class :=
  classData ← gets (λ s, findById (classes s) classId);
  match classData with
  | None => throw (CustomError "Class not found" 404)
  | Some c =>
      student ← gets (λ s, findById (users s) studentId);
      match student with
      | None => throw (CustomError "Student not found" 404)
      | Some st =>
          throwIf (bool_decide (role st ≠ STUDENT))
            (CustomError "User must have STUDENT role" 400);;
          throwIf (bool_decide (studentId ∈ students c))
            (CustomError "Student is already enrolled in this class" 400);;
          throwIf (Qle_bool (capacity c) (count (students c)))
            (CustomError "Class is at maximum capacity" 400);;
          save classId (setStudents (students c ++ [studentId]) c);;
          modify (set_users (findByIdAndUpdate studentId (setMetaClass (Some classId))));;
          getClassById classId
      end
  end.

Definition removeStudentFromClass (classId studentId : ObjectId) : M Class :=
  classData ← gets (λ s, findById (classes s) classId);
  match classData with
  | None => throw (CustomError "Class not found" 404)
  | Some c =>
      save classId (setStudents (filter (λ id, id ≠ studentId) (students c)) c);;
      modify (set_users (findByIdAndUpdate studentId (setMetaClass None)));;
      getClassById classId
  end.

End ClassService.

(** ** Reasoning principles for the service monad *)

Lemma bind_unfold {A B} (m : M A) (k : A → M B) (s : Store) :
  (m ≫= k) s =
  match m s with
  | (Ok a, s') => k a s'
  | (Throw e, s') => (Throw e, s')
  end.
Proof. reflexivity. Qed.

Lemma throwIf_true {B} (e : Error) (k : unit → M B) (s : Store) :
  (throwIf true e ≫= k) s = (Throw e, s).
Proof. reflexivity. Qed.

Lemma throwIf_false {B} (e : Error) (k : unit → M B) (s : Store) :
  (throwIf false e ≫= k) s = k tt s.
Proof. reflexivity. Qed.

Lemma gets_bind {A B} (f : Store → A) (k : A → M B) (s : Store) :
  (gets f ≫= k) s = k (f s) s.
Proof. reflexivity. Qed.

Lemma modify_bind {B} (f : Store → Store) (k : unit → M B) (s : Store) :
  (modify f ≫= k) s = k tt (f s).
Proof. reflexivity. Qed.

(** A check reads the store and either passes or throws; it never writes. *)
Definition isCheck (m : M unit) : Prop :=
  ∀ s, m s = (Ok tt, s) ∨ ∃ e, m s = (Throw e, s).

Lemma isCheck_ret : isCheck (mret tt).
Proof. intros s. by left. Qed.

Lemma isCheck_throw e : isCheck (throw e).
Proof. intros s. right. by exists e. Qed.

Lemma isCheck_throwIf b e : isCheck (throwIf b e).
Proof. destruct b; [apply isCheck_throw | apply isCheck_ret]. Qed.

Lemma isCheck_gets {A} (f : Store → A) (k : A → M unit) :
  (∀ a, isCheck (k a)) → isCheck (gets f ≫= k).
Proof. intros H s. rewrite gets_bind. apply H. Qed.

Lemma isCheck_if (b : bool) (m1 m2 : M unit) :
  isCheck m1 → isCheck m2 → isCheck (if b then m1 else m2).
Proof. by destruct b. Qed.

Lemma isCheck_option {A} (o : option A) (k : A → M unit) (e : Error) :
  (∀ a, isCheck (k a)) →
  isCheck (match o with Some a => k a | None => throw e end).
Proof. intros H. destruct o; [apply H | apply isCheck_throw]. Qed.

Lemma isCheck_bind {B} (m : M unit) (k : unit → M B) (s : Store) :
  isCheck m →
  (m ≫= k) s = k tt s ∨ ∃ e, (m ≫= k) s = (Throw e, s).
Proof.
  intros H. rewrite bind_unfold.
  destruct (H s) as [-> | [e ->]]; [by left | right; by exists e].
Qed.

Create HintDb checks.
#[export] Hint Resolve isCheck_ret isCheck_throw isCheck_throwIf : checks.
#[export] Hint Extern 1 (isCheck (gets _ ≫= _)) =>
  apply isCheck_gets; intros : checks.
#[export] Hint Extern 1 (isCheck (if _ then _ else _)) => apply isCheck_if : checks.
#[export] Hint Extern 1 (isCheck (match _ with Some _ => _ | None => _ end)) =>
  apply isCheck_option; intros : checks.

(** ** Properties of the class service *)

Module ClassFacts.
Import ClassService.

(** The schema validators as one boolean. *)
Definition validB (c : Class) : bool :=
  negb (String.eqb (name c) "") && negb (50 <? String.length (name c))%nat
  && negb (String.eqb (section c) "") && negb (10 <? String.length (section c))%nat
  && negb (year c <? 2020)%Z && negb (2030 <? year c)%Z
  && Qle_bool 1 (capacity c) && Qle_bool (capacity c) 100.

(** Every stored class document passes its schema. *)
Definition schemaValid (s : Store) : Prop :=
  ∀ id c, classes s !! id = Some c → validB c = true.

(** The invariant of the data model: no class holds more students than its
    capacity. *)
Definition withinCapacity (c : Class) : Prop :=
  (count (students c) <= capacity c)%Q.

Definition capacityInv (s : Store) : Prop :=
  ∀ id c, classes s !! id = Some c → withinCapacity c.

Ltac vcase :=
  match goal with
  | |- context [throwIf ?b ?e ≫= _] =>
      let E := fresh "E" in
      destruct b eqn:E; [rewrite throwIf_true | rewrite throwIf_false]
  | |- context [throwIf ?b ?e] =>
      let E := fresh "E" in destruct b eqn:E; unfold throwIf
  end.

Lemma validate_cases c s :
  (validate c s = (Ok tt, s) ∧ validB c = true)
  ∨ ((∃ e, validate c s = (Throw e, s)) ∧ validB c = false).
Proof.
  unfold validate, validB.
  do 8 (vcase;
        [ right; split; [eexists; reflexivity | idtac];
          try match goal with
              | H : negb _ = true |- _ => apply negb_true_iff in H; rewrite H
              end;
          repeat first [rewrite andb_false_r | progress simpl]; reflexivity
        | idtac ]).
  left. split; [done | idtac]. apply negb_false_iff in E5, E6.
  rewrite ?E5 ?E6. done.
Qed.

Lemma save_cases id c s :
  (save id c s = (Ok c, set_classes <[id := c]> s) ∧ validB c = true)
  ∨ ((∃ e, save id c s = (Throw e, s)) ∧ validB c = false).
Proof.
  unfold save. rewrite bind_unfold.
  destruct (validate_cases c s) as [[-> Hv]|[[e ->] Hv]].
  - left. done.
  - right. split; [eexists; reflexivity | done].
Qed.

Lemma saveNew_cases oid c s :
  (saveNew oid c s = (Ok c, set_classes <[oid := c]> s) ∧ validB c = true)
  ∨ (∃ e, saveNew oid c s = (Throw e, s)).
Proof.
  unfold saveNew. rewrite bind_unfold.
  destruct (validate_cases c s) as [[-> Hv]|[[e ->] Hv]].
  - rewrite gets_bind. destruct (bool_decide _).
    + right. eexists. reflexivity.
    + left. done.
  - right. eexists. reflexivity.
Qed.

Lemma saveModified_cases id old c s :
  (saveModified id old c s = (Ok c, set_classes <[id := c]> s)
   ∧ validB c = true ∧ keyTaken id old c s = false)
  ∨ (∃ e, saveModified id old c s = (Throw e, s)).
Proof.
  unfold saveModified. rewrite bind_unfold.
  destruct (validate_cases c s) as [[-> Hv]|[[e ->] Hv]]; [|right; by eexists].
  rewrite gets_bind. destruct (keyTaken id old c s); [right; by eexists|].
  by left.
Qed.

Lemma save_valid id c s :
  validB c = true → save id c s = (Ok c, set_classes <[id := c]> s).
Proof.
  intros Hv. destruct (save_cases id c s) as [[H _]|[_ H]]; [done|congruence].
Qed.

Lemma validB_capacity c : validB c = true → (1 <= capacity c)%Q.
Proof.
  unfold validB. intros H.
  repeat (apply andb_prop in H as [H ?]).
  by apply Qle_bool_iff.
Qed.

Lemma getClassById_found id c s :
  classes s !! id = Some c → getClassById id s = (Ok c, s).
Proof. intros H. unfold getClassById. rewrite gets_bind /findById H. done. Qed.

Definition AlreadyEnrolled : Error :=
  CustomError "Student is already enrolled in this class" 400.
Definition CapacityExceeded : Error :=
  CustomError "Class is at maximum capacity" 400.

(** The store after a successful [addStudentToClass]. *)
Definition afterAdd (classId studentId : ObjectId) (c : Class) (s : Store) : Store :=
  set_users (findByIdAndUpdate studentId (setMetaClass (Some classId)))
    (set_classes <[classId := setStudents (students c ++ [studentId]) c]> s).

(** The store after a successful [removeStudentFromClass]. *)
Definition afterRemove (classId studentId : ObjectId) (c : Class) (s : Store) : Store :=
  set_users (findByIdAndUpdate studentId (setMetaClass None))
    (set_classes
       <[classId := setStudents (filter (λ id, id ≠ studentId) (students c)) c]> s).

Lemma Qle_bool_false (x y : Q) : Qle_bool x y = false ↔ (y < x)%Q.
Proof.
  split.
  - intros H. apply Qnot_le_lt. intros Hle.
    apply Qle_bool_iff in Hle. congruence.
  - intros H. destruct (Qle_bool x y) eqn:E; [|done].
    apply Qle_bool_iff in E. by apply Qlt_not_le in H.
Qed.

Lemma role_guard_pass (u : User) (r : Role) :
  role u = r → bool_decide (role u ≠ r) = false.
Proof. intros ->. by apply bool_decide_eq_false_2; auto. Qed.

Section AddStudent.
Context (s : Store) (classId studentId : ObjectId) (c : Class) (st : User).
Hypothesis Hclass : classes s !! classId = Some c.
Hypothesis Hstudent : users s !! studentId = Some st.
Hypothesis Hrole : role st = STUDENT.

Lemma addStudent_enrolled :
  studentId ∈ students c →
  addStudentToClass classId studentId s = (Throw AlreadyEnrolled, s).
Proof.
  intros Hin. unfold addStudentToClass.
  rewrite gets_bind /findById Hclass gets_bind Hstudent.
  rewrite (role_guard_pass _ _ Hrole).
  rewrite throwIf_false bool_decide_eq_true_2 //.
Qed.

Lemma addStudent_full :
  studentId ∉ students c →
  (capacity c <= count (students c))%Q →
  addStudentToClass classId studentId s = (Throw CapacityExceeded, s).
Proof.
  intros Hin Hcap. unfold addStudentToClass.
  rewrite gets_bind /findById Hclass gets_bind Hstudent.
  rewrite (role_guard_pass _ _ Hrole).
  rewrite throwIf_false bool_decide_eq_false_2 // throwIf_false.
  apply Qle_bool_iff in Hcap. rewrite Hcap //.
Qed.

Lemma addStudent_ok :
  validB c = true →
  studentId ∉ students c →
  (count (students c) < capacity c)%Q →
  addStudentToClass classId studentId s
  = (Ok (setStudents (students c ++ [studentId]) c),
     afterAdd classId studentId c s).
Proof.
  intros Hv Hin Hcap. unfold addStudentToClass.
  rewrite gets_bind /findById Hclass gets_bind Hstudent.
  rewrite (role_guard_pass _ _ Hrole).
  rewrite throwIf_false bool_decide_eq_false_2 // throwIf_false.
  apply Qle_bool_false in Hcap. rewrite Hcap throwIf_false.
  rewrite bind_unfold save_valid // modify_bind.
  apply getClassById_found. simpl. apply lookup_insert_eq.
Qed.
End AddStudent.

(** Enrol the students of a list one after the other. *)
Fixpoint addStudents (classId : ObjectId) (l : list ObjectId) : M unit :=
  match l with
  | [] => mret tt
  | x :: l' => addStudentToClass classId x;; addStudents classId l'
  end.

Definition isStudent (s : Store) (id : ObjectId) : Prop :=
  ∃ u, users s !! id = Some u ∧ role u = STUDENT.

Lemma isStudent_afterAdd s classId x c id :
  isStudent s id → isStudent (afterAdd classId x c s) id.
Proof.
  intros (u & Hu & Hr). unfold isStudent, afterAdd, findByIdAndUpdate. simpl.
  destruct (decide (x = id)) as [->|Hne].
  - exists (setMetaClass (Some classId) u). rewrite lookup_alter_eq Hu. done.
  - exists u. rewrite lookup_alter_ne //.
Qed.

Lemma addStudents_fill news : ∀ s classId c (n : nat),
  classes s !! classId = Some c →
  validB c = true →
  (capacity c == inject_Z (Z.of_nat n))%Q →
  (length (students c) + length news = n)%nat →
  NoDup news →
  (∀ x, x ∈ news → (x ∉ students c) ∧ isStudent s x) →
  ∃ s',
    addStudents classId news s = (Ok tt, s')
    ∧ classes s' !! classId = Some (setStudents (students c ++ news) c)
    ∧ (∀ id, isStudent s id → isStudent s' id).
Proof.
  induction news as [|x news IH]; intros s classId c n Hc Hv Hcap Hlen Hnd Hnew.
  - exists s. rewrite app_nil_r. split; [done|]. split; [|done].
    rewrite Hc. by destruct c.
  - apply NoDup_cons in Hnd as [Hx Hnd].
    destruct (Hnew x) as [Hxc (u & Hu & Hr)]; [by left|].
    assert (count (students c) < capacity c)%Q as Hlt.
    { rewrite Hcap. unfold count. rewrite <- Zlt_Qlt. simpl in Hlen. lia. }
    simpl. rewrite bind_unfold.
    rewrite (addStudent_ok s classId x c u Hc Hu Hr Hv Hxc Hlt).
    destruct (IH (afterAdd classId x c s) classId
                 (setStudents (students c ++ [x]) c) n) as (s' & Hrun & Hcls & Hst).
    + simpl. apply lookup_insert_eq.
    + done.
    + done.
    + simpl. rewrite length_app /=. simpl in Hlen. lia.
    + done.
    + intros y Hy. destruct (Hnew y) as [Hyc Hys]; [by right|]. split.
      * simpl. intros [?| ->%list_elem_of_singleton]%elem_of_app; done.
      * by apply isStudent_afterAdd.
    + exists s'. split; [done|]. split.
      * rewrite Hcls. simpl. by rewrite -app_assoc.
      * intros id Hid. by apply Hst, isStudent_afterAdd.
Qed.

(** C6. Given an existing, schema-valid class and a user with the STUDENT
    role, [addStudentToClass] fails with the already-enrolled error when the
    id is in the member list, fails with the capacity error when the member
    count is at least the capacity, and otherwise succeeds and appends the
    id.  Consequently a class of capacity [n] with fewer than [n] members
    accepts distinct new students until it has [n], and the next one is
    refused with the capacity error. *)
Theorem addStudentToClass_capacity s classId c :
  classes s !! classId = Some c →
  validB c = true →
  (∀ studentId, isStudent s studentId →
     (studentId ∈ students c →
        addStudentToClass classId studentId s = (Throw AlreadyEnrolled, s))
     ∧ (studentId ∉ students c → (capacity c <= count (students c))%Q →
        addStudentToClass classId studentId s = (Throw CapacityExceeded, s))
     ∧ (studentId ∉ students c → (count (students c) < capacity c)%Q →
        addStudentToClass classId studentId s
        = (Ok (setStudents (students c ++ [studentId]) c),
           afterAdd classId studentId c s)))
  ∧ (∀ (n : nat) (news : list ObjectId) (extra : ObjectId),
       (capacity c == inject_Z (Z.of_nat n))%Q →
       (length (students c) + length news = n)%nat →
       NoDup (news ++ [extra]) →
       (∀ x, x ∈ news ++ [extra] → (x ∉ students c) ∧ isStudent s x) →
       ∃ s' c',
         addStudents classId news s = (Ok tt, s')
         ∧ classes s' !! classId = Some c'
         ∧ students c' = students c ++ news
         ∧ length (students c') = n
         ∧ addStudentToClass classId extra s' = (Throw CapacityExceeded, s')).
Proof.
  intros Hc Hv. split.
  - intros studentId (u & Hu & Hr). split; [|split].
    + by apply (addStudent_enrolled s classId studentId c u).
    + by apply (addStudent_full s classId studentId c u).
    + by apply (addStudent_ok s classId studentId c u).
  - intros n news extra Hcap Hlen Hnd Hnew.
    apply NoDup_app in Hnd as (Hnd & Hdisj & _).
    destruct (addStudents_fill news s classId c n) as (s' & Hrun & Hcls & Hst);
      [done..| |].
    { intros x Hx. apply Hnew, elem_of_app. by left. }
    exists s', (setStudents (students c ++ news) c).
    split; [done|]. split; [done|]. split; [done|].
    split; [by rewrite /= length_app|].
    destruct (Hnew extra) as [Hec Hes]; [apply elem_of_app; right; by left|].
    apply Hst in Hes as (u & Hu & Hr).
    apply (addStudent_full s' classId extra
             (setStudents (students c ++ news) c) u); [done..| |].
    + simpl. intros [?|Hin]%elem_of_app; [done|].
      apply (Hdisj extra Hin). by left.
    + simpl. rewrite Hcap. unfold count. rewrite <- Zle_Qle.
      rewrite length_app. lia.
Qed.

(** *** Removal *)

Lemma filter_ne_absent (x : ObjectId) (l : list ObjectId) :
  x ∉ l → filter (λ id, id ≠ x) l = l.
Proof.
  induction l as [|y l IH]; intros Hx; [reflexivity|].
  apply not_elem_of_cons in Hx as [Hne Hx].
  rewrite filter_cons_True; [congruence|]. by rewrite IH.
Qed.

Lemma filter_ne_gone (x : ObjectId) (l : list ObjectId) :
  x ∉ filter (λ id, id ≠ x) l.
Proof. intros [H _]%list_elem_of_filter. done. Qed.

Lemma setStudents_same c : setStudents (students c) c = c.
Proof. by destruct c. Qed.

Lemma alter_idem {A} (f : A → A) (id : ObjectId) (m : gmap ObjectId A) :
  (∀ a, f (f a) = f a) → alter f id (alter f id m) = alter f id m.
Proof.
  intros Hf. apply map_eq. intros k. destruct (decide (id = k)) as [->|Hne].
  - rewrite !lookup_alter_eq. destruct (m !! k); simpl; [by rewrite Hf|done].
  - by rewrite !lookup_alter_ne.
Qed.

Lemma removeStudent_ok s classId studentId c :
  classes s !! classId = Some c →
  validB c = true →
  removeStudentFromClass classId studentId s
  = (Ok (setStudents (filter (λ id, id ≠ studentId) (students c)) c),
     afterRemove classId studentId c s).
Proof.
  intros Hc Hv. unfold removeStudentFromClass.
  rewrite gets_bind /findById Hc bind_unfold save_valid // modify_bind.
  apply getClassById_found. simpl. apply lookup_insert_eq.
Qed.

(** C10. Once the class exists (as a schema-valid document),
    [removeStudentFromClass] succeeds whether or not the student is a
    member; removing an absent student returns the class with its list
    unchanged and leaves the class collection as it was; and a second
    removal of the same student returns the same class and the same store
    as the first. *)
Theorem removeStudentFromClass_idempotent s classId studentId c :
  classes s !! classId = Some c →
  validB c = true →
  ∃ c' s',
    removeStudentFromClass classId studentId s = (Ok c', s')
    ∧ students c' = filter (λ id, id ≠ studentId) (students c)
    ∧ (studentId ∉ students c →
         c' = c ∧ students c' = students c ∧ classes s' = classes s)
    ∧ removeStudentFromClass classId studentId s' = (Ok c', s').
Proof.
  intros Hc Hv.
  exists (setStudents (filter (λ id, id ≠ studentId) (students c)) c),
         (afterRemove classId studentId c s).
  split; [by apply removeStudent_ok|]. split; [done|]. split.
  - intros Habs. rewrite filter_ne_absent // setStudents_same.
    split; [done|]. split; [done|].
    unfold afterRemove. simpl. rewrite filter_ne_absent // setStudents_same.
    by apply insert_id.
  - rewrite (removeStudent_ok _ classId studentId
               (setStudents (filter (λ id, id ≠ studentId) (students c)) c)).
    + simpl. apply lookup_insert_eq.
    + done.
    + simpl. rewrite filter_ne_absent; [apply filter_ne_gone|].
      f_equal. unfold afterRemove, set_users, set_classes, findByIdAndUpdate. simpl.
      rewrite filter_ne_absent; [apply filter_ne_gone|].
      rewrite insert_insert_eq alter_idem //.
Qed.

(** *** What each operation can do to the store *)

Lemma createClass_state oid d s :
  (createClass oid d s).2 = s
  ∨ ∃ c, (createClass oid d s).2 = set_classes <[oid := c]> s
         ∧ students c = [] ∧ validB c = true.
Proof.
  unfold createClass. rewrite gets_bind.
  vcase; [by left|]. rewrite gets_bind.
  destruct (findById _ _) as [t|]; [|by left].
  vcase; [by left|].
  match goal with |- context [saveNew oid ?c s] =>
    destruct (saveNew_cases oid c s) as [[-> Hv]|[e ->]]
  end.
  - right. eexists. split; [reflexivity|]. done.
  - by left.
Qed.

Lemma updateClass_state id u s :
  (updateClass id u s).2 = s
  ∨ ∃ c, classes s !! id = Some c
         ∧ (updateClass id u s).2 = set_classes <[id := assignUpdate c u]> s
         ∧ validB (assignUpdate c u) = true.
Proof.
  unfold updateClass. rewrite gets_bind /findById.
  destruct (classes s !! id) as [c|] eqn:Hc; [|by left].
  match goal with |- context [(?m ≫= ?k) s] =>
    destruct (isCheck_bind m k s) as [-> | [e ->]]; [auto with checks| |by left]
  end.
  match goal with |- context [(?m ≫= ?k) s] =>
    destruct (isCheck_bind m k s) as [-> | [e ->]]; [auto with checks| |by left]
  end.
  destruct (saveModified_cases id c (assignUpdate c u) s)
    as [(-> & Hv & _)|[e ->]]; [right; eauto | by left].
Qed.

Lemma addStudent_state classId studentId s :
  (addStudentToClass classId studentId s).2 = s
  ∨ ∃ c, classes s !! classId = Some c
         ∧ (addStudentToClass classId studentId s).2 = afterAdd classId studentId c s
         ∧ (count (students c) < capacity c)%Q
         ∧ validB c = true.
Proof.
  unfold addStudentToClass. rewrite gets_bind /findById.
  destruct (classes s !! classId) as [c|] eqn:Hc; [|by left].
  rewrite gets_bind. destruct (users s !! studentId) as [u|]; [|by left].
  vcase; [by left|]. vcase; [by left|]. vcase; [by left|].
  rewrite bind_unfold.
  destruct (save_cases classId (setStudents (students c ++ [studentId]) c) s)
    as [[-> Hv]|[[e ->] _]]; [|by left].
  rewrite modify_bind.
  erewrite getClassById_found; [|simpl; apply lookup_insert_eq].
  right. exists c. split; [done|]. split; [done|].
  split; [by apply Qle_bool_false|done].
Qed.

Lemma removeStudent_state classId studentId s :
  (removeStudentFromClass classId studentId s).2 = s
  ∨ ∃ c, classes s !! classId = Some c
         ∧ (removeStudentFromClass classId studentId s).2
           = afterRemove classId studentId c s
         ∧ validB c = true.
Proof.
  unfold removeStudentFromClass. rewrite gets_bind /findById.
  destruct (classes s !! classId) as [c|] eqn:Hc; [|by left].
  rewrite bind_unfold.
  match goal with |- context [save classId ?c' s] =>
    destruct (save_cases classId c' s) as [[-> Hv]|[[e ->] _]]
  end; [|by left].
  rewrite modify_bind.
  erewrite getClassById_found; [|simpl; apply lookup_insert_eq].
  right. exists c. done.
Qed.

(** *** The capacity invariant *)

Lemma capacityInv_write id c' s :
  capacityInv s → withinCapacity c' → capacityInv (set_classes <[id := c']> s).
Proof.
  intros Hinv Hc' k c. simpl. destruct (decide (id = k)) as [->|Hne].
  - rewrite lookup_insert_eq. by intros [= <-].
  - rewrite lookup_insert_ne //. apply Hinv.
Qed.

Lemma capacityInv_users f s : capacityInv s → capacityInv (set_users f s).
Proof. intros Hinv k c. simpl. apply Hinv. Qed.

Lemma count_nil : count [] = 0%Q.
Proof. reflexivity. Qed.

Lemma count_filter_le (P : ObjectId → Prop) `{!∀ x, Decision (P x)} l :
  (count (filter P l) <= count l)%Q.
Proof.
  unfold count. rewrite <- Zle_Qle. apply inj_le, length_filter.
Qed.

(** With a whole-number capacity, room for one more is room for the next
    student. *)
Lemma count_succ_le l x (q : Q) (k : Z) :
  (q == inject_Z k)%Q → (count l < q)%Q → (count (l ++ [x]) <= q)%Q.
Proof.
  intros Hq Hlt. rewrite Hq in Hlt. rewrite Hq. unfold count in *.
  rewrite <- Zlt_Qlt in Hlt. rewrite <- Zle_Qle.
  rewrite length_app /=. lia.
Qed.

Lemma schemaValid_write id c' s :
  schemaValid s → validB c' = true → schemaValid (set_classes <[id := c']> s).
Proof.
  intros Hinv Hc' k c. simpl. destruct (decide (id = k)) as [->|Hne].
  - rewrite lookup_insert_eq. by intros [= <-].
  - rewrite lookup_insert_ne //. apply Hinv.
Qed.

(** Stored class documents always pass their schema: every write of the
    service goes through [save]. *)
Lemma schemaValid_preserved s :
  schemaValid s →
  (∀ oid d, schemaValid (createClass oid d s).2)
  ∧ (∀ id u, schemaValid (updateClass id u s).2)
  ∧ (∀ cid sid, schemaValid (addStudentToClass cid sid s).2)
  ∧ (∀ cid sid, schemaValid (removeStudentFromClass cid sid s).2).
Proof.
  intros Hs. repeat split.
  - intros oid d. destruct (createClass_state oid d s) as [->|(c & -> & _ & Hv)];
      [done|by apply schemaValid_write].
  - intros id u. destruct (updateClass_state id u s) as [->|(c & _ & -> & Hv)];
      [done|by apply schemaValid_write].
  - intros cid sid.
    destruct (addStudent_state cid sid s) as [->|(c & _ & -> & _ & Hv)]; [done|].
    unfold afterAdd. intros k c'. simpl. revert k c'.
    by apply (schemaValid_write cid _ s).
  - intros cid sid.
    destruct (removeStudent_state cid sid s) as [->|(c & _ & -> & Hv)]; [done|].
    unfold afterRemove. intros k c'. simpl. revert k c'.
    by apply (schemaValid_write cid _ s).
Qed.

(** C2 (amended). From a store in which every class is within its capacity,
    [createClass] and [removeStudentFromClass] always lead to such a store
    (whether they fail or succeed); [addStudentToClass] does when the
    capacity of the class is a whole number; [updateClass] does when the
    update carries no capacity or one that is not below the current number
    of students. *)
Theorem class_operations_capacity s :
  capacityInv s →
  (∀ oid d, capacityInv (createClass oid d s).2)
  ∧ (∀ id u,
       (∀ c q, classes s !! id = Some c → u_capacity u = Some q →
               (count (students c) <= q)%Q) →
       capacityInv (updateClass id u s).2)
  ∧ (∀ cid sid,
       (∀ c, classes s !! cid = Some c → ∃ k : Z, (capacity c == inject_Z k)%Q) →
       capacityInv (addStudentToClass cid sid s).2)
  ∧ (∀ cid sid, capacityInv (removeStudentFromClass cid sid s).2).
Proof.
  intros Hs. repeat split.
  - intros oid d. destruct (createClass_state oid d s) as [->|(c & -> & Hst & Hv)];
      [done|].
    apply capacityInv_write; [done|].
    unfold withinCapacity. rewrite Hst count_nil.
    apply validB_capacity in Hv. eapply Qle_trans; [|exact Hv]. done.
  - intros id u Hu. destruct (updateClass_state id u s) as [->|(c & Hc & -> & Hv)];
      [done|].
    apply capacityInv_write; [done|].
    unfold withinCapacity, assignUpdate, JS.assign. simpl.
    destruct (u_capacity u) as [q|] eqn:Hq; simpl.
    + by apply (Hu c q).
    + by apply (Hs id c).
  - intros cid sid Hint.
    destruct (addStudent_state cid sid s) as [->|(c & Hc & -> & Hlt & Hv)]; [done|].
    apply capacityInv_users, capacityInv_write; [done|].
    destruct (Hint c Hc) as [k Hk].
    unfold withinCapacity. simpl. by apply (count_succ_le _ _ _ k).
  - intros cid sid.
    destruct (removeStudent_state cid sid s) as [->|(c & Hc & -> & Hv)]; [done|].
    apply capacityInv_users, capacityInv_write; [done|].
    unfold withinCapacity. simpl.
    eapply Qle_trans; [apply count_filter_le|]. by apply (Hs cid c).
Qed.

(** *** A small school *)

Definition person (mail : string) (r : Role) : User :=
  mkUser mail "$2a$12$hash" r ACTIVE None None None None.

Definition people : gmap ObjectId User :=
  <["t1" := person "teacher@school.test" TEACHER]>
    (<["s1" := person "ann@school.test" STUDENT]>
       (<["s2" := person "bob@school.test" STUDENT]>
          (<["s3" := person "cy@school.test" STUDENT]> ∅))).

Definition school : Store := mkStore people ∅ ∅ ∅ ∅.

Definition newClass (cap : option Q) : CreateData :=
  mkCreate "Grade 10" "A" 2024 "t1" cap None.

Definition theClass (cap : Q) (l : list ObjectId) : Class :=
  mkClass "Grade 10" "A" 2024 "t1" l [] cap CLASS_ACTIVE.

(** A class of capacity 2 without students. *)
Definition emptyClassOfTwo : Store := (createClass "c1" (newClass (Some 2%Q)) school).2.

(** A class of default capacity with two students enrolled through the
    service. *)
Definition twoEnrolled : Store :=
  ((createClass "c1" (newClass None);;
    addStudentToClass "c1" "s1";;
    addStudentToClass "c1" "s2") school).2.

Definition lowerCapacity : UpdateData :=
  mkUpdate None None None None (Some 1%Q) None.

Lemma emptyClassOfTwo_classes :
  classes emptyClassOfTwo = <["c1" := theClass 2 []]> ∅.
Proof. vm_compute. reflexivity. Qed.

Lemma twoEnrolled_classes :
  classes twoEnrolled = <["c1" := theClass 30 ["s1"; "s2"]]> ∅.
Proof. vm_compute. reflexivity. Qed.

Lemma school_students x :
  x ∈ ["s1"; "s2"; "s3"] → isStudent emptyClassOfTwo x.
Proof.
  intros Hx. repeat (apply elem_of_cons in Hx as [->|Hx]);
    [eexists; split; [vm_compute; reflexivity | reflexivity] .. |].
  by apply elem_of_nil in Hx.
Qed.

(** C2, as stated, fails for [updateClass]: a class that holds two students
    accepts an update of its capacity to 1. *)
Lemma updateClass_lowers_capacity :
  capacityInv twoEnrolled
  ∧ (updateClass "c1" lowerCapacity twoEnrolled).1 = Ok (theClass 1 ["s1"; "s2"])
  ∧ ¬ capacityInv (updateClass "c1" lowerCapacity twoEnrolled).2.
Proof.
  split; [|split].
  - intros id c. rewrite twoEnrolled_classes.
    intros [[<- <-]|[_ H]]%lookup_insert_Some; [|by rewrite lookup_empty in H].
    unfold withinCapacity, Qle. simpl. lia.
  - vm_compute. reflexivity.
  - intros H. specialize (H "c1" (theClass 1 ["s1"; "s2"])).
    unfold withinCapacity, Qle in H. simpl in H.
    assert (2 * 1 <= 1 * 1)%Z; [|lia]. apply H. vm_compute. reflexivity.
Qed.

(** The check of [addStudentToClass] compares the count with the capacity
    as numbers, and the schema accepts any number between 1 and 100: with a
    capacity of 2.5 a third student is accepted. *)
Lemma addStudent_fractional_capacity :
  let full := ((createClass "c1" (newClass (Some (5 # 2)%Q));;
                addStudentToClass "c1" "s1";;
                addStudentToClass "c1" "s2") school).2 in
  capacityInv full
  ∧ (addStudentToClass "c1" "s3" full).1 = Ok (theClass (5 # 2) ["s1"; "s2"; "s3"])
  ∧ ¬ capacityInv (addStudentToClass "c1" "s3" full).2.
Proof.
  intros full. split; [|split].
  - assert (classes full = <["c1" := theClass (5 # 2) ["s1"; "s2"]]> ∅) as Hc
      by (vm_compute; reflexivity).
    intros id c. rewrite Hc.
    intros [[<- <-]|[_ H]]%lookup_insert_Some; [|by rewrite lookup_empty in H].
    unfold withinCapacity, Qle. simpl. lia.
  - vm_compute. reflexivity.
  - intros H. specialize (H "c1" (theClass (5 # 2) ["s1"; "s2"; "s3"])).
    unfold withinCapacity, Qle in H. simpl in H.
    assert (3 * 2 <= 5 * 1)%Z; [|lia]. apply H. vm_compute. reflexivity.
Qed.

Lemma twoEnrolled_class c :
  classes twoEnrolled !! "c1" = Some c → c = theClass 30 ["s1"; "s2"].
Proof. rewrite twoEnrolled_classes lookup_insert_eq. by intros [= <-]. Qed.

Lemma twoEnrolled_within : capacityInv twoEnrolled.
Proof.
  intros id c. rewrite twoEnrolled_classes.
  intros [[<- <-]|[_ H]]%lookup_insert_Some; [|by rewrite lookup_empty in H].
  unfold withinCapacity, Qle. simpl. lia.
Qed.

(** On the class of two students: a second class is created, the capacity
    is set to the number of students, a third student is added, a student is
    removed; each call succeeds and leaves every class within its
    capacity. *)
Lemma class_operations_capacity_witness :
  capacityInv twoEnrolled
  ∧ ((createClass "c2" (mkCreate "Grade 10" "B" 2024 "t1" None None) twoEnrolled).1
     = Ok (mkClass "Grade 10" "B" 2024 "t1" [] [] 30 CLASS_ACTIVE)
     ∧ capacityInv
         (createClass "c2" (mkCreate "Grade 10" "B" 2024 "t1" None None) twoEnrolled).2)
  ∧ ((updateClass "c1" (mkUpdate None None None None (Some 2%Q) None) twoEnrolled).1
     = Ok (theClass 2 ["s1"; "s2"])
     ∧ capacityInv
         (updateClass "c1" (mkUpdate None None None None (Some 2%Q) None) twoEnrolled).2)
  ∧ ((addStudentToClass "c1" "s3" twoEnrolled).1 = Ok (theClass 30 ["s1"; "s2"; "s3"])
     ∧ capacityInv (addStudentToClass "c1" "s3" twoEnrolled).2)
  ∧ ((removeStudentFromClass "c1" "s1" twoEnrolled).1 = Ok (theClass 30 ["s2"])
     ∧ capacityInv (removeStudentFromClass "c1" "s1" twoEnrolled).2).
Proof.
  split; [exact twoEnrolled_within|].
  destruct (class_operations_capacity twoEnrolled twoEnrolled_within)
    as (Hcreate & Hupdate & Hadd & Hremove).
  split; [split; [by vm_compute | apply Hcreate]|].
  split; [split; [by vm_compute|]|].
  { apply Hupdate. intros c q ->%twoEnrolled_class [= <-].
    unfold Qle. simpl. lia. }
  split; [split; [by vm_compute|]|].
  { apply Hadd. intros c ->%twoEnrolled_class. by exists 30. }
  split; [by vm_compute | apply Hremove].
Defined.

Lemma addStudentToClass_capacity_witness :
  ∃ s' c',
    addStudents "c1" ["s1"; "s2"] emptyClassOfTwo = (Ok tt, s')
    ∧ classes s' !! "c1" = Some c'
    ∧ students c' = ["s1"; "s2"]
    ∧ length (students c') = 2%nat
    ∧ addStudentToClass "c1" "s3" s' = (Throw CapacityExceeded, s').
Proof.
  assert (classes emptyClassOfTwo !! "c1" = Some (theClass 2 [])) as Hc.
  { rewrite emptyClassOfTwo_classes. apply lookup_insert_eq. }
  assert (validB (theClass 2 []) = true) as Hv by reflexivity.
  destruct (addStudentToClass_capacity emptyClassOfTwo "c1" (theClass 2 []) Hc Hv)
    as [_ Hfill].
  apply (Hfill 2%nat ["s1"; "s2"] "s3").
  - reflexivity.
  - reflexivity.
  - compute_done.
  - intros x Hx. split; [apply not_elem_of_nil | by apply school_students].
Defined.

Lemma removeStudentFromClass_idempotent_witness :
  ∃ c' s',
    removeStudentFromClass "c1" "s3" twoEnrolled = (Ok c', s')
    ∧ students c' = filter (λ id, id ≠ "s3") ["s1"; "s2"]
    ∧ ("s3" ∉ ["s1"; "s2"] →
         c' = theClass 30 ["s1"; "s2"] ∧ students c' = ["s1"; "s2"]
         ∧ classes s' = classes twoEnrolled)
    ∧ removeStudentFromClass "c1" "s3" s' = (Ok c', s').
Proof.
  apply (removeStudentFromClass_idempotent twoEnrolled "c1" "s3"
           (theClass 30 ["s1"; "s2"])).
  - rewrite twoEnrolled_classes. apply lookup_insert_eq.
  - reflexivity.
Defined.

End ClassFacts.

(** ** Authentication: auth.service.ts and user.service.ts *)

Module AuthService.

Record TokenPayload := mkPayload {
  userId : ObjectId;
  payloadEmail : string;
  payloadRole : Role
}.

Definition InvalidCredentials : Error := CustomError "Invalid email or password" 401.
Definition AccountNotActive : Error := CustomError "Account is not active" 401.
Definition InvalidOrExpiredToken : Error :=
  CustomError "Invalid or expired reset token" 400.

Definition setPasswordHash (h : string) (u : User) : User := {|
  email := email u; passwordHash := h; role := role u; status := status u;
  meta_class := meta_class u;
  resetPasswordToken := resetPasswordToken u;
  resetPasswordExpires := resetPasswordExpires u;
  lastLogin := lastLogin u
|}.

Definition setLastLogin (t : Z) (u : User) : User := {|
  email := email u; passwordHash := passwordHash u; role := role u;
  status := status u; meta_class := meta_class u;
  resetPasswordToken := resetPasswordToken u;
  resetPasswordExpires := resetPasswordExpires u;
  lastLogin := Some t
|}.

(** What the object-document mapper does with a key of an update whose value
    is [undefined].  Mongoose up to 5.x hands the key to the driver, which
    stores null; Mongoose from 6.0 on removes the key from the update.  The
    sources carry no manifest that pins the version; the project is written
    for Node.js 20. *)
Inductive UndefinedInUpdate :=
| StoredAsNull
| KeyRemoved.

Definition clearResetToken (u : User) : User := {|
  email := email u; passwordHash := passwordHash u; role := role u;
  status := status u; meta_class := meta_class u;
  resetPasswordToken := None;
  resetPasswordExpires := None;
  lastLogin := lastLogin u
|}.

(** The update [{ resetPasswordToken: undefined, resetPasswordExpires:
    undefined }]. *)
Definition undefinedResetToken (odm : UndefinedInUpdate) (u : User) : User :=
  match odm with
  | StoredAsNull => clearResetToken u
  | KeyRemoved => u
  end.

(** The filter [{ resetPasswordToken: token, resetPasswordExpires: { $gt: now } }]. *)
Definition liveToken (now : Z) (token : string) (u : User) : bool :=
  bool_decide (resetPasswordToken u = Some token)
  && match resetPasswordExpires u with
     | Some t => now <? t
     | None => false
     end.

Section WithCrypto.
(** utils/password.ts and utils/jwt.ts are taken as given. *)
Context {Tokens : Type}.
Variable hashPassword : string → string.
Variable comparePassword : string → string → bool.
Variable generateTokenPair : TokenPayload → Tokens.
Variable odm : UndefinedInUpdate.

(** The setters of the [email] path of the user schema ([lowercase],
    [trim]), which the query applies to the email it is given. *)
Definition emailSetters (mail : string) : string := JS.toLowerCase (JS.trim mail).

(** UserService *)
Definition getUserByEmail (mail : string) : M (option (ObjectId * User)) :=
  gets (λ s, findOne (λ _ u, String.eqb (email u) (emailSetters mail)) (users s)).

Definition updateUserPassword (id : ObjectId) (newPassword : string) : M unit :=
  let passwordHash := hashPassword newPassword in
  modify (set_users (findByIdAndUpdate id (setPasswordHash passwordHash))).

Definition updateLastLogin (now : Z) (id : ObjectId) : M unit :=
  modify (set_users (findByIdAndUpdate id (setLastLogin now))).

(** AuthService *)
Definition login (now : Z) (mail password : string) : M (User * Tokens) :=
  user ← getUserByEmail mail;
  match user with
  | None => throw (CustomError "Invalid email or password" 401)
  | Some (id, u) =>
      throwIf (bool_decide (status u ≠ ACTIVE))
        (CustomError "Account is not active" 401);;
      let isPasswordValid := comparePassword password (passwordHash u) in
      throwIf (negb isPasswordValid) (CustomError "Invalid email or password" 401);;
      let tokens :=
        generateTokenPair
          {| userId := id; payloadEmail := email u; payloadRole := role u |} in
      updateLastLogin now id;;
      mret (u, tokens)
  end.

Definition resetPassword (now : Z) (token newPassword : string) : M unit :=
  user ← gets (λ s, findOne (λ _ u, liveToken now token u) (users s));
  match user with
  | None => throw (CustomError "Invalid or expired reset token" 400)
  | Some (id, _) =>
      updateUserPassword id newPassword;;
      modify (set_users (findByIdAndUpdate id (undefinedResetToken odm)))
  end.

(** A stored user whose reset token is [token] and has not expired. *)
Definition carriesLiveToken (now : Z) (token : string) (u : User) : Prop :=
  resetPasswordToken u = Some token
  ∧ ∃ t, resetPasswordExpires u = Some t ∧ now < t.

Lemma liveToken_spec now token u :
  liveToken now token u = true ↔ carriesLiveToken now token u.
Proof.
  unfold liveToken, carriesLiveToken. rewrite andb_true_iff bool_decide_eq_true.
  split.
  - intros [Ht He]. split; [done|].
    destruct (resetPasswordExpires u) as [t|]; [|done].
    exists t. split; [done|]. by apply Z.ltb_lt.
  - intros [Ht (t & -> & Hlt)]. split; [done|]. by apply Z.ltb_lt.
Qed.

(** The user document after a successful reset. *)
Definition afterReset (newPassword : string) (u : User) : User :=
  undefinedResetToken odm (setPasswordHash (hashPassword newPassword) u).

Lemma resetPassword_rejects s now token newPassword :
  (∀ id u, users s !! id = Some u → ¬ carriesLiveToken now token u) →
  resetPassword now token newPassword s = (Throw InvalidOrExpiredToken, s).
Proof.
  intros Hnone. unfold resetPassword. rewrite gets_bind.
  destruct (findOne _ _) as [[id u]|] eqn:E; [|done].
  apply findOne_Some in E as [Hu Hlive].
  apply liveToken_spec in Hlive. by destruct (Hnone id u).
Qed.

Lemma resetPassword_accepts s now token newPassword id0 u0 :
  users s !! id0 = Some u0 →
  carriesLiveToken now token u0 →
  ∃ id u,
    users s !! id = Some u
    ∧ carriesLiveToken now token u
    ∧ resetPassword now token newPassword s
      = (Ok tt, set_users <[id := afterReset newPassword u]> s).
Proof.
  intros Hu0 Hlive0. unfold resetPassword. rewrite gets_bind.
  destruct (findOne _ _) as [[id u]|] eqn:E.
  - apply findOne_Some in E as [Hu Hlive]. apply liveToken_spec in Hlive.
    exists id, u. split; [done|]. split; [done|].
    unfold updateUserPassword. rewrite modify_bind.
    unfold modify, set_users, findByIdAndUpdate. simpl. do 2 f_equal.
    apply map_eq. intros k. destruct (decide (id = k)) as [->|Hne].
    + rewrite !lookup_alter_eq lookup_insert_eq Hu. done.
    + rewrite !lookup_alter_ne // lookup_insert_ne //.
  - rewrite findOne_None in E. apply liveToken_spec in Hlive0.
    rewrite (E id0 u0 Hu0) in Hlive0. done.
Qed.

(** When some stored user carries the token unexpired, [resetPassword]
    succeeds on such a user and rewrites that document only. *)
Lemma resetPassword_success s now token newPassword :
  (∃ id u, users s !! id = Some u ∧ carriesLiveToken now token u) →
  ∃ id u s',
    users s !! id = Some u
    ∧ carriesLiveToken now token u
    ∧ resetPassword now token newPassword s = (Ok tt, s')
    ∧ users s' !! id = Some (afterReset newPassword u)
    ∧ (∀ id', id' ≠ id → users s' !! id' = users s !! id').
Proof.
  intros (id0 & u0 & Hu0 & Hlive0).
  destruct (resetPassword_accepts s now token newPassword id0 u0 Hu0 Hlive0)
    as (id & u & Hu & Hlive & Hrun).
  exists id, u, (set_users <[id := afterReset newPassword u]> s).
  split; [done|]. split; [done|]. split; [done|]. split.
  - simpl. apply lookup_insert_eq.
  - intros id' Hne. simpl. by rewrite lookup_insert_ne.
Qed.

(** A matching token that has expired is refused. *)
Lemma resetPassword_expired s now token newPassword id u t :
  users s !! id = Some u →
  (∀ id' u', users s !! id' = Some u' → resetPasswordToken u' = Some token →
             id' = id) →
  resetPasswordExpires u = Some t → t <= now →
  resetPassword now token newPassword s = (Throw InvalidOrExpiredToken, s).
Proof.
  intros Hu Huniq Hexp Hle. apply resetPassword_rejects.
  intros id' u' Hu' [Htok (t' & Hexp' & Hlt)].
  assert (id' = id) as -> by eauto.
  rewrite Hu in Hu'. injection Hu' as <-.
  rewrite Hexp in Hexp'. injection Hexp' as <-. lia.
Qed.

(** C3 (amended). When the email resolves to no stored user, and when it
    resolves to a stored user whose status is ACTIVE and whose password
    does not match, [login] fails with the same message and the same 401
    status and writes nothing.  For a stored user of any status a wrong
    password is answered with status 401. *)
Theorem login_uniform_failure s now mail1 password1 mail2 password2 id u :
  getUserByEmail mail1 s = (Ok None, s) →
  getUserByEmail mail2 s = (Ok (Some (id, u)), s) →
  comparePassword password2 (passwordHash u) = false →
  (status u = ACTIVE →
     login now mail1 password1 s = (Throw InvalidCredentials, s)
     ∧ login now mail2 password2 s = (Throw InvalidCredentials, s))
  ∧ (status u ≠ ACTIVE →
     login now mail2 password2 s = (Throw AccountNotActive, s))
  ∧ ∃ message,
      login now mail1 password1 s = (Throw InvalidCredentials, s)
      ∧ login now mail2 password2 s = (Throw (CustomError message 401), s).
Proof.
  intros H1 H2 Hpw.
  assert (login now mail1 password1 s = (Throw InvalidCredentials, s)) as Hunknown.
  { unfold login. rewrite bind_unfold H1. done. }
  split.
  - intros Hact. split; [done|].
    unfold login. rewrite bind_unfold H2.
    rewrite bool_decide_eq_false_2; [by rewrite Hact; auto|].
    rewrite throwIf_false Hpw. done.
  - split.
    { intros Hina. unfold login. rewrite bind_unfold H2.
      rewrite bool_decide_eq_true_2 //. }
    unfold login at 2. rewrite bind_unfold H2.
    destruct (bool_decide (status u ≠ ACTIVE)).
    + exists "Account is not active". done.
    + exists "Invalid email or password". rewrite throwIf_false Hpw. done.
Qed.

End WithCrypto.

(** *** A credential store with an active and a suspended account *)

Definition account (mail hash : string) (st : UserStatus) : User :=
  mkUser mail hash STUDENT st None None None None.

Definition credentials : Store :=
  mkStore (<["u1" := account "ann@school.test" "hash:secret" ACTIVE]>
             (<["u2" := account "bob@school.test" "hash:hunter2" SUSPENDED]> ∅))
          ∅ ∅ ∅ ∅.

Definition demoHash (password : string) : string := "hash:" +:+ password.
Definition demoCompare (password hash : string) : bool :=
  String.eqb (demoHash password) hash.
Definition demoTokens (p : TokenPayload) : TokenPayload * TokenPayload := (p, p).

(** C3, as stated, fails: a wrong password for a stored account that is not
    ACTIVE is answered with another message than an unknown email. *)
Lemma login_reveals_inactive_account :
  users credentials !! "u2" = Some (account "bob@school.test" "hash:hunter2" SUSPENDED)
  ∧ demoCompare "wrong" "hash:hunter2" = false
  ∧ login demoCompare demoTokens 1000 "nobody@school.test" "wrong" credentials
    = (Throw (CustomError "Invalid email or password" 401), credentials)
  ∧ login demoCompare demoTokens 1000 "bob@school.test" "wrong" credentials
    = (Throw (CustomError "Account is not active" 401), credentials)
  ∧ login demoCompare demoTokens 1000 "nobody@school.test" "wrong" credentials
    ≠ login demoCompare demoTokens 1000 "bob@school.test" "wrong" credentials.
Proof.
  split; [by vm_compute|]. split; [by vm_compute|].
  split; [by vm_compute|]. split; [by vm_compute|].
  vm_compute. intros [=].
Qed.

Lemma login_uniform_failure_witness :
  login demoCompare demoTokens 1000 "nobody@school.test" "wrong" credentials
  = (Throw InvalidCredentials, credentials)
  ∧ login demoCompare demoTokens 1000 "ann@school.test" "wrong" credentials
    = (Throw InvalidCredentials, credentials).
Proof.
  apply (login_uniform_failure demoCompare demoTokens credentials 1000
           "nobody@school.test" "wrong" "ann@school.test" "wrong" "u1"
           (account "ann@school.test" "hash:secret" ACTIVE)).
  - vm_compute. reflexivity.
  - vm_compute. reflexivity.
  - vm_compute. reflexivity.
  - reflexivity.
Defined.

(** The look-up lower-cases and trims the email it is given: another
    spelling of a stored email finds the same account. *)
Lemma login_any_spelling :
  (∃ s', login demoCompare demoTokens 1000 " ANN@School.Test " "secret" credentials
         = (Ok (account "ann@school.test" "hash:secret" ACTIVE,
                (mkPayload "u1" "ann@school.test" STUDENT,
                 mkPayload "u1" "ann@school.test" STUDENT)), s'))
  ∧ login demoCompare demoTokens 1000 "BOB@School.Test" "wrong" credentials
    = (Throw AccountNotActive, credentials).
Proof. split; [eexists|]; by vm_compute. Qed.

(** A store in which [u1] asked for a reset at time 0 (token valid until
    3600000). *)
Definition pendingUser : User :=
  mkUser "ann@school.test" "hash:secret" STUDENT ACTIVE None
         (Some "r3s3t") (Some 3600000) None.

Definition pendingReset : Store := mkStore (<["u1" := pendingUser]> ∅) ∅ ∅ ∅ ∅.

Definition afterFirstReset : Store :=
  (resetPassword demoHash KeyRemoved 1000 "r3s3t" "fresh" pendingReset).2.

(** Where an [undefined] value is stored as null, a successful reset leaves
    the user with the new hash and without token and expiry. *)
Lemma resetPassword_clears_when_null_is_stored
    (hashPassword : string → string) s now token newPassword :
  (∃ id u, users s !! id = Some u ∧ carriesLiveToken now token u) →
  ∃ id u s',
    users s !! id = Some u
    ∧ carriesLiveToken now token u
    ∧ resetPassword hashPassword StoredAsNull now token newPassword s = (Ok tt, s')
    ∧ (∀ u', users s' !! id = Some u' →
         passwordHash u' = hashPassword newPassword
         ∧ resetPasswordToken u' = None
         ∧ resetPasswordExpires u' = None)
    ∧ (∀ id', id' ≠ id → users s' !! id' = users s !! id').
Proof.
  intros H.
  destruct (resetPassword_success hashPassword StoredAsNull s now token newPassword H)
    as (id & u & s' & Hu & Hlive & Hrun & Hnew & Hother).
  exists id, u, s'. do 3 (split; [done|]). split; [|done].
  intros u'. rewrite Hnew. by intros [= <-].
Qed.

(** C4 fails on the code where keys with an [undefined] value are removed
    from an update (Mongoose 6 and later).  The rejection half holds: without
    a stored user that carries the token unexpired, [resetPassword] throws the
    invalid-or-expired error and writes nothing.  But the second update of a
    successful reset is then empty: the user ends with the new password hash
    and the old token still live, and the same token resets the password a
    second time. *)
Theorem resetPassword_leaves_token_usable :
  (∀ hashPassword odm s now token newPassword,
     (∀ id u, users s !! id = Some u → ¬ carriesLiveToken now token u) →
     resetPassword hashPassword odm now token newPassword s
     = (Throw InvalidOrExpiredToken, s))
  ∧ resetPassword demoHash KeyRemoved 1000 "r3s3t" "fresh" pendingReset
    = (Ok tt, afterFirstReset)
  ∧ users afterFirstReset !! "u1"
    = Some (mkUser "ann@school.test" "hash:fresh" STUDENT ACTIVE None
                   (Some "r3s3t") (Some 3600000) None)
  ∧ (∃ s'', resetPassword demoHash KeyRemoved 2000 "r3s3t" "again" afterFirstReset
            = (Ok tt, s'')
            ∧ passwordHash <$> users s'' !! "u1" = Some "hash:again")
  ∧ (∀ hashPassword s now token newPassword,
       (∃ id u, users s !! id = Some u ∧ carriesLiveToken now token u) →
       ∃ id u s',
         users s !! id = Some u
         ∧ resetPassword hashPassword KeyRemoved now token newPassword s = (Ok tt, s')
         ∧ users s' !! id = Some (setPasswordHash (hashPassword newPassword) u)
         ∧ carriesLiveToken now token (setPasswordHash (hashPassword newPassword) u)).
Proof.
  split; [intros; by apply resetPassword_rejects|].
  split; [by vm_compute|]. split; [by vm_compute|]. split.
  - eexists. split; by vm_compute.
  - intros hashPassword s now token newPassword H.
    destruct (resetPassword_success hashPassword KeyRemoved s now token newPassword H)
      as (id & u & s' & Hu & Hlive & Hrun & Hnew & _).
    exists id, u, s'. done.
Qed.

End AuthService.

(** ** Access control: middleware/rbac.ts *)

Module Rbac.

(** [req.user], set by [authenticate] from the token payload. *)
Record Identity := mkIdentity {
  userId : ObjectId;
  identityEmail : string;
  identityRole : Role
}.

Record Request := mkRequest { user : option Identity }.

(** The values a middleware is called with, besides the request. *)
Inductive Value :=
| VResponse               (* the response object *)
| VNext                   (* the continuation of the router *)
| VUndefined.             (* a parameter without argument *)

Inductive Outcome :=
| NextCalled              (* the request goes on to the route handler *)
| Thrown (e : Error).

(** [v()] *)
Definition call (v : Value) : Outcome :=
  match v with
  | VNext => NextCalled
  | VResponse => Thrown (TypeError "next is not a function")
  | VUndefined => Thrown (TypeError "next is not a function")
  end.

(** The function returned by [requireRoles(...roles)]; its parameter list
    is [(req, res, Response, next)]. *)
Definition requireRoles (roles : list Role)
    (req : Request) (res Response next : Value) : Outcome :=
  match user req with
  | None => Thrown (CustomError "Authentication required" 401)
  | Some u =>
      if negb (bool_decide (identityRole u ∈ roles))
      then Thrown (CustomError "Insufficient permissions" 403)
      else call next
  end.

(** [handler.length] of the function above. *)
Definition requireRoles_length : nat := 4.

Definition requireAdmin := requireRoles [ADMIN].
Definition requireTeacher := requireRoles [TEACHER; ADMIN].
Definition requireStudent := requireRoles [STUDENT; ADMIN].
Definition requireParent := requireRoles [PARENT; ADMIN].

(** A handler called the way a [RequestHandler] is: [fn(req, res, next)]. *)
Definition callAsRequestHandler
    (fn : Request → Value → Value → Value → Outcome) (req : Request) : Outcome :=
  fn req VResponse VNext VUndefined.

(** How the Express router runs a mounted middleware on a request that
    carries no error: a function declaring more than three parameters is an
    error handler and is passed over. *)
Definition handle_request (length : nat)
    (fn : Request → Value → Value → Value → Outcome) (req : Request) : Outcome :=
  if (3 <? length)%nat then NextCalled else callAsRequestHandler fn req.

Definition Unauthenticated : Error := CustomError "Authentication required" 401.
Definition Forbidden : Error := CustomError "Insufficient permissions" 403.

(** The decision the body takes, for whatever is bound to [next]. *)
Lemma requireRoles_decision roles req res Response next :
  match user req with
  | None => requireRoles roles req res Response next = Thrown Unauthenticated
  | Some u =>
      (identityRole u ∉ roles →
         requireRoles roles req res Response next = Thrown Forbidden)
      ∧ (identityRole u ∈ roles →
         requireRoles roles req res Response next = call next)
  end.
Proof.
  unfold requireRoles. destruct (user req) as [u|]; [|done].
  split; intros H.
  - by rewrite bool_decide_eq_false_2.
  - by rewrite bool_decide_eq_true_2.
Qed.

Lemma requireTeacher_roles r : r ∈ [TEACHER; ADMIN] ↔ r = TEACHER ∨ r = ADMIN.
Proof. rewrite !elem_of_cons elem_of_nil. tauto. Qed.

Lemma requireAdmin_roles r : r ∈ [ADMIN] ↔ r = ADMIN.
Proof. rewrite !elem_of_cons elem_of_nil. tauto. Qed.

Definition requestOf (r : Role) : Request :=
  mkRequest (Some (mkIdentity "u1" "user@school.test" r)).

(** C7 fails on the code: the guard never lets the router's continuation
    run for a role in the set, and as a mounted middleware it is passed over
    for every request.  A STUDENT reaches a route guarded by [requireAdmin];
    called as a request handler the guard answers an ADMIN with a
    [TypeError]. *)
Theorem requireRoles_parameter_slip :
  handle_request requireRoles_length requireAdmin (requestOf STUDENT) = NextCalled
  ∧ handle_request requireRoles_length requireAdmin (mkRequest None) = NextCalled
  ∧ callAsRequestHandler requireAdmin (requestOf ADMIN)
    = Thrown (TypeError "next is not a function")
  ∧ (∀ roles r, r ∈ roles →
       callAsRequestHandler (requireRoles roles) (requestOf r) ≠ NextCalled).
Proof.
  split; [reflexivity|]. split; [reflexivity|]. split; [reflexivity|].
  intros roles r Hr. unfold callAsRequestHandler, requireRoles. simpl.
  rewrite bool_decide_eq_true_2 //.
Qed.

End Rbac.

(** ** Exams and grades: grade.model.ts and exams.service.ts *)

Module GradeModel.

Definition setGrade (l : string) (g : Grade) : Grade := {|
  exam := exam g; student := student g; marks := marks g;
  grade := Some l; remarks := remarks g; gradedBy := gradedBy g
|}.

(** The chain of comparisons of the pre-save hook. *)
Definition letter (percentage : JS.number) : string :=
  if JS.ge percentage 90 then "A+"
  else if JS.ge percentage 85 then "A"
  else if JS.ge percentage 80 then "A-"
  else if JS.ge percentage 75 then "B+"
  else if JS.ge percentage 70 then "B"
  else if JS.ge percentage 65 then "B-"
  else if JS.ge percentage 60 then "C+"
  else if JS.ge percentage 55 then "C"
  else if JS.ge percentage 50 then "C-"
  else if JS.ge percentage 45 then "D"
  else "F".

(** [(marks / maxMarks) * 100] *)
Definition percentage (marks : Q) (maxMarks : JS.prop) : JS.number :=
  JS.mul_pos (JS.div marks maxMarks) 100.

(** [doc.maxMarks] for a document of the Grade model: the schema has no such
    path. *)
Definition maxMarksOfGrade (doc : Grade) : JS.prop := JS.Undefined.

(** [gradeSchema.pre('save')].  Inside the hook [this] is the grade being
    saved and [this.constructor] is its model, Grade: the lookup by
    [this.exam] runs on the grade collection. *)
Definition preSave (isModifiedMarks : bool) (this : Grade) : M Grade :=
  if isModifiedMarks then
    found ← gets (λ s, findById (grades s) (exam this));
    match found with
    | Some doc =>
        mret (setGrade (letter (percentage (marks this) (maxMarksOfGrade doc))) this)
    | None => mret this
    end
  else mret this.

(** The validators of [gradeSchema]; the report of the first one that fails
    stands for the ValidationError of [save()]. *)
Definition validate (g : Grade) : M unit :=
  throwIf (negb (Qle_bool 0 (marks g))) (ValidationError "Marks cannot be negative");;
  throwIf (String.eqb (default "" (grade g)) "") (ValidationError "Grade is required");;
  throwIf (2 <? String.length (default "" (grade g)))%nat
    (ValidationError "Grade cannot exceed 2 characters");;
  throwIf (200 <? String.length (default "" (remarks g)))%nat
    (ValidationError "Remarks cannot exceed 200 characters").

(** [doc.save()]: the built-in validation is the first pre-save step, the
    hook of the schema the second, the write the last; for a new document the
    database refuses an [_id] that is in use. *)
Definition save (isNew : bool) (id : ObjectId) (isModifiedMarks : bool) (g : Grade)
    : M Grade :=
  validate g;;
  g' ← preSave isModifiedMarks g;
  taken ← gets (λ s, findById (grades s) id);
  throwIf (isNew && bool_decide (is_Some taken))
    (MongoServerError "E11000 duplicate key error");;
  modify (set_grades <[id := g']>);;
  mret g'.

(** The unique index on (exam, student).  [save()] on a loaded document
    writes the paths that were modified: when the pair has changed, the
    database refuses it if another grade holds the new one. *)
Definition pairTaken (id : ObjectId) (old new : Grade) (s : Store) : bool :=
  negb (String.eqb (exam new) (exam old) && String.eqb (student new) (student old))
  && bool_decide (is_Some (findOne
       (λ k g', String.eqb (exam g') (exam new) && String.eqb (student g') (student new)
                && bool_decide (k ≠ id))
       (grades s))).

(** [doc.save()] on a loaded document after [Object.assign]: validation, the
    hook, then the write under the unique index. *)
Definition saveModified (id : ObjectId) (isModifiedMarks : bool) (old g : Grade)
    : M Grade :=
  validate g;;
  g' ← preSave isModifiedMarks g;
  taken ← gets (pairTaken id old g');
  throwIf taken (MongoServerError "E11000 duplicate key error");;
  modify (set_grades <[id := g']>);;
  mret g'.

End GradeModel.

Module UserService.

Definition deleteUser (id : ObjectId) : M unit :=
  user ← gets (λ s, findById (users s) id);
  match user with
  | None => throw (CustomError "User not found" 404)
  | Some _ => modify (set_users (findByIdAndDelete id))
  end.

End UserService.

Module ExamsService.

Definition deleteExam (id : ObjectId) : M unit :=
  examDoc ← gets (λ s, findById (exams s) id);
  match examDoc with
  | None => throw (CustomError "Exam not found" 404)
  | Some _ =>
      modify (set_grades (deleteMany (λ g, String.eqb (exam g) id)));;
      modify (set_exams (findByIdAndDelete id))
  end.

Record GradeData := mkGradeData {
  g_exam : ObjectId;
  g_student : ObjectId;
  g_marks : Q;
  g_remarks : option string;
  g_gradedBy : ObjectId
}.

Definition sameExamStudent (e st : ObjectId) (g : Grade) : bool :=
  String.eqb (exam g) e && String.eqb (student g) st.

Definition createGrade (oid : ObjectId) (d : GradeData) : M Grade :=
  existingGrade ← gets (λ s,
    findOne (λ _ g, sameExamStudent (g_exam d) (g_student d) g) (grades s));
  throwIf (bool_decide (is_Some existingGrade))
    (CustomError "Grade already exists for this student in this exam" 400);;
  examData ← gets (λ s, findById (exams s) (g_exam d));
  match examData with
  | None => throw (CustomError "Exam not found" 404)
  | Some e =>
      studentData ← gets (λ s, findById (users s) (g_student d));
      match studentData with
      | None => throw (CustomError "Student not found" 404)
      | Some st =>
          throwIf (bool_decide (role st ≠ STUDENT))
            (CustomError "User must have STUDENT role" 400);;
          throwIf (negb (Qle_bool (g_marks d) (maxMarks e)))
            (CustomError "Marks cannot exceed maximum marks for this exam" 400);;
          gradedByUser ← gets (λ s, findById (users s) (g_gradedBy d));
          match gradedByUser with
          | None => throw (CustomError "User not found" 404)
          | Some _ =>
              GradeModel.save true oid true {|
                exam := g_exam d;
                student := g_student d;
                marks := g_marks d;
                grade := None;
                remarks := JS.trim <$> g_remarks d;
                gradedBy := g_gradedBy d
              |}
          end
      end
  end.

(** [updateData: Partial<IGrade>]: any of the fields of a grade.  No route
    calls [updateGrade], so nothing narrows the update before the method. *)
Record GradeUpdate := mkPartialGrade {
  up_exam : option ObjectId;
  up_student : option ObjectId;
  up_marks : option Q;
  up_grade : option string;
  up_remarks : option string;
  up_gradedBy : option ObjectId
}.

(** An update of marks and remarks only. *)
Definition mkGradeUpdate (m : option Q) (r : option string) : GradeUpdate :=
  mkPartialGrade None None m None r None.

(** [Object.assign(grade, updateData)]; the setters of the document trim
    [remarks], and upper-case and trim [grade]. *)
Definition assignUpdate (g : Grade) (u : GradeUpdate) : Grade := {|
  exam := JS.assign (exam g) (up_exam u);
  student := JS.assign (student g) (up_student u);
  marks := JS.assign (marks g) (up_marks u);
  grade := match up_grade u with
           | Some l => Some (JS.trim (JS.toUpperCase l))
           | None => grade g
           end;
  remarks := match up_remarks u with
             | Some r => Some (JS.trim r)
             | None => remarks g
             end;
  gradedBy := JS.assign (gradedBy g) (up_gradedBy u)
|}.

Definition updateGrade (id : ObjectId) (u : GradeUpdate) : M Grade :=
  gradeDoc ← gets (λ s, findById (grades s) id);
  match gradeDoc with
  | None => throw (CustomError "Grade not found" 404)
  | Some g =>
      match up_marks u with
      | Some m =>
          examDoc ← gets (λ s, findById (exams s) (exam g));
          match examDoc with
          | Some e =>
              throwIf (negb (Qle_bool m (maxMarks e)))
                (CustomError "Marks cannot exceed maximum marks for this exam" 400)
          | None => mret tt
          end
      | None => mret tt
      end;;
      GradeModel.saveModified id
        (negb (Qeq_bool (marks (assignUpdate g u)) (marks g)))
        g (assignUpdate g u)
  end.

End ExamsService.

(** ** Properties of the exam and grade services *)

Module GradeFacts.
Import GradeModel ExamsService.

Definition DuplicateGrade : Error :=
  CustomError "Grade already exists for this student in this exam" 400.
Definition MarksExceedMaximum : Error :=
  CustomError "Marks cannot exceed maximum marks for this exam" 400.

(** The breakpoints, on a percentage that is a number. *)
Example letter_95 : letter (percentage 95 (JS.Number 100)) = "A+".
Proof. reflexivity. Qed.

Example letter_52 : letter (percentage 52 (JS.Number 100)) = "C-".
Proof. reflexivity. Qed.

Lemma letter_NaN : letter JS.NaN = "F".
Proof. reflexivity. Qed.

Lemma percentage_undefined m : percentage m JS.Undefined = JS.NaN.
Proof. reflexivity. Qed.

(** The breakpoint function in the words of the specification: the letter
    of the percentage [100 * m / M]. *)
Definition specLetter (m M : Q) : string :=
  let p := (100 * m / M)%Q in
  if Qle_bool 90 p then "A+"
  else if Qle_bool 85 p then "A"
  else if Qle_bool 80 p then "A-"
  else if Qle_bool 75 p then "B+"
  else if Qle_bool 70 p then "B"
  else if Qle_bool 65 p then "B-"
  else if Qle_bool 60 p then "C+"
  else if Qle_bool 55 p then "C"
  else if Qle_bool 50 p then "C-"
  else if Qle_bool 45 p then "D"
  else "F".

(** Applied to the marks and to a maximum that is a non-zero number, the
    chain of the hook is the breakpoint function of the specification. *)
Lemma letter_is_specLetter (m M : Q) :
  ¬ (M == 0)%Q → letter (percentage m (JS.Number M)) = specLetter m M.
Proof.
  intros HM. unfold percentage, JS.div, JS.Qsign.
  assert (m / M * 100 == 100 * m / M)%Q as Heq by (field; exact HM).
  destruct (M ?= 0)%Q eqn:E.
  - apply Qeq_alt in E. contradiction.
  - unfold letter, specLetter, JS.mul_pos, JS.ge. cbv zeta.
    rewrite -> !(Qleb_comp _ _ (reflexivity _) _ _ Heq). reflexivity.
  - unfold letter, specLetter, JS.mul_pos, JS.ge. cbv zeta.
    rewrite -> !(Qleb_comp _ _ (reflexivity _) _ _ Heq). reflexivity.
Qed.

(** *** The hook *)

Lemma preSave_no_grade_with_exam_id s g :
  grades s !! exam g = None → preSave true g s = (Ok g, s).
Proof. intros H. unfold preSave. rewrite gets_bind /findById H. done. Qed.

Lemma preSave_grade_with_exam_id s g doc :
  grades s !! exam g = Some doc → preSave true g s = (Ok (setGrade "F" g), s).
Proof. intros H. unfold preSave. rewrite gets_bind /findById H. done. Qed.

Lemma preSave_unmodified s g : preSave false g s = (Ok g, s).
Proof. reflexivity. Qed.

(** The hook reads the store only, and leaves marks, exam and student. *)
Lemma preSave_cases b s g :
  preSave b g s = (Ok g, s) ∨ preSave b g s = (Ok (setGrade "F" g), s).
Proof.
  destruct b; [|by left]. destruct (grades s !! exam g) as [doc|] eqn:E.
  - right. by apply (preSave_grade_with_exam_id s g doc).
  - left. by apply preSave_no_grade_with_exam_id.
Qed.

Lemma grade_validate_isCheck g : isCheck (validate g).
Proof.
  intros s. unfold validate.
  do 3 (match goal with |- context [throwIf ?b ?e ≫= _] =>
          destruct b; [right; by eexists | rewrite throwIf_false] end).
  apply isCheck_throwIf.
Qed.

Lemma save_letterless isNew id b g s :
  grade g = None → ∃ e, save isNew id b g s = (Throw e, s).
Proof.
  intros Hg. unfold save, validate. rewrite bind_unfold.
  destruct (negb (Qle_bool 0 (marks g))).
  - rewrite throwIf_true. by eexists.
  - rewrite throwIf_false Hg. by eexists.
Qed.

(** *** createGrade *)

Definition hasGradeFor (s : Store) (e st : ObjectId) : Prop :=
  ∃ id g, grades s !! id = Some g ∧ exam g = e ∧ student g = st.

Lemma sameExamStudent_spec e st g :
  sameExamStudent e st g = true ↔ exam g = e ∧ student g = st.
Proof.
  unfold sameExamStudent. rewrite andb_true_iff. by rewrite !String.eqb_eq.
Qed.

Lemma existingGrade_found s e st :
  hasGradeFor s e st ↔
  is_Some (findOne (λ _ g, sameExamStudent e st g) (grades s)).
Proof.
  split.
  - intros (id & g & Hg & He & Hs).
    apply (findOne_is_Some _ _ id g Hg). by apply sameExamStudent_spec.
  - intros [[id g] H]. apply findOne_Some in H as [Hg Hp].
    apply sameExamStudent_spec in Hp as [He Hs]. by exists id, g.
Qed.

Lemma createGrade_duplicate oid d s :
  hasGradeFor s (g_exam d) (g_student d) →
  createGrade oid d s = (Throw DuplicateGrade, s).
Proof.
  intros H%existingGrade_found. unfold createGrade.
  rewrite gets_bind bool_decide_eq_true_2 //.
Qed.

Lemma createGrade_marks oid d s e st :
  ¬ hasGradeFor s (g_exam d) (g_student d) →
  exams s !! g_exam d = Some e →
  users s !! g_student d = Some st →
  role st = STUDENT →
  (maxMarks e < g_marks d)%Q →
  createGrade oid d s = (Throw MarksExceedMaximum, s).
Proof.
  intros Hdup He Hst Hrole Hm. unfold createGrade.
  rewrite gets_bind bool_decide_eq_false_2; [by rewrite -existingGrade_found|].
  rewrite throwIf_false gets_bind /findById He gets_bind Hst.
  rewrite (ClassFacts.role_guard_pass _ _ Hrole) throwIf_false.
  apply ClassFacts.Qle_bool_false in Hm. rewrite Hm. done.
Qed.

(** No call of [createGrade] writes: the new document has no letter when
    [save()] validates it. *)
Lemma createGrade_throws oid d s : ∃ err, createGrade oid d s = (Throw err, s).
Proof.
  unfold createGrade. rewrite gets_bind.
  destruct (bool_decide _); [by eexists|]. rewrite throwIf_false gets_bind.
  destruct (findById _ _) as [e|]; [|by eexists]. rewrite gets_bind.
  destruct (findById _ _) as [st|]; [|by eexists].
  destruct (bool_decide _); [by eexists|]. rewrite throwIf_false.
  destruct (negb _); [by eexists|]. rewrite throwIf_false gets_bind.
  destruct (findById _ _) as [t|]; [|by eexists].
  by apply save_letterless.
Qed.

(** *** A grade book *)

Definition midterm : Exam := mkExam "Midterm" "c1" "sub1" 100.

Definition gradebook : Store :=
  mkStore ClassFacts.people ∅ (<["e1" := midterm]> ∅) ∅ ∅.

Definition annsGrade : Grade := mkGrade "e1" "s1" 95 (Some "A+") None "t1".

Definition gradebookWithGrade : Store :=
  mkStore ClassFacts.people ∅ (<["e1" := midterm]> ∅) (<["g1" := annsGrade]> ∅) ∅.

Definition gradeOf (st : ObjectId) (m : Q) : GradeData :=
  mkGradeData "e1" st m None "t1".

Definition StudentNotFound : Error := CustomError "Student not found" 404.
Definition NotAStudent : Error := CustomError "User must have STUDENT role" 400.

Lemma createGrade_student_missing oid d s e :
  ¬ hasGradeFor s (g_exam d) (g_student d) →
  exams s !! g_exam d = Some e →
  users s !! g_student d = None →
  createGrade oid d s = (Throw StudentNotFound, s).
Proof.
  intros Hdup He Hst. unfold createGrade.
  rewrite gets_bind bool_decide_eq_false_2; [by rewrite -existingGrade_found|].
  rewrite throwIf_false gets_bind /findById He gets_bind Hst. done.
Qed.

Lemma createGrade_not_a_student oid d s e st :
  ¬ hasGradeFor s (g_exam d) (g_student d) →
  exams s !! g_exam d = Some e →
  users s !! g_student d = Some st →
  role st ≠ STUDENT →
  createGrade oid d s = (Throw NotAStudent, s).
Proof.
  intros Hdup He Hst Hrole. unfold createGrade.
  rewrite gets_bind bool_decide_eq_false_2; [by rewrite -existingGrade_found|].
  rewrite throwIf_false gets_bind /findById He gets_bind Hst.
  rewrite bool_decide_eq_true_2 //.
Qed.

(** C5 (amended). When the referenced exam exists and the marks are above
    its maximum, [createGrade] throws and leaves the store as it was; the
    error is the marks-bound error when no grade exists yet for the pair and
    the student id resolves to a user with the STUDENT role, and the error of
    the student check when it does not.  Whenever a grade exists for the
    (exam, student) pair, [createGrade] throws the duplicate-grade error and
    leaves the store as it was. *)
Theorem createGrade_rejections s oid d :
  (∀ e, exams s !! g_exam d = Some e → (maxMarks e < g_marks d)%Q →
     (∃ err, createGrade oid d s = (Throw err, s))
     ∧ (¬ hasGradeFor s (g_exam d) (g_student d) →
        (∃ st, users s !! g_student d = Some st ∧ role st = STUDENT) →
        createGrade oid d s = (Throw MarksExceedMaximum, s))
     ∧ (¬ hasGradeFor s (g_exam d) (g_student d) →
        users s !! g_student d = None →
        createGrade oid d s = (Throw StudentNotFound, s))
     ∧ (¬ hasGradeFor s (g_exam d) (g_student d) →
        (∃ st, users s !! g_student d = Some st ∧ role st ≠ STUDENT) →
        createGrade oid d s = (Throw NotAStudent, s)))
  ∧ (hasGradeFor s (g_exam d) (g_student d) →
     createGrade oid d s = (Throw DuplicateGrade, s)).
Proof.
  split; [|apply createGrade_duplicate].
  intros e He Hm. split; [apply createGrade_throws|]. split; [|split].
  - intros Hdup (st & Hst & Hrole). by apply (createGrade_marks oid d s e st).
  - intros Hdup Hst. by apply (createGrade_student_missing oid d s e).
  - intros Hdup (st & Hst & Hrole). by apply (createGrade_not_a_student oid d s e st).
Qed.

(** C5, as stated, fails: marks above the maximum are answered with the
    duplicate-grade error when the pair already has a grade, and with the
    not-found error when the student id resolves to no user. *)
Lemma createGrade_duplicate_before_marks :
  exams gradebookWithGrade !! "e1" = Some midterm
  ∧ (maxMarks midterm < g_marks (gradeOf "s1" 150))%Q
  ∧ createGrade "g2" (gradeOf "s1" 150) gradebookWithGrade
    = (Throw DuplicateGrade, gradebookWithGrade)
  ∧ createGrade "g2" (gradeOf "s1" 150) gradebookWithGrade
    ≠ (Throw MarksExceedMaximum, gradebookWithGrade)
  ∧ exams gradebook !! "e1" = Some midterm
  ∧ createGrade "g1" (gradeOf "s9" 150) gradebook = (Throw StudentNotFound, gradebook)
  ∧ createGrade "g1" (gradeOf "s9" 150) gradebook
    ≠ (Throw MarksExceedMaximum, gradebook).
Proof.
  split; [by vm_compute|]. split; [by vm_compute|].
  split; [by vm_compute|]. split; [vm_compute; by intros [=]|].
  split; [by vm_compute|]. split; [by vm_compute|].
  vm_compute. intros [=].
Qed.

Lemma createGrade_rejections_witness :
  createGrade "g1" (gradeOf "s1" 150) gradebook = (Throw MarksExceedMaximum, gradebook)
  ∧ createGrade "g2" (gradeOf "s1" 40) gradebookWithGrade
    = (Throw DuplicateGrade, gradebookWithGrade).
Proof.
  split.
  - destruct (createGrade_rejections gradebook "g1" (gradeOf "s1" 150)) as [H _].
    destruct (H midterm) as [_ Hmarks].
    + simpl. apply lookup_insert_eq.
    + unfold Qlt. simpl. lia.
    + apply Hmarks.
      * intros (id & g & Hg & _). simpl in Hg. by rewrite lookup_empty in Hg.
      * eexists. split; [vm_compute; reflexivity | reflexivity].
  - destruct (createGrade_rejections gradebookWithGrade "g2" (gradeOf "s1" 40))
      as [_ H].
    apply H. exists "g1", annsGrade. split; [|done].
    simpl. apply lookup_insert_eq.
Defined.

(** C1 fails on the code.  The hook that should derive the letter looks the
    exam id up among the grades, so the exam's maximum is never read: the
    hook leaves the letter as it was, or sets "F" when a grade happens to
    have the exam's id.  A new grade therefore reaches validation without a
    letter and [createGrade] throws for every input; in the scenario of the
    specification (maximum 100, marks 95 and 52) nothing is stored, and an
    update of the marks of a stored grade keeps its old letter. *)
Theorem grade_letter_not_derived :
  createGrade "g1" (gradeOf "s1" 95) gradebook
  = (Throw (ValidationError "Grade is required"), gradebook)
  ∧ createGrade "g2" (gradeOf "s2" 52) gradebook
    = (Throw (ValidationError "Grade is required"), gradebook)
  ∧ updateGrade "g1" (mkGradeUpdate (Some 20%Q) None) gradebookWithGrade
    = (Ok (mkGrade "e1" "s1" 20 (Some "A+") None "t1"),
       set_grades <["g1" := mkGrade "e1" "s1" 20 (Some "A+") None "t1"]>
         gradebookWithGrade)
  ∧ (∀ s oid d, ∃ err, createGrade oid d s = (Throw err, s))
  ∧ (∀ s g, grades s !! exam g = None → preSave true g s = (Ok g, s))
  ∧ (∀ s g doc, grades s !! exam g = Some doc →
       preSave true g s = (Ok (setGrade "F" g), s)).
Proof.
  split; [by vm_compute|]. split; [by vm_compute|]. split; [by vm_compute|].
  split; [intros; apply createGrade_throws|].
  split; [apply preSave_no_grade_with_exam_id | apply preSave_grade_with_exam_id].
Qed.

(** *** deleteExam *)

Lemma deleteMany_lookup {A} (p : A → bool) (c : gmap ObjectId A) id a :
  deleteMany p c !! id = Some a ↔ c !! id = Some a ∧ p a = false.
Proof. unfold deleteMany. by rewrite map_lookup_filter_Some. Qed.

(** C9. For an existing exam, [deleteExam] succeeds; afterwards the exam is
    gone, the grades left are exactly the former grades of other exams,
    every other exam is as before, and users, classes and announcements are
    untouched.  Deleting a user, in contrast, removes the user document and
    nothing else. *)
Theorem deleteExam_cascades s id e :
  exams s !! id = Some e →
  ∃ s',
    deleteExam id s = (Ok tt, s')
    ∧ exams s' !! id = None
    ∧ (∀ id', id' ≠ id → exams s' !! id' = exams s !! id')
    ∧ (∀ gid g, grades s' !! gid = Some g ↔ grades s !! gid = Some g ∧ exam g ≠ id)
    ∧ users s' = users s
    ∧ classes s' = classes s
    ∧ announcements s' = announcements s
    ∧ (∀ uid u, users s !! uid = Some u →
         UserService.deleteUser uid s
         = (Ok tt, mkStore (delete uid (users s)) (classes s) (exams s)
                           (grades s) (announcements s))).
Proof.
  intros He. eexists. split.
  { unfold deleteExam. rewrite gets_bind /findById He modify_bind. reflexivity. }
  simpl. unfold findByIdAndDelete.
  split; [apply lookup_delete_eq|].
  split; [intros id' Hne; by apply lookup_delete_ne|].
  split.
  { intros gid g. rewrite deleteMany_lookup.
    split; intros [Hg Hp]; (split; [done|]).
    - intros Heq. rewrite Heq String.eqb_refl in Hp. done.
    - by apply String.eqb_neq. }
  do 3 (split; [done|]).
  intros uid u Hu. unfold UserService.deleteUser.
  rewrite gets_bind /findById Hu. reflexivity.
Qed.

Lemma deleteExam_cascades_witness :
  ∃ s',
    deleteExam "e1" gradebookWithGrade = (Ok tt, s')
    ∧ exams s' !! "e1" = None
    ∧ grades s' !! "g1" = None
    ∧ users s' = users gradebookWithGrade.
Proof.
  destruct (deleteExam_cascades gradebookWithGrade "e1" midterm)
    as (s' & Hrun & Hgone & _ & Hgrades & Husers & _).
  { simpl. apply lookup_insert_eq. }
  exists s'. split; [exact Hrun|]. split; [exact Hgone|]. split; [|exact Husers].
  destruct (grades s' !! "g1") as [g|] eqn:E; [|reflexivity].
  apply Hgrades in E as [Hg Hne]. simpl in Hg.
  rewrite lookup_insert_eq in Hg. injection Hg as <-. by destruct Hne.
Defined.

End GradeFacts.

(** ** Announcements: announcement.model.ts and announcement.service.ts *)

Module AnnouncementModel.

Definition setPublishedAt (t : Z) (a : Announcement) : Announcement := {|
  title := title a; body := body a; audience := audience a; targets := targets a;
  targetModel := targetModel a; createdBy := createdBy a;
  annStatus := annStatus a; publishedAt := Some t; expiresAt := expiresAt a
|}.

Definition setStatus (st : AnnouncementStatus) (a : Announcement) : Announcement := {|
  title := title a; body := body a; audience := audience a; targets := targets a;
  targetModel := targetModel a; createdBy := createdBy a;
  annStatus := st; publishedAt := publishedAt a; expiresAt := expiresAt a
|}.

(** [announcementSchema.pre('save')] *)
Definition preSave (now : Z) (isModifiedStatus : bool) (this : Announcement)
    : Announcement :=
  if isModifiedStatus
     && bool_decide (annStatus this = PUBLISHED)
     && negb (bool_decide (is_Some (publishedAt this)))
  then setPublishedAt now this
  else this.

(** The validators of [announcementSchema]. *)
Definition validate (a : Announcement) : M unit :=
  throwIf (String.eqb (title a) "") (ValidationError "Title is required");;
  throwIf (200 <? String.length (title a))%nat
    (ValidationError "Title cannot exceed 200 characters");;
  throwIf (String.eqb (body a) "") (ValidationError "Body is required");;
  throwIf (2000 <? String.length (body a))%nat
    (ValidationError "Body cannot exceed 2000 characters");;
  throwIf (bool_decide (audience a ≠ ALL) && negb (JS.truthy_str (targetModel a)))
    (ValidationError "Path `targetModel` is required.");;
  throwIf (match targetModel a with
           | Some m => negb (String.eqb m "User" || String.eqb m "Class")
           | None => false
           end)
    (ValidationError "`targetModel` is not a valid enum value").

Definition save (now : Z) (id : ObjectId) (isModifiedStatus : bool)
    (a : Announcement) : M Announcement :=
  validate a;;
  let a' := preSave now isModifiedStatus a in
  modify (set_announcements <[id := a']>);;
  mret a'.

End AnnouncementModel.

Module AnnouncementService.
Import AnnouncementModel.

(** [userRole !== 'ADMIN' && announcement.createdBy.toString() !== userId] *)
Definition notOwnerNorAdmin (a : Announcement)
    (userRole : option Role) (userId : option ObjectId) : bool :=
  bool_decide (userRole ≠ Some ADMIN) && bool_decide (Some (createdBy a) ≠ userId).

Definition publishAnnouncement (now : Z) (id : ObjectId)
    (userRole : option Role) (userId : option ObjectId) : M Announcement :=
  announcement ← gets (λ s, findById (announcements s) id);
  match announcement with
  | None => throw (CustomError "Announcement not found" 404)
  | Some a =>
      throwIf (notOwnerNorAdmin a userRole userId)
        (CustomError "You can only publish your own announcements" 403);;
      let a1 := setStatus PUBLISHED a in
      let a2 := setPublishedAt now a1 in
      save now id (bool_decide (annStatus a ≠ PUBLISHED)) a2
  end.

(** The body accepted by the update route (updateAnnouncementSchema), for
    the fields of the document kept here. *)
Record UpdateData := mkUpdate {
  u_title : option string;
  u_body : option string;
  u_audience : option Audience;
  u_targets : option (list ObjectId);
  u_status : option AnnouncementStatus;
  u_expiresAt : option Z
}.

(** [Object.assign(announcement, updateData)]; the setters of the document
    trim [title] and [body]. *)
Definition assignUpdate (a : Announcement) (u : UpdateData) : Announcement := {|
  title := JS.assign (title a) (JS.trim <$> u_title u);
  body := JS.assign (body a) (JS.trim <$> u_body u);
  audience := JS.assign (audience a) (u_audience u);
  targets := JS.assign (targets a) (u_targets u);
  targetModel := targetModel a;
  createdBy := createdBy a;
  annStatus := JS.assign (annStatus a) (u_status u);
  publishedAt := publishedAt a;
  expiresAt := match u_expiresAt u with Some t => Some t | None => expiresAt a end
|}.

(** [(await Model.find({ _id: { $in: ids } })).length] *)
Definition countIn {A} (ids : list ObjectId) (c : gmap ObjectId A) : nat :=
  size (filter (λ kv, kv.1 ∈ ids) c).

Definition updateAnnouncement (now : Z) (id : ObjectId) (u : UpdateData)
    (userRole : option Role) (userId : option ObjectId) : M Announcement :=
  announcement ← gets (λ s, findById (announcements s) id);
  match announcement with
  | None => throw (CustomError "Announcement not found" 404)
  | Some a =>
      throwIf (notOwnerNorAdmin a userRole userId)
        (CustomError "You can only update your own announcements" 403);;
      match u_targets u with
      | Some (t :: ts) =>
          let tgts := t :: ts in
          let audience := JS.assign (audience a) (u_audience u) in
          match audience with
          | CLASS =>
              found ← gets (λ s, countIn tgts (classes s));
              throwIf (negb (found =? length tgts)%nat)
                (CustomError "One or more classes not found" 400)
          | USER | ROLE =>
              found ← gets (λ s, countIn tgts (users s));
              throwIf (negb (found =? length tgts)%nat)
                (CustomError "One or more users not found" 400)
          | ALL => mret tt
          end
      | _ => mret tt
      end;;
      let a' := assignUpdate a u in
      save now id (negb (bool_decide (annStatus a' = annStatus a))) a'
  end.

End AnnouncementService.

Module AnnouncementFacts.
Import AnnouncementModel AnnouncementService.

(** The hook stamps the first transition to PUBLISHED and keeps a stamp
    that is already there. *)
Lemma preSave_first_publication now a :
  annStatus a = PUBLISHED → publishedAt a = None →
  preSave now true a = setPublishedAt now a.
Proof.
  intros Hs Hp. unfold preSave.
  rewrite bool_decide_eq_true_2 // Hp bool_decide_eq_false_2 //.
Qed.

Lemma preSave_keeps_stamp now b a t :
  publishedAt a = Some t → preSave now b a = a.
Proof.
  intros Hp. unfold preSave.
  rewrite Hp (bool_decide_eq_true_2 (is_Some (Some t))) //.
  by rewrite andb_false_r.
Qed.

Definition validB (a : Announcement) : bool :=
  negb (String.eqb (title a) "") && negb (200 <? String.length (title a))%nat
  && negb (String.eqb (body a) "") && negb (2000 <? String.length (body a))%nat
  && negb (bool_decide (audience a ≠ ALL) && negb (JS.truthy_str (targetModel a)))
  && negb (match targetModel a with
           | Some m => negb (String.eqb m "User" || String.eqb m "Class")
           | None => false
           end).

Lemma announcement_validate_isCheck a : isCheck (validate a).
Proof.
  intros s. unfold validate.
  do 5 (match goal with |- context [throwIf ?b ?e ≫= _] =>
          destruct b; [right; by eexists | rewrite throwIf_false] end).
  apply isCheck_throwIf.
Qed.

Lemma announcement_validate_ok a s : validB a = true → validate a s = (Ok tt, s).
Proof.
  unfold validB, validate. intros H.
  repeat (apply andb_prop in H as [H ?]).
  repeat match goal with
         | H : negb _ = true |- _ => apply negb_true_iff in H; rewrite H; clear H
         end.
  done.
Qed.

(** [publishAnnouncement] by the author or an administrator always stamps
    the announcement with the time of the call. *)
Lemma publishAnnouncement_stamps s now id a userRole userId :
  announcements s !! id = Some a →
  notOwnerNorAdmin a userRole userId = false →
  validB a = true →
  publishAnnouncement now id userRole userId s
  = (Ok (setPublishedAt now (setStatus PUBLISHED a)),
     set_announcements <[id := setPublishedAt now (setStatus PUBLISHED a)]> s).
Proof.
  intros Ha Hauth Hv. unfold publishAnnouncement.
  rewrite gets_bind /findById Ha Hauth throwIf_false.
  unfold save. rewrite bind_unfold announcement_validate_ok //.
  by rewrite (preSave_keeps_stamp _ _ _ now).
Qed.

(** The update path goes through the hook and keeps an existing stamp. *)
Lemma updateAnnouncement_keeps_stamp s now id a u userRole userId t r s' :
  announcements s !! id = Some a →
  publishedAt a = Some t →
  updateAnnouncement now id u userRole userId s = (Ok r, s') →
  publishedAt r = Some t ∧ announcements s' !! id = Some r.
Proof.
  intros Ha Hp. unfold updateAnnouncement.
  rewrite gets_bind /findById Ha.
  destruct (notOwnerNorAdmin _ _ _); [by rewrite throwIf_true|].
  rewrite throwIf_false.
  match goal with |- context [(?m ≫= ?k) s] =>
    destruct (isCheck_bind m k s) as [-> | [e ->]]; [| |done]
  end.
  { destruct (u_targets u) as [[|x l]|]; auto with checks.
    cbv zeta. destruct (JS.assign _ _); auto with checks. }
  unfold save. rewrite bind_unfold.
  match goal with |- context [validate ?x s] =>
    destruct (announcement_validate_isCheck x s) as [-> | [e ->]]; [|done]
  end.
  rewrite (preSave_keeps_stamp _ _ _ t) //.
  intros [= <- <-]. split; [done|]. simpl. apply lookup_insert_eq.
Qed.

(** An announcement for everybody, published at time 1000. *)
Definition notice : Announcement :=
  mkAnnouncement "Sports day" "Friday on the main field." ALL [] None "t1"
                 PUBLISHED (Some 1000) None.

Definition board : Store := mkStore ClassFacts.people ∅ ∅ ∅ (<["a1" := notice]> ∅).

(** C8 fails on the code: [publishAnnouncement] assigns [publishedAt]
    before saving, whatever the document holds.  Publishing again, at time
    2000, an announcement published at time 1000 moves its stamp to 2000
    (while setting the status to PUBLISHED through [updateAnnouncement]
    leaves the stamp at 1000), and every publication that passes the checks
    stamps the time of the call. *)
Theorem publishAnnouncement_overwrites_stamp :
  publishedAt notice = Some 1000
  ∧ (∃ a',
       publishAnnouncement 2000 "a1" (Some TEACHER) (Some "t1") board
       = (Ok a', set_announcements <["a1" := a']> board)
       ∧ publishedAt a' = Some 2000)
  ∧ updateAnnouncement 2000 "a1" (mkUpdate None None None None (Some PUBLISHED) None)
      (Some TEACHER) (Some "t1") board
    = (Ok notice, board)
  ∧ (∀ s now id a userRole userId,
       announcements s !! id = Some a →
       notOwnerNorAdmin a userRole userId = false →
       validB a = true →
       ∃ a' s',
         publishAnnouncement now id userRole userId s = (Ok a', s')
         ∧ announcements s' !! id = Some a'
         ∧ publishedAt a' = Some now).
Proof.
  split; [reflexivity|]. split; [|split].
  - eexists. split; [by vm_compute|reflexivity].
  - by vm_compute.
  - intros s now id a userRole userId Ha Hauth Hv.
    eexists _, _. split; [by apply publishAnnouncement_stamps|].
    split; [simpl; apply lookup_insert_eq | reflexivity].
Qed.

End AnnouncementFacts.

(** * Further coverage of the services *)

(** ** Classes: deletion, creation and the student's class reference *)

Module ClassMore.
Import ClassService ClassFacts.

Definition deleteClass (id : ObjectId) : M unit :=
  classData ← gets (λ s, findById (classes s) id);
  match classData with
  | None => throw (CustomError "Class not found" 404)
  | Some c =>
      throwIf (0 <? length (students c))%nat
        (CustomError "Cannot delete class with enrolled students" 400);;
      modify (set_classes (findByIdAndDelete id))
  end.

Definition ClassNotFound : Error := CustomError "Class not found" 404.
Definition ClassHasStudents : Error :=
  CustomError "Cannot delete class with enrolled students" 400.
Definition ClassExists : Error :=
  CustomError "Class with this name, section, and year already exists" 400.
Definition StudentNotFound : Error := CustomError "Student not found" 404.

Lemma deleteClass_cases s id :
  match classes s !! id with
  | None => deleteClass id s = (Throw ClassNotFound, s)
  | Some c =>
      (students c ≠ [] → deleteClass id s = (Throw ClassHasStudents, s))
      ∧ (students c = [] →
         deleteClass id s = (Ok tt, set_classes (delete id) s)
         ∧ ∀ id', id' ≠ id →
             classes (set_classes (delete id) s) !! id' = classes s !! id')
  end.
Proof.
  unfold deleteClass. rewrite gets_bind /findById.
  destruct (classes s !! id) as [c|] eqn:Hc; [|done]. split.
  - intros Hne. destruct (students c); [done|]. done.
  - intros ->. split; [done|]. intros id' Hne. simpl. by apply lookup_delete_ne.
Qed.

Lemma deleteClass_refused s id c :
  classes s !! id = Some c → students c ≠ [] →
  deleteClass id s = (Throw ClassHasStudents, s).
Proof.
  intros Hc Hne. pose proof (deleteClass_cases s id) as H.
  rewrite Hc in H. by apply H.
Qed.

Lemma deleteClass_done s id c :
  classes s !! id = Some c → students c = [] →
  deleteClass id s = (Ok tt, set_classes (delete id) s).
Proof.
  intros Hc He. pose proof (deleteClass_cases s id) as H.
  rewrite Hc in H. by apply H.
Qed.

Lemma filter_ne_snoc (x : ObjectId) (l : list ObjectId) :
  x ∉ l → filter (λ id, id ≠ x) (l ++ [x]) = l.
Proof.
  intros Hx. rewrite filter_app filter_ne_absent //.
  rewrite filter_cons_False; [by auto|]. by rewrite filter_nil app_nil_r.
Qed.

Lemma setStudents_twice l l' c : setStudents l (setStudents l' c) = setStudents l c.
Proof. reflexivity. Qed.

Section AddThenRemove.
Context (s : Store) (classId studentId : ObjectId) (c : Class) (u : User).
Hypothesis Hclass : classes s !! classId = Some c.
Hypothesis Hvalid : validB c = true.
Hypothesis Hstudent : users s !! studentId = Some u.
Hypothesis Hrole : role u = STUDENT.
Hypothesis Hnew : studentId ∉ students c.
Hypothesis Hroom : (count (students c) < capacity c)%Q.

Lemma afterAdd_class :
  classes (afterAdd classId studentId c s) !! classId
  = Some (setStudents (students c ++ [studentId]) c).
Proof. simpl. apply lookup_insert_eq. Qed.

Lemma afterAdd_user :
  users (afterAdd classId studentId c s) !! studentId
  = Some (setMetaClass (Some classId) u).
Proof. simpl. unfold findByIdAndUpdate. by rewrite lookup_alter_eq Hstudent. Qed.

(** Enrolling a new student and removing the student again gives back the
    class document and the class collection; of the student document only
    the class reference differs, which ends up unset.  While the student is
    enrolled the class cannot be deleted. *)
Theorem add_then_remove_restores_class :
  ∃ s1 s2,
    addStudentToClass classId studentId s
    = (Ok (setStudents (students c ++ [studentId]) c), s1)
    ∧ users s1 !! studentId = Some (setMetaClass (Some classId) u)
    ∧ deleteClass classId s1 = (Throw ClassHasStudents, s1)
    ∧ removeStudentFromClass classId studentId s1 = (Ok c, s2)
    ∧ classes s2 = classes s
    ∧ users s2 = <[studentId := setMetaClass None u]> (users s)
    ∧ exams s2 = exams s ∧ grades s2 = grades s
    ∧ announcements s2 = announcements s.
Proof.
  exists (afterAdd classId studentId c s).
  eexists. split; [by apply (addStudent_ok s classId studentId c u)|].
  split; [apply afterAdd_user|]. split.
  { apply (deleteClass_refused _ _ _ afterAdd_class). simpl.
    by destruct (students c). }
  rewrite (removeStudent_ok _ classId studentId _ afterAdd_class) //.
  assert (setStudents
            (filter (λ id, id ≠ studentId)
               (students (setStudents (students c ++ [studentId]) c)))
            (setStudents (students c ++ [studentId]) c) = c) as Hback.
  { change (students (setStudents (students c ++ [studentId]) c))
      with (students c ++ [studentId]).
    by rewrite filter_ne_snoc // setStudents_twice setStudents_same. }
  unfold afterRemove. rewrite Hback.
  split; [reflexivity|]. simpl. split.
  { rewrite insert_insert_eq. by apply insert_id. }
  split; [|done]. unfold findByIdAndUpdate.
  apply map_eq. intros k. destruct (decide (studentId = k)) as [<-|Hne].
  - by rewrite !lookup_alter_eq Hstudent lookup_insert_eq.
  - by rewrite !lookup_alter_ne // lookup_insert_ne.
Qed.

End AddThenRemove.

(** Nothing ties a student to one class: a student can be enrolled in two
    classes at once; the class reference of the user document then names the
    class joined last, and leaving the first class unsets it although the
    student is still a member of the second. *)
Theorem one_reference_for_two_classes s id1 id2 c1 c2 x u :
  id1 ≠ id2 →
  classes s !! id1 = Some c1 → validB c1 = true →
  classes s !! id2 = Some c2 → validB c2 = true →
  users s !! x = Some u → role u = STUDENT →
  x ∉ students c1 → x ∉ students c2 →
  (count (students c1) < capacity c1)%Q →
  (count (students c2) < capacity c2)%Q →
  ∃ s1 s2 s3 r1 r2 r3 u2 u3 c2',
    addStudentToClass id1 x s = (Ok r1, s1)
    ∧ addStudentToClass id2 x s1 = (Ok r2, s2)
    ∧ x ∈ students r1 ∧ x ∈ students r2
    ∧ classes s2 !! id1 = Some r1 ∧ classes s2 !! id2 = Some r2
    ∧ users s2 !! x = Some u2 ∧ meta_class u2 = Some id2
    ∧ removeStudentFromClass id1 x s2 = (Ok r3, s3)
    ∧ users s3 !! x = Some u3 ∧ meta_class u3 = None
    ∧ classes s3 !! id2 = Some c2' ∧ x ∈ students c2'.
Proof.
  intros Hne H1 Hv1 H2 Hv2 Hu Hr Hx1 Hx2 Hroom1 Hroom2.
  pose (s1 := afterAdd id1 x c1 s).
  assert (classes s1 !! id2 = Some c2) as H2'.
  { simpl. by rewrite lookup_insert_ne. }
  assert (users s1 !! x = Some (setMetaClass (Some id1) u)) as Hu'.
  { by apply afterAdd_user. }
  pose (s2 := afterAdd id2 x c2 s1).
  assert (classes s2 !! id1 = Some (setStudents (students c1 ++ [x]) c1)) as H1''.
  { simpl. rewrite lookup_insert_ne; [done|]. apply lookup_insert_eq. }
  exists s1, s2. eexists. exists (setStudents (students c1 ++ [x]) c1),
    (setStudents (students c2 ++ [x]) c2). eexists. eexists. eexists. eexists.
  split; [by apply (addStudent_ok s id1 x c1 u)|].
  split; [by apply (addStudent_ok s1 id2 x c2 (setMetaClass (Some id1) u))|].
  split; [simpl; apply elem_of_app; right; by left|].
  split; [simpl; apply elem_of_app; right; by left|].
  split; [exact H1''|].
  split; [simpl; apply lookup_insert_eq|].
  split; [by apply (afterAdd_user s1 id2 x c2 (setMetaClass (Some id1) u))|].
  split; [reflexivity|].
  split; [by apply (removeStudent_ok s2 id1 x _ H1'')|].
  split.
  { simpl. unfold findByIdAndUpdate. rewrite !lookup_alter_eq Hu. reflexivity. }
  split; [reflexivity|]. split.
  { simpl. rewrite lookup_insert_ne; [done|]. apply lookup_insert_eq. }
  simpl. apply elem_of_app. right. by left.
Qed.

(** Deleting a user does not touch the classes.  A deleted member stays on
    the list of the class: the class can still not be deleted, the id cannot
    be enrolled again (it resolves to no user), but it can be removed from
    the list, after which a class without other students can be deleted. *)
Theorem deleted_member_stays_listed s classId x c u :
  classes s !! classId = Some c →
  validB c = true →
  x ∈ students c →
  users s !! x = Some u →
  ∃ s1 s2 r,
    UserService.deleteUser x s = (Ok tt, s1)
    ∧ classes s1 = classes s
    ∧ users s1 !! x = None
    ∧ addStudentToClass classId x s1 = (Throw StudentNotFound, s1)
    ∧ deleteClass classId s1 = (Throw ClassHasStudents, s1)
    ∧ removeStudentFromClass classId x s1 = (Ok r, s2)
    ∧ (x ∉ students r)
    ∧ classes s2 !! classId = Some r
    ∧ (students c = [x] → deleteClass classId s2 = (Ok tt, set_classes (delete classId) s2)).
Proof.
  intros Hc Hv Hx Hu.
  pose (s1 := mkStore (delete x (users s)) (classes s) (exams s) (grades s)
                      (announcements s)).
  exists s1. eexists. eexists.
  split.
  { unfold UserService.deleteUser. rewrite gets_bind /findById Hu. reflexivity. }
  split; [reflexivity|].
  split; [simpl; apply lookup_delete_eq|].
  split.
  { unfold addStudentToClass. rewrite gets_bind /findById. simpl. rewrite Hc.
    rewrite gets_bind. simpl. by rewrite lookup_delete_eq. }
  split.
  { apply (deleteClass_refused s1 classId c Hc). intros He.
    rewrite He in Hx. by apply elem_of_nil in Hx. }
  split; [by apply (removeStudent_ok s1 classId x c)|].
  split; [simpl; apply filter_ne_gone|].
  split; [simpl; apply lookup_insert_eq|].
  intros Hone. eapply deleteClass_done.
  - simpl. apply lookup_insert_eq.
  - simpl. rewrite Hone. rewrite filter_cons_False; [by auto|]. done.
Qed.

(** *** Creation *)

(** The document [createClass] builds. *)
Definition built (d : CreateData) : Class := {|
  name := JS.trim (c_name d);
  section := JS.trim (c_section d);
  year := c_year d;
  classTeacher := c_classTeacher d;
  students := [];
  subjects := [];
  capacity := JS.or_default (c_capacity d) 30;
  classStatus := default CLASS_ACTIVE (c_status d)
|}.

Definition keyInUse (s : Store) (n sec : string) (y : Z) : Prop :=
  ∃ k c, classes s !! k = Some c ∧ name c = n ∧ section c = sec ∧ year c = y.

Lemma sameKey_spec n sec y c :
  sameKey n sec y c = true ↔ name c = n ∧ section c = sec ∧ year c = y.
Proof.
  unfold sameKey. rewrite !andb_true_iff !String.eqb_eq Z.eqb_eq. tauto.
Qed.

Lemma existingClass_found s n sec y :
  keyInUse s n sec y ↔ is_Some (findOne (λ _ c, sameKey n sec y c) (classes s)).
Proof.
  split.
  - intros (k & c & Hc & H). apply (findOne_is_Some _ _ k c Hc).
    by apply sameKey_spec.
  - intros [[k c] H]. apply findOne_Some in H as [Hc Hp].
    apply sameKey_spec in Hp. by exists k, c.
Qed.

Lemma createClass_duplicate oid d s :
  keyInUse s (JS.trim (c_name d)) (JS.trim (c_section d)) (c_year d) →
  createClass oid d s = (Throw ClassExists, s).
Proof.
  intros H%existingClass_found. unfold createClass.
  rewrite gets_bind bool_decide_eq_true_2 //.
Qed.

(** What a successful [createClass] went through. *)
Lemma createClass_ok_inv oid d s r s' :
  createClass oid d s = (Ok r, s') →
    ¬ keyInUse s (JS.trim (c_name d)) (JS.trim (c_section d)) (c_year d)
    ∧ (∃ t, users s !! c_classTeacher d = Some t ∧ role t = TEACHER)
    ∧ validB (built d) = true
    ∧ classes s !! oid = None
    ∧ r = built d
    ∧ s' = set_classes <[oid := built d]> s.
Proof.
  unfold createClass. rewrite gets_bind.
  destruct (decide (keyInUse s (JS.trim (c_name d)) (JS.trim (c_section d)) (c_year d))) as [Hk|Hk].
  { rewrite bool_decide_eq_true_2; [by apply existingClass_found|].
    by rewrite throwIf_true. }
  rewrite bool_decide_eq_false_2; [by rewrite -existingClass_found|].
  rewrite throwIf_false gets_bind /findById.
  destruct (users s !! c_classTeacher d) as [t|] eqn:Ht; [|done].
  destruct (decide (role t = TEACHER)) as [Hr|Hr].
  2:{ by rewrite bool_decide_eq_true_2 // throwIf_true. }
  rewrite (role_guard_pass _ _ Hr) throwIf_false.
  fold (built d). unfold saveNew. rewrite bind_unfold.
  destruct (validate_cases (built d) s) as [[-> Hv]|[[e ->] Hv]]; [|done].
  rewrite gets_bind /findById.
  destruct (classes s !! oid) as [c0|] eqn:Ho.
  { by rewrite bool_decide_eq_true_2 // throwIf_true. }
  rewrite bool_decide_eq_false_2; [by intros [? [=]]|].
  rewrite throwIf_false modify_bind.
  intros [= <- <-]. split; [done|]. split; [by exists t|]. done.
Qed.

(** [createClass] succeeds exactly when the (name, section, year) triple,
    name and section trimmed, is free, the class teacher resolves to a user
    with the TEACHER role, the built document passes the schema and the new
    id is free.  The class it stores has the trimmed name and section, no
    students and no subjects, the given capacity, or 30 when none or 0 was
    given, a capacity between 1 and 100 in any case, and the status ACTIVE
    unless one was given; no other class is touched. *)
Theorem createClass_succeeds_iff oid d s r s' :
  createClass oid d s = (Ok r, s') ↔
    ¬ keyInUse s (JS.trim (c_name d)) (JS.trim (c_section d)) (c_year d)
    ∧ (∃ t, users s !! c_classTeacher d = Some t ∧ role t = TEACHER)
    ∧ validB (built d) = true
    ∧ classes s !! oid = None
    ∧ r = built d
    ∧ s' = set_classes <[oid := built d]> s.
Proof.
  split; [apply createClass_ok_inv|].
  intros (Hk & (t & Ht & Hr) & Hv & Ho & -> & ->).
  unfold createClass. rewrite gets_bind.
  rewrite bool_decide_eq_false_2; [by rewrite -existingClass_found|].
  rewrite throwIf_false gets_bind /findById Ht.
  rewrite (role_guard_pass _ _ Hr) throwIf_false.
  fold (built d). unfold saveNew. rewrite bind_unfold.
  destruct (validate_cases (built d) s) as [[-> _]|[_ Hv']]; [|congruence].
  rewrite gets_bind /findById Ho.
  rewrite bool_decide_eq_false_2; [by intros [? [=]]|].
  by rewrite throwIf_false modify_bind.
Qed.

Lemma or_default_cases (a : option Q) :
  (a = None ∨ (∃ q, a = Some q ∧ (q == 0)%Q)) ∧ JS.or_default a 30 = 30%Q
  ∨ ∃ q, a = Some q ∧ ¬ (q == 0)%Q ∧ JS.or_default a 30 = q.
Proof.
  destruct a as [q|]; [|left; split; [by left|done]].
  unfold JS.or_default. destruct (Qeq_bool q 0) eqn:E.
  - left. split; [|done]. right. exists q. split; [done|]. by apply Qeq_bool_iff.
  - right. exists q. split; [done|]. split; [|done]. by apply Qeq_bool_neq.
Qed.

(** A class that was created blocks its (name, section, year) triple: any
    further [createClass] with the same triple is refused with the
    already-exists error and writes nothing, whatever its other fields. *)
Theorem createClass_blocks_its_key oid d s r s' :
  createClass oid d s = (Ok r, s') →
  students r = []
  ∧ (1 <= capacity r <= 100)%Q
  ∧ capacity r = JS.or_default (c_capacity d) 30
  ∧ getClassById oid s' = (Ok r, s')
  ∧ ∀ oid' d',
      c_name d' = c_name d → c_section d' = c_section d → c_year d' = c_year d →
      createClass oid' d' s' = (Throw ClassExists, s').
Proof.
  intros (Hk & _ & Hv & Ho & -> & ->)%createClass_ok_inv.
  split; [done|]. split.
  { unfold validB in Hv. repeat (apply andb_prop in Hv as [Hv ?]).
    split; by apply Qle_bool_iff. }
  split; [done|]. split.
  { apply getClassById_found. simpl. apply lookup_insert_eq. }
  intros oid' d' Hn Hs Hy. apply createClass_duplicate.
  exists oid, (built d). rewrite Hn Hs Hy. split; [|done].
  simpl. apply lookup_insert_eq.
Qed.

(** *** Update *)

Definition keyInUseElsewhere (s : Store) (id : ObjectId) (n sec : string) (y : Z) : Prop :=
  ∃ k c, classes s !! k = Some c ∧ k ≠ id
         ∧ name c = n ∧ section c = sec ∧ year c = y.

Lemma otherClass_found s id n sec y :
  keyInUseElsewhere s id n sec y ↔
  is_Some (findOne (λ k c', sameKey n sec y c' && bool_decide (k ≠ id)) (classes s)).
Proof.
  split.
  - intros (k & c & Hc & Hne & H). apply (findOne_is_Some _ _ k c Hc).
    apply andb_true_iff. split; [by apply sameKey_spec|by apply bool_decide_eq_true].
  - intros [[k c] H]. apply findOne_Some in H as [Hc Hp].
    apply andb_true_iff in Hp as [Hp Hne]. apply sameKey_spec in Hp.
    apply bool_decide_eq_true in Hne. by exists k, c.
Qed.

(** A successful [updateClass] stores the class with the given fields
    replaced, a given name and section trimmed, and with its student and
    subject lists as they were; a class teacher that was given resolves to
    a user with the TEACHER role; a complete (name, section, year) that was
    given is, with name and section trimmed, held by no other class, and
    so is any triple that the update changes (the unique index); the
    stored document passes the schema, so a name or a section of white
    space only is never stored; no other document is written. *)
Theorem updateClass_success_means s id u r s' :
  updateClass id u s = (Ok r, s') →
  ∃ c,
    classes s !! id = Some c
    ∧ r = assignUpdate c u
    ∧ students r = students c ∧ subjects r = subjects c
    ∧ validB r = true
    ∧ s' = set_classes <[id := r]> s
    ∧ (∀ t, u_classTeacher u = Some t → t ≠ "" →
         ∃ tu, users s !! t = Some tu ∧ role tu = TEACHER)
    ∧ (∀ n sec y, u_name u = Some n → u_section u = Some sec → u_year u = Some y →
         n ≠ "" → sec ≠ "" → y ≠ 0 →
         ¬ keyInUseElsewhere s id (JS.trim n) (JS.trim sec) y)
    ∧ (∀ n, u_name u = Some n → name r = JS.trim n ∧ JS.trim n ≠ "")
    ∧ (∀ sec, u_section u = Some sec → section r = JS.trim sec ∧ JS.trim sec ≠ "")
    ∧ (name r ≠ name c ∨ section r ≠ section c ∨ year r ≠ year c →
       ¬ keyInUseElsewhere s id (name r) (section r) (year r)).
Proof.
  unfold updateClass. rewrite gets_bind /findById.
  destruct (classes s !! id) as [c|] eqn:Hc; [|done].
  match goal with |- context [(?m ≫= ?k) s] =>
    rewrite (bind_unfold m k s); destruct (m s) as [[a1|e1] s1] eqn:E1
  end; [destruct a1|done].
  match goal with |- context [(?m ≫= ?k) s1] =>
    rewrite (bind_unfold m k s1); destruct (m s1) as [[a2|e2] s2] eqn:E2
  end; [destruct a2|done].
  assert (s1 = s ∧
          (∀ n sec y, u_name u = Some n → u_section u = Some sec → u_year u = Some y →
             n ≠ "" → sec ≠ "" → y ≠ 0 →
             ¬ keyInUseElsewhere s id (JS.trim n) (JS.trim sec) y))
    as [-> Hkey].
  { destruct (JS.truthy_str (u_name u) && JS.truthy_str (u_section u)
              && JS.truthy_Z (u_year u)) eqn:Htr.
    - rewrite gets_bind in E1.
      destruct (findOne _ _) as [found|] eqn:Ef.
      + rewrite bool_decide_eq_true_2 // in E1.
      + rewrite bool_decide_eq_false_2 in E1; [by intros [? [=]]|].
        injection E1 as <-. split; [done|].
        intros n sec y Hn Hs Hy _ _ _ Hin.
        apply otherClass_found in Hin. rewrite Hn Hs Hy /= in Ef.
        rewrite Ef in Hin. by destruct Hin.
    - injection E1 as <-. split; [done|].
      intros n sec y Hn Hs Hy Hn0 Hs0 Hy0 _.
      rewrite Hn Hs Hy /= in Htr.
      apply String.eqb_neq in Hn0, Hs0. apply Z.eqb_neq in Hy0.
      rewrite Hn0 Hs0 Hy0 in Htr. done. }
  assert (s2 = s ∧
          (∀ t, u_classTeacher u = Some t → t ≠ "" →
             ∃ tu, users s !! t = Some tu ∧ role tu = TEACHER)) as [-> Hteach].
  { destruct (JS.truthy_str (u_classTeacher u)) eqn:Htr.
    - rewrite gets_bind in E2.
      destruct (users s !! _) as [tu|] eqn:Et; [|done].
      destruct (decide (role tu = TEACHER)) as [Hr|Hr].
      + rewrite (role_guard_pass _ _ Hr) in E2. injection E2 as <-.
        split; [done|]. intros t Ht _. rewrite Ht /= in Et. by exists tu.
      + rewrite bool_decide_eq_true_2 // in E2.
    - injection E2 as <-. split; [done|]. intros t Ht Ht0.
      rewrite Ht /= in Htr. apply String.eqb_neq in Ht0. by rewrite Ht0 in Htr. }
  destruct (saveModified_cases id c (assignUpdate c u) s)
    as [(-> & Hv & Hk)|[e ->]]; [|done].
  intros [= <- <-]. exists c.
  assert (name (assignUpdate c u) ≠ "" ∧ section (assignUpdate c u) ≠ "")
    as [Hn0 Hs0].
  { unfold validB in Hv. repeat (apply andb_prop in Hv as [Hv ?]).
    split; apply String.eqb_neq; by apply negb_true_iff. }
  do 8 (split; [done|]). split; [|split].
  - intros n Hn. simpl in *. rewrite Hn /= in Hn0. by rewrite Hn.
  - intros sec Hsec. simpl in *. rewrite Hsec /= in Hs0. by rewrite Hsec.
  - intros Hchanged Hin%otherClass_found. unfold keyTaken in Hk.
    rewrite (bool_decide_eq_true_2 _ Hin) andb_true_r in Hk.
    apply negb_false_iff, sameKey_spec in Hk as (? & ? & ?).
    destruct Hchanged as [?|[?|?]]; congruence.
Qed.

(** *** Instances *)

Definition secondClass : CreateData := mkCreate "Grade 10" "B" 2024 "t1" (Some 0%Q) None.

(** Two empty classes: "c1" of capacity 2 and "c2" created with capacity 0. *)
Definition twoClasses : Store := (createClass "c2" secondClass emptyClassOfTwo).2.

Lemma twoClasses_c1 : classes twoClasses !! "c1" = Some (theClass 2 []).
Proof. by vm_compute. Qed.

Lemma twoClasses_c2 :
  classes twoClasses !! "c2" = Some (mkClass "Grade 10" "B" 2024 "t1" [] [] 30 CLASS_ACTIVE).
Proof. by vm_compute. Qed.

Lemma twoClasses_s1 :
  users twoClasses !! "s1" = Some (person "ann@school.test" STUDENT).
Proof. by vm_compute. Qed.

Lemma add_then_remove_restores_class_witness :
  ∃ s1 s2,
    addStudentToClass "c1" "s1" emptyClassOfTwo = (Ok (theClass 2 ["s1"]), s1)
    ∧ users s1 !! "s1"
      = Some (setMetaClass (Some "c1") (person "ann@school.test" STUDENT))
    ∧ deleteClass "c1" s1 = (Throw ClassHasStudents, s1)
    ∧ removeStudentFromClass "c1" "s1" s1 = (Ok (theClass 2 []), s2)
    ∧ classes s2 = classes emptyClassOfTwo
    ∧ users s2
      = <["s1" := setMetaClass None (person "ann@school.test" STUDENT)]>
          (users emptyClassOfTwo)
    ∧ exams s2 = exams emptyClassOfTwo ∧ grades s2 = grades emptyClassOfTwo
    ∧ announcements s2 = announcements emptyClassOfTwo.
Proof.
  apply (add_then_remove_restores_class emptyClassOfTwo "c1" "s1" (theClass 2 [])
           (person "ann@school.test" STUDENT)).
  - by vm_compute.
  - reflexivity.
  - by vm_compute.
  - reflexivity.
  - apply not_elem_of_nil.
  - unfold Qlt. simpl. lia.
Defined.

Lemma one_reference_for_two_classes_witness :
  ∃ s1 s2 s3 r1 r2 r3 u2 u3 c2',
    addStudentToClass "c1" "s1" twoClasses = (Ok r1, s1)
    ∧ addStudentToClass "c2" "s1" s1 = (Ok r2, s2)
    ∧ "s1" ∈ students r1 ∧ "s1" ∈ students r2
    ∧ classes s2 !! "c1" = Some r1 ∧ classes s2 !! "c2" = Some r2
    ∧ users s2 !! "s1" = Some u2 ∧ meta_class u2 = Some "c2"
    ∧ removeStudentFromClass "c1" "s1" s2 = (Ok r3, s3)
    ∧ users s3 !! "s1" = Some u3 ∧ meta_class u3 = None
    ∧ classes s3 !! "c2" = Some c2' ∧ "s1" ∈ students c2'.
Proof.
  apply (one_reference_for_two_classes twoClasses "c1" "c2" _ _ "s1" _
           ltac:(done) twoClasses_c1 eq_refl twoClasses_c2 eq_refl
           twoClasses_s1 eq_refl).
  - apply not_elem_of_nil.
  - apply not_elem_of_nil.
  - unfold Qlt. simpl. lia.
  - unfold Qlt. simpl. lia.
Defined.

Lemma deleted_member_stays_listed_witness :
  ∃ s1 s2 r,
    UserService.deleteUser "s1" twoEnrolled = (Ok tt, s1)
    ∧ classes s1 = classes twoEnrolled
    ∧ users s1 !! "s1" = None
    ∧ addStudentToClass "c1" "s1" s1 = (Throw StudentNotFound, s1)
    ∧ deleteClass "c1" s1 = (Throw ClassHasStudents, s1)
    ∧ removeStudentFromClass "c1" "s1" s1 = (Ok r, s2)
    ∧ ("s1" ∉ students r)
    ∧ classes s2 !! "c1" = Some r
    ∧ (["s1"; "s2"] = ["s1"] →
       deleteClass "c1" s2 = (Ok tt, set_classes (delete "c1") s2)).
Proof.
  apply (deleted_member_stays_listed twoEnrolled "c1" "s1"
           (theClass 30 ["s1"; "s2"])
           (setMetaClass (Some "c1") (person "ann@school.test" STUDENT))).
  - rewrite twoEnrolled_classes. apply lookup_insert_eq.
  - reflexivity.
  - by left.
  - by vm_compute.
Defined.

(** A class whose name and section come with white space around them. *)
Definition paddedClass : CreateData :=
  mkCreate " Grade 11 " "A " 2024 "t1" (Some 0%Q) None.

Lemma createClass_succeeds_iff_witness :
  createClass "c2" paddedClass emptyClassOfTwo
  = (Ok (built paddedClass), set_classes <["c2" := built paddedClass]> emptyClassOfTwo)
  ∧ built paddedClass = mkClass "Grade 11" "A" 2024 "t1" [] [] 30 CLASS_ACTIVE.
Proof.
  split; [|reflexivity].
  apply (createClass_succeeds_iff "c2" paddedClass emptyClassOfTwo).
  split.
  { intros (k & c & Hc & Hn & Hs & Hy). rewrite emptyClassOfTwo_classes in Hc.
    apply lookup_insert_Some in Hc as [[_ <-]|[_ Hc]]; [done|].
    by rewrite lookup_empty in Hc. }
  split; [exists (person "teacher@school.test" TEACHER); by vm_compute|].
  split; [reflexivity|]. split; [by vm_compute|]. done.
Defined.

(** A name of white space only is refused by the schema, and the triple of
    an existing class is refused however it is padded. *)
Lemma createClass_trims :
  createClass "c2" (mkCreate "   " "A" 2024 "t1" None None) emptyClassOfTwo
  = (Throw (ValidationError "Class name is required"), emptyClassOfTwo)
  ∧ createClass "c2" (mkCreate " Grade 10" "A  " 2024 "t1" None None) emptyClassOfTwo
    = (Throw ClassExists, emptyClassOfTwo).
Proof. split; by vm_compute. Qed.

Lemma createClass_blocks_its_key_witness :
  createClass "c3" (mkCreate "Grade 10" "B" 2024 "t1" (Some 55%Q) (Some CLASS_INACTIVE))
    twoClasses
  = (Throw ClassExists, twoClasses).
Proof.
  assert (createClass "c2" secondClass emptyClassOfTwo
          = (Ok (built secondClass), twoClasses)) as Hcreated by (by vm_compute).
  destruct (createClass_blocks_its_key _ _ _ _ _ Hcreated) as (_ & _ & _ & _ & Hblock).
  by apply Hblock.
Defined.

Definition newTeacher : UpdateData :=
  mkUpdate (Some " Grade 12 ") None None (Some "t1") (Some 25%Q) None.

Definition renamed : Class :=
  mkClass "Grade 12" "A" 2024 "t1" ["s1"; "s2"] [] 25 CLASS_ACTIVE.

Lemma updateClass_success_means_witness :
  updateClass "c1" newTeacher twoEnrolled
  = (Ok renamed, set_classes <["c1" := renamed]> twoEnrolled)
  ∧ ∃ c,
      classes twoEnrolled !! "c1" = Some c
      ∧ renamed = assignUpdate c newTeacher
      ∧ students renamed = students c
      ∧ name renamed = JS.trim " Grade 12 "
      ∧ ∃ tu, users twoEnrolled !! "t1" = Some tu ∧ role tu = TEACHER.
Proof.
  assert (updateClass "c1" newTeacher twoEnrolled
          = (Ok renamed, set_classes <["c1" := renamed]> twoEnrolled)) as Hrun
    by by vm_compute.
  split; [exact Hrun|].
  destruct (updateClass_success_means twoEnrolled "c1" newTeacher renamed
              (set_classes <["c1" := renamed]> twoEnrolled) Hrun)
    as (c & Hc & Hr & Hst & _ & _ & _ & Ht & _ & Hname & _).
  exists c. split; [done|]. split; [done|]. split; [done|].
  split; [by apply Hname|]. by apply (Ht "t1").
Defined.

(** An update to a name of white space only is refused by the schema, and
    an update of the section alone that runs into the triple of another
    class is refused by the index. *)
Lemma updateClass_trims :
  updateClass "c1" (mkUpdate (Some "   ") None None None None None) twoEnrolled
  = (Throw (ValidationError "Class name is required"), twoEnrolled)
  ∧ updateClass "c2" (mkUpdate None (Some " A ") None None None None) twoClasses
    = (Throw (MongoServerError "E11000 duplicate key error"), twoClasses).
Proof. split; by vm_compute. Qed.

End ClassMore.

(** ** Authentication: the remaining flows of auth.service.ts *)

Module AuthMore.
Import AuthService.

Definition InvalidRefreshToken : Error := CustomError "Invalid refresh token" 401.
Definition UserNotFound : Error := CustomError "User not found" 404.
Definition IncorrectCurrentPassword : Error :=
  CustomError "Current password is incorrect" 400.

(** [try { m } catch (error) { throw e }] *)
Definition catchAll {A} (m : M A) (e : Error) : M A := λ s,
  match m s with
  | (Ok a, s') => (Ok a, s')
  | (Throw _, s') => (Throw e, s')
  end.

(** The update [{ resetPasswordToken, resetPasswordExpires }] *)
Definition setResetToken (token : string) (expires : Z) (u : User) : User := {|
  email := email u; passwordHash := passwordHash u; role := role u;
  status := status u; meta_class := meta_class u;
  resetPasswordToken := Some token;
  resetPasswordExpires := Some expires;
  lastLogin := lastLogin u
|}.

Section WithCollaborators.
(** utils/password.ts, utils/jwt.ts and the mail transport are taken as
    given: [verifyRefreshToken] gives no payload where the original throws,
    [sendPasswordResetEmail] gives the error it throws, if any; the random
    reset token is the argument [resetToken]. *)
Context {Tokens : Type}.
Variable hashPassword : string → string.
Variable comparePassword : string → string → bool.
Variable generateTokenPair : TokenPayload → Tokens.
Variable verifyRefreshToken : string → option TokenPayload.
Variable sendPasswordResetEmail : string → string → option Error.

(** UserService.getUserById *)
Definition getUserById (id : ObjectId) : M User :=
  user ← gets (λ s, findById (users s) id);
  match user with
  | None => throw (CustomError "User not found" 404)
  | Some u => mret u
  end.

Definition refreshToken (token : string) : M Tokens :=
  catchAll
    (match verifyRefreshToken token with
     | None => throw (TypeError "jwt verification failed")
     | Some payload =>
         user ← gets (λ s, findById (users s) (userId payload));
         match user with
         | None => throw (CustomError "Invalid refresh token" 401)
         | Some u =>
             throwIf (bool_decide (status u ≠ ACTIVE))
               (CustomError "Invalid refresh token" 401);;
             mret (generateTokenPair
                     {| userId := userId payload;
                        payloadEmail := email u;
                        payloadRole := role u |})
         end
     end)
    (CustomError "Invalid refresh token" 401).

Definition forgotPassword (now : Z) (resetToken : string) (mail : string) : M unit :=
  user ← getUserByEmail mail;
  match user with
  | None => mret tt
  | Some (id, _) =>
      let resetTokenExpiry := now + 60 * 60 * 1000 in
      modify (set_users
                (findByIdAndUpdate id (setResetToken resetToken resetTokenExpiry)));;
      match sendPasswordResetEmail mail resetToken with
      | Some e => throw e
      | None => mret tt
      end
  end.

Definition changePassword (userId currentPassword newPassword : string) : M unit :=
  byId ← getUserById userId;
  user ← getUserByEmail (email byId);
  match user with
  | None => throw (CustomError "User not found" 404)
  | Some (_, u) =>
      let isCurrentPasswordValid := comparePassword currentPassword (passwordHash u) in
      throwIf (negb isCurrentPasswordValid)
        (CustomError "Current password is incorrect" 400);;
      updateUserPassword hashPassword userId newPassword
  end.

Definition logout : M unit := mret tt.

(** The look-up of [mail] (lower-cased and trimmed by the query) finds the
    user stored under [id] and no other. *)
Definition emailOf (s : Store) (mail : string) (id : ObjectId) (u : User) : Prop :=
  users s !! id = Some u ∧ email u = emailSetters mail
  ∧ ∀ id' u', users s !! id' = Some u' → email u' = emailSetters mail → id' = id.

Lemma getUserByEmail_found s mail id u :
  emailOf s mail id u → getUserByEmail mail s = (Ok (Some (id, u)), s).
Proof.
  intros (Hu & Hm & Huniq). unfold getUserByEmail, gets. do 2 f_equal.
  destruct (findOne _ _) as [[k v]|] eqn:E.
  - apply findOne_Some in E as [Hk Hp]. apply String.eqb_eq in Hp.
    assert (k = id) as -> by eauto. rewrite Hu in Hk. by injection Hk as ->.
  - rewrite findOne_None in E. specialize (E id u Hu).
    apply String.eqb_neq in E. done.
Qed.

Lemma getUserByEmail_unknown s mail :
  (∀ id u, users s !! id = Some u → email u ≠ emailSetters mail) →
  getUserByEmail mail s = (Ok None, s).
Proof.
  intros H. unfold getUserByEmail, gets. do 2 f_equal.
  apply findOne_None. intros k v Hk. apply String.eqb_neq. eauto.
Qed.

(** Rewriting the document of [id] without touching its email keeps the
    email resolving to [id]. *)
Lemma emailOf_rewrite s mail id u (f : User → User) :
  (∀ v, email (f v) = email v) →
  emailOf s mail id u →
  emailOf (set_users (findByIdAndUpdate id f) s) mail id (f u).
Proof.
  intros Hf (Hu & Hm & Huniq). unfold findByIdAndUpdate. split; [|split].
  - simpl. by rewrite lookup_alter_eq Hu.
  - by rewrite Hf.
  - intros id' u'. simpl. destruct (decide (id = id')) as [<-|Hne]; [done|].
    rewrite lookup_alter_ne //. apply Huniq.
Qed.

(** *** login *)

(** The checks of [login] passed one by one. *)
Lemma login_accepts s now mail password id u :
  getUserByEmail mail s = (Ok (Some (id, u)), s) →
  status u = ACTIVE →
  comparePassword password (passwordHash u) = true →
  login comparePassword generateTokenPair now mail password s
  = (Ok (u, generateTokenPair
              {| userId := id; payloadEmail := email u; payloadRole := role u |}),
     set_users (findByIdAndUpdate id (setLastLogin now)) s).
Proof.
  intros E Ha Hp. unfold login. rewrite bind_unfold E.
  rewrite bool_decide_eq_false_2; [by auto|]. rewrite throwIf_false Hp.
  rewrite throwIf_false. unfold updateLastLogin. by rewrite modify_bind.
Qed.

(** [login] succeeds exactly when the email resolves to a stored user whose
    status is ACTIVE and whose hash matches the password; it then returns
    that user with a token pair made from the user's id, email and role, and
    writes the time of the call to [lastLogin] of that user and nothing
    else. *)
Theorem login_succeeds_iff s now mail password r s' :
  login comparePassword generateTokenPair now mail password s = (Ok r, s') ↔
  ∃ id u,
    getUserByEmail mail s = (Ok (Some (id, u)), s)
    ∧ status u = ACTIVE
    ∧ comparePassword password (passwordHash u) = true
    ∧ r = (u, generateTokenPair
                {| userId := id; payloadEmail := email u; payloadRole := role u |})
    ∧ s' = set_users (findByIdAndUpdate id (setLastLogin now)) s.
Proof.
  split.
  - unfold login. rewrite bind_unfold.
    destruct (getUserByEmail mail s) as [res s0] eqn:E.
    assert (s0 = s) as -> by (by injection E).
    destruct res as [[[id u]|]|e]; [|done|done].
    destruct (decide (status u = ACTIVE)) as [Ha|Ha].
    2:{ by rewrite bool_decide_eq_true_2 // throwIf_true. }
    rewrite bool_decide_eq_false_2; [by auto|]. rewrite throwIf_false.
    destruct (comparePassword password (passwordHash u)) eqn:Hp.
    + rewrite throwIf_false. unfold updateLastLogin. rewrite modify_bind.
      intros [= <- <-]. by exists id, u.
    + by rewrite throwIf_true.
  - intros (id & u & E & Ha & Hp & -> & ->). by apply login_accepts.
Qed.

(** *** refreshToken *)

(** [refreshToken] never writes.  It succeeds exactly when the token
    verifies and the user it names is stored with status ACTIVE; the new
    pair carries the email and the role of the stored user, whatever the old
    token said.  Every failure is the same 401 error. *)
Theorem refreshToken_outcome s token :
  match verifyRefreshToken token with
  | Some p =>
      match users s !! userId p with
      | Some u =>
          if bool_decide (status u = ACTIVE) then
            refreshToken token s
            = (Ok (generateTokenPair
                     {| userId := userId p; payloadEmail := email u;
                        payloadRole := role u |}), s)
          else refreshToken token s = (Throw InvalidRefreshToken, s)
      | None => refreshToken token s = (Throw InvalidRefreshToken, s)
      end
  | None => refreshToken token s = (Throw InvalidRefreshToken, s)
  end.
Proof.
  unfold refreshToken, catchAll.
  destruct (verifyRefreshToken token) as [p|]; [|done].
  rewrite gets_bind /findById.
  destruct (users s !! userId p) as [u|]; [|done].
  case_bool_decide as Ha.
  - rewrite bool_decide_eq_false_2; [by auto|]. done.
  - rewrite bool_decide_eq_true_2 //.
Qed.

(** *** forgotPassword and resetPassword *)

(** [forgotPassword] looks the email up lower-cased and trimmed.  When no
    stored user has that email it answers with success and writes nothing.
    When the look-up finds a user it stores the token with an expiry of
    exactly one hour after the call before the mail is sent, to the address
    as it was given: the token is stored whether or not sending fails, and a
    failure of the mail is the only way the call can fail. *)
Theorem forgotPassword_outcome s now token mail :
  ((∀ id u, users s !! id = Some u → email u ≠ emailSetters mail) →
     forgotPassword now token mail s = (Ok tt, s))
  ∧ (∀ id u, emailOf s mail id u →
       ∃ s1,
         s1 = set_users <[id := setResetToken token (now + 3600000) u]> s
         ∧ forgotPassword now token mail s
           = (match sendPasswordResetEmail mail token with
              | Some e => Throw e
              | None => Ok tt
              end, s1)).
Proof.
  split.
  - intros H. unfold forgotPassword.
    rewrite bind_unfold getUserByEmail_unknown //.
  - intros id u Hm. eexists. split; [reflexivity|].
    unfold forgotPassword. rewrite bind_unfold (getUserByEmail_found _ _ _ _ Hm).
    rewrite modify_bind.
    assert (set_users (findByIdAndUpdate id (setResetToken token (now + 60 * 60 * 1000))) s
            = set_users <[id := setResetToken token (now + 3600000) u]> s) as ->.
    { destruct Hm as (Hu & _). unfold set_users, findByIdAndUpdate. f_equal.
      apply map_eq. intros k. destruct (decide (id = k)) as [<-|Hne].
      - by rewrite lookup_alter_eq lookup_insert_eq Hu.
      - by rewrite lookup_alter_ne // lookup_insert_ne. }
    by destruct (sendPasswordResetEmail mail token).
Qed.

Definition requested (now : Z) (token : string) (id : ObjectId) (s : Store) : Store :=
  set_users (findByIdAndUpdate id (setResetToken token (now + 3600000))) s.

Lemma forgotPassword_sent s now token mail id u :
  emailOf s mail id u →
  sendPasswordResetEmail mail token = None →
  forgotPassword now token mail s = (Ok tt, requested now token id s).
Proof.
  intros Hm Hsent. unfold forgotPassword.
  rewrite bind_unfold (getUserByEmail_found _ _ _ _ Hm) modify_bind Hsent. done.
Qed.

Lemma requested_user s now token id u :
  users s !! id = Some u →
  users (requested now token id s) !! id
  = Some (setResetToken token (now + 3600000) u).
Proof. intros Hu. simpl. unfold findByIdAndUpdate. by rewrite lookup_alter_eq Hu. Qed.

Lemma requested_other s now token id id' :
  id' ≠ id → users (requested now token id s) !! id' = users s !! id'.
Proof. intros Hne. simpl. unfold findByIdAndUpdate. by rewrite lookup_alter_ne. Qed.

(** The only user that carries [token]. *)
Definition noOtherCarrier (s : Store) (token : string) (id : ObjectId) : Prop :=
  ∀ id' u', users s !! id' = Some u' → id' ≠ id → resetPasswordToken u' ≠ Some token.

(** A reset that was requested at time [t0] can be completed with the mailed
    token at any time strictly before [t0] + one hour, and sets the hash of
    the new password; from [t0] + one hour on the token is refused and
    nothing is written. *)
Theorem forgot_then_reset s t0 token mail id u :
  emailOf s mail id u →
  sendPasswordResetEmail mail token = None →
  noOtherCarrier s token id →
  ∃ s1,
    forgotPassword t0 token mail s = (Ok tt, s1)
    ∧ (∀ odm t1 newPassword, t1 < t0 + 3600000 →
         ∃ s2,
           resetPassword hashPassword odm t1 token newPassword s1 = (Ok tt, s2)
           ∧ passwordHash <$> users s2 !! id = Some (hashPassword newPassword)
           ∧ ∀ id', id' ≠ id → users s2 !! id' = users s !! id')
    ∧ (∀ odm t1 newPassword, t0 + 3600000 <= t1 →
         resetPassword hashPassword odm t1 token newPassword s1
         = (Throw InvalidOrExpiredToken, s1)).
Proof.
  intros Hm Hsent Hother. pose proof Hm as (Hu & _ & _).
  exists (requested t0 token id s).
  split; [by apply (forgotPassword_sent s t0 token mail id u)|]. split.
  - intros odm t1 newPassword Hlt.
    destruct (resetPassword_accepts hashPassword odm (requested t0 token id s)
                t1 token newPassword id (setResetToken token (t0 + 3600000) u))
      as (id1 & u1 & Hu1 & Hlive1 & Hrun).
    { by apply requested_user. }
    { split; [done|]. by exists (t0 + 3600000). }
    assert (id1 = id) as ->.
    { destruct (decide (id1 = id)) as [|Hne]; [done|].
      rewrite requested_other // in Hu1. destruct Hlive1 as [Htok _].
      by destruct (Hother id1 u1 Hu1 Hne). }
    rewrite (requested_user _ _ _ _ _ Hu) in Hu1. injection Hu1 as <-.
    eexists. split; [exact Hrun|]. split.
    + simpl. rewrite lookup_insert_eq. by destruct odm.
    + intros id' Hne. simpl. rewrite lookup_insert_ne //.
      unfold findByIdAndUpdate. by rewrite lookup_alter_ne.
  - intros odm t1 newPassword Hle. apply resetPassword_rejects.
    intros id' u' Hu' [Htok (t & Hexp & Hlt)].
    destruct (decide (id' = id)) as [->|Hne].
    + rewrite (requested_user _ _ _ _ _ Hu) in Hu'. injection Hu' as <-.
      simpl in Hexp. injection Hexp as <-. lia.
    + rewrite requested_other // in Hu'. by destruct (Hother id' u' Hu' Hne).
Qed.

(** Asking again replaces the token: after a second request the token of
    the first is refused at any time. *)
Theorem second_request_replaces_token s t0 t0' token token' mail id u :
  emailOf s mail id u →
  sendPasswordResetEmail mail token = None →
  sendPasswordResetEmail mail token' = None →
  token ≠ token' →
  noOtherCarrier s token id →
  ∃ s1 s2,
    forgotPassword t0 token mail s = (Ok tt, s1)
    ∧ forgotPassword t0' token' mail s1 = (Ok tt, s2)
    ∧ ∀ odm t1 newPassword,
        resetPassword hashPassword odm t1 token newPassword s2
        = (Throw InvalidOrExpiredToken, s2).
Proof.
  intros Hm Hsent Hsent' Hne Hother. pose proof Hm as (Hu & _ & _).
  exists (requested t0 token id s), (requested t0' token' id (requested t0 token id s)).
  split; [by apply (forgotPassword_sent s t0 token mail id u)|]. split.
  - apply (forgotPassword_sent _ _ _ _ _ (setResetToken token (t0 + 3600000) u)); [|done].
    by apply (emailOf_rewrite s mail id u).
  - intros odm t1 newPassword. apply resetPassword_rejects.
    intros id' u' Hu' [Htok _].
    destruct (decide (id' = id)) as [->|Hn].
    + rewrite (requested_user _ _ _ _ (setResetToken token (t0 + 3600000) u)) in Hu'.
      { by apply requested_user. }
      injection Hu' as <-. simpl in Htok. congruence.
    + rewrite !requested_other // in Hu'. by destruct (Hother id' u' Hu' Hn).
Qed.

(** *** changePassword *)

(** [changePassword] answers an unknown user id with 404 and a wrong
    current password with the incorrect-password error, writing nothing in
    both cases.  With the right current password it replaces the hash of
    that user and nothing else: a pending reset token stays as it is. *)
Theorem changePassword_outcome s id currentPassword newPassword :
  (users s !! id = None →
     changePassword id currentPassword newPassword s = (Throw UserNotFound, s))
  ∧ (∀ u, emailOf s (email u) id u →
       (comparePassword currentPassword (passwordHash u) = false →
          changePassword id currentPassword newPassword s
          = (Throw IncorrectCurrentPassword, s))
       ∧ (comparePassword currentPassword (passwordHash u) = true →
          changePassword id currentPassword newPassword s
          = (Ok tt, set_users <[id := setPasswordHash (hashPassword newPassword) u]> s)
          ∧ resetPasswordToken (setPasswordHash (hashPassword newPassword) u)
            = resetPasswordToken u
          ∧ resetPasswordExpires (setPasswordHash (hashPassword newPassword) u)
            = resetPasswordExpires u)).
Proof.
  split.
  - intros Hu. unfold changePassword, getUserById.
    rewrite bind_unfold gets_bind /findById Hu. done.
  - intros u Hm. pose proof Hm as (Hu & _ & _).
    unfold changePassword, getUserById.
    rewrite bind_unfold gets_bind /findById Hu.
    change ((mret u : M User) s) with (Ok u, s). cbv iota beta.
    rewrite bind_unfold (getUserByEmail_found _ _ _ _ Hm).
    split; intros Hp; rewrite Hp /=.
    + done.
    + split; [|done].
      rewrite bind_unfold. change ((mret tt : M unit) s) with (Ok tt, s).
      cbv iota beta. unfold updateUserPassword, modify. f_equal.
      unfold set_users, findByIdAndUpdate. f_equal. apply map_eq. intros k.
      destruct (decide (id = k)) as [<-|Hne].
      * by rewrite lookup_alter_eq lookup_insert_eq Hu.
      * by rewrite lookup_alter_ne // lookup_insert_ne.
Qed.

(** After a successful [changePassword] the user logs in with the new
    password and no longer with the old one, provided the password check
    accepts a password against its own hash and rejects the old password
    against the new hash. *)
Theorem changePassword_then_login s id u now currentPassword newPassword :
  emailOf s (email u) id u →
  status u = ACTIVE →
  comparePassword currentPassword (passwordHash u) = true →
  comparePassword newPassword (hashPassword newPassword) = true →
  comparePassword currentPassword (hashPassword newPassword) = false →
  ∃ s1 r s2,
    changePassword id currentPassword newPassword s = (Ok tt, s1)
    ∧ login comparePassword generateTokenPair now (email u) newPassword s1 = (Ok r, s2)
    ∧ login comparePassword generateTokenPair now (email u) currentPassword s1
      = (Throw InvalidCredentials, s1).
Proof.
  intros Hm Hact Hcur Hnew Hold.
  pose proof (emailOf_rewrite s (email u) id u
                (setPasswordHash (hashPassword newPassword)) (λ _, eq_refl) Hm) as Hm1.
  pose proof (getUserByEmail_found _ _ _ _ Hm1) as Hfind.
  exists (set_users (findByIdAndUpdate id (setPasswordHash (hashPassword newPassword))) s).
  eexists. eexists. split; [|split].
  - pose proof Hm as (Hu & _ & _).
    unfold changePassword, getUserById.
    rewrite bind_unfold gets_bind /findById Hu.
    change ((mret u : M User) s) with (Ok u, s). cbv iota beta.
    rewrite bind_unfold (getUserByEmail_found _ _ _ _ Hm) Hcur. reflexivity.
  - by apply (login_accepts _ _ _ _ id _ Hfind Hact Hnew).
  - unfold login. rewrite bind_unfold Hfind.
    rewrite bool_decide_eq_false_2; [simpl; rewrite Hact; by auto|].
    rewrite throwIf_false. simpl. rewrite Hold. done.
Qed.

End WithCollaborators.

(** *** Instances *)

Definition mailSent (mail token : string) : option Error := None.
(** A transport that fails: [sendEmail] then throws
    [new Error('Failed to send email')]. *)
Definition mailDown (mail token : string) : option Error :=
  Some (TypeError "Failed to send email").

Definition ann : User := account "ann@school.test" "hash:secret" ACTIVE.

Lemma credentials_ann : emailOf credentials "ann@school.test" "u1" ann.
Proof.
  split; [by vm_compute|]. split; [reflexivity|].
  intros id' u' Hu' Hmail. simpl in Hu'.
  apply lookup_insert_Some in Hu' as [[<- _]|[_ Hu']]; [done|].
  apply lookup_insert_Some in Hu' as [[_ <-]|[_ Hu']]; [done|].
  by rewrite lookup_empty in Hu'.
Qed.

Lemma credentials_no_token token : noOtherCarrier credentials token "u1".
Proof.
  intros id' u' Hu' Hne. simpl in Hu'.
  apply lookup_insert_Some in Hu' as [[<- _]|[_ Hu']]; [done|].
  apply lookup_insert_Some in Hu' as [[_ <-]|[_ Hu']]; [done|].
  by rewrite lookup_empty in Hu'.
Qed.

Lemma forgot_then_reset_witness :
  ∃ s1,
    forgotPassword mailSent 0 "r3s3t" "ann@school.test" credentials = (Ok tt, s1)
    ∧ (∃ s2, resetPassword demoHash KeyRemoved 3599999 "r3s3t" "fresh" s1 = (Ok tt, s2)
             ∧ passwordHash <$> users s2 !! "u1" = Some "hash:fresh")
    ∧ resetPassword demoHash KeyRemoved 3600000 "r3s3t" "fresh" s1
      = (Throw InvalidOrExpiredToken, s1).
Proof.
  destruct (forgot_then_reset demoHash mailSent credentials 0 "r3s3t"
              "ann@school.test" "u1" ann credentials_ann eq_refl
              (credentials_no_token "r3s3t")) as (s1 & Hrun & Hin & Hout).
  exists s1. split; [exact Hrun|]. split.
  - destruct (Hin KeyRemoved 3599999 "fresh") as (s2 & H2 & Hh & _); [lia|].
    by exists s2.
  - apply Hout. lia.
Defined.

Lemma second_request_replaces_token_witness :
  ∃ s1 s2,
    forgotPassword mailSent 0 "first" "ann@school.test" credentials = (Ok tt, s1)
    ∧ forgotPassword mailSent 10 "second" "ann@school.test" s1 = (Ok tt, s2)
    ∧ resetPassword demoHash StoredAsNull 20 "first" "fresh" s2
      = (Throw InvalidOrExpiredToken, s2).
Proof.
  destruct (second_request_replaces_token demoHash mailSent credentials 0 10
              "first" "second" "ann@school.test" "u1" ann credentials_ann
              eq_refl eq_refl ltac:(done) (credentials_no_token "first"))
    as (s1 & s2 & H1 & H2 & H3).
  exists s1, s2. split; [exact H1|]. split; [exact H2|]. apply H3.
Defined.

Lemma changePassword_then_login_witness :
  ∃ s1 r s2,
    changePassword demoHash demoCompare "u1" "secret" "fresh" credentials = (Ok tt, s1)
    ∧ login demoCompare demoTokens 1000 "ann@school.test" "fresh" s1 = (Ok r, s2)
    ∧ login demoCompare demoTokens 1000 "ann@school.test" "secret" s1
      = (Throw InvalidCredentials, s1).
Proof.
  apply (changePassword_then_login demoHash demoCompare demoTokens credentials
           "u1" ann 1000 "secret" "fresh" credentials_ann);
    reflexivity.
Defined.

Lemma login_succeeds_iff_witness :
  ∃ r s',
    login demoCompare demoTokens 1000 " ANN@School.Test " "secret" credentials
    = (Ok r, s')
    ∧ lastLogin <$> users s' !! "u1" = Some (Some 1000).
Proof.
  eexists _, _. split.
  - apply (login_succeeds_iff demoCompare demoTokens credentials 1000
             " ANN@School.Test " "secret").
    exists "u1", ann. split; [by vm_compute|]. by repeat split.
  - by vm_compute.
Defined.

Lemma forgotPassword_outcome_witness :
  forgotPassword mailDown 0 "r3s3t" "nobody@school.test" credentials
  = (Ok tt, credentials)
  ∧ ∃ s1,
      s1 = set_users <["u1" := setResetToken "r3s3t" 3600000 ann]> credentials
      ∧ forgotPassword mailDown 0 "r3s3t" "ANN@School.Test" credentials
        = (Throw (TypeError "Failed to send email"), s1).
Proof.
  destruct (forgotPassword_outcome mailDown credentials 0 "r3s3t" "nobody@school.test")
    as [Hunknown _].
  destruct (forgotPassword_outcome mailDown credentials 0 "r3s3t" "ANN@School.Test")
    as [_ Hknown].
  split.
  - apply Hunknown. intros id u Hu. simpl in Hu.
    apply lookup_insert_Some in Hu as [[_ <-]|[_ Hu]]; [done|].
    apply lookup_insert_Some in Hu as [[_ <-]|[_ Hu]]; [done|].
    by rewrite lookup_empty in Hu.
  - apply (Hknown "u1" ann credentials_ann).
Defined.

End AuthMore.

(** ** Authentication of a request: middleware/auth.ts *)

Module Authenticate.
Import Rbac.

(** What the middleware hands to the router. *)
Inductive Passed :=
| Next (req : Request)       (* [next()], with [req.user] set *)
| NextError (e : Error).     (* [next(error)] *)

Definition AccessTokenRequired : Error := CustomError "Access token required" 401.
Definition InvalidOrExpiredToken : Error := CustomError "Invalid or expired token" 401.

(** [s.startsWith(p)] and [s.substring(n)] *)
Definition startsWith (p s : string) : bool := String.prefix p s.
Definition substring (n : nat) (s : string) : string :=
  String.substring n (String.length s - n) s.

Section WithJwt.
(** [verifyAccessToken] of utils/jwt: the payload of a token that verifies. *)
Variable verifyAccessToken : string → option Identity.

Definition authenticate (authorization : option string) : Passed :=
  if negb (JS.truthy_str authorization)
     || negb (startsWith "Bearer " (default "" authorization))
  then NextError AccessTokenRequired
  else
    let token := substring 7 (default "" authorization) in
    match verifyAccessToken token with
    | Some payload => Next (mkRequest (Some payload))
    | None => NextError InvalidOrExpiredToken
    end.

Lemma substring_all s : String.substring 0 (String.length s) s = s.
Proof. induction s as [|c s IH]; [done|]. simpl. by rewrite IH. Qed.

Lemma prefix_app p s : String.prefix p s = true → ∃ r, s = p +:+ r.
Proof.
  revert s. induction p as [|c p IH]; intros s H.
  - by exists s.
  - destruct s as [|c' s]; [done|]. simpl in H.
    destruct (Ascii.ascii_dec c c') as [<-|]; [|done].
    destruct (IH s H) as [r ->]. by exists r.
Qed.

(** The header is accepted exactly in the form ['Bearer ' + token] with a
    token that verifies; the identity of the request is then the payload of
    the token.  A header of that form with any other token is answered with
    'Invalid or expired token', every other header (none, an empty one, one
    in another case or without the space) with 'Access token required';
    both answers have status 401. *)
Theorem authenticate_bearer :
  (∀ token,
     authenticate (Some ("Bearer " +:+ token))
     = match verifyAccessToken token with
       | Some payload => Next (mkRequest (Some payload))
       | None => NextError InvalidOrExpiredToken
       end)
  ∧ (∀ authorization,
       (∀ token, authorization ≠ Some ("Bearer " +:+ token)) →
       authenticate authorization = NextError AccessTokenRequired).
Proof.
  split.
  - intros token. unfold authenticate, substring, startsWith. simpl.
    change ("" +:+ token) with token.
    rewrite Nat.sub_0_r substring_all. by destruct token.
  - intros [h|] Hh; [|done]. unfold authenticate. simpl.
    destruct (String.eqb h "") eqn:He; [done|]. simpl.
    unfold startsWith. destruct (String.prefix "Bearer " h) eqn:Hp; [|done].
    apply prefix_app in Hp as [r ->]. by destruct (Hh r).
Qed.

End WithJwt.

End Authenticate.

(** ** Grades: updates, deletion and the statistics of an exam *)

Module GradeMore.
Import GradeModel ExamsService GradeFacts.

Definition deleteGrade (id : ObjectId) : M unit :=
  gradeDoc ← gets (λ s, findById (grades s) id);
  match gradeDoc with
  | None => throw (CustomError "Grade not found" 404)
  | Some _ => modify (set_grades (findByIdAndDelete id))
  end.

(** [Grade.find({ exam: examId })] *)
Definition find (examId : ObjectId) (c : gmap ObjectId Grade) : list Grade :=
  (map_to_list (filter (λ kv, exam kv.2 = examId) c)).*2.

(** [Math.max(...marks)] and [Math.min(...marks)] on numbers. *)
Definition max2 (a : JS.number) (b : Q) : JS.number :=
  match a with
  | JS.NaN => JS.NaN
  | JS.PosInf => JS.PosInf
  | JS.NegInf => JS.Fin b
  | JS.Fin x => JS.Fin (if Qle_bool x b then b else x)
  end.

Definition min2 (a : JS.number) (b : Q) : JS.number :=
  match a with
  | JS.NaN => JS.NaN
  | JS.NegInf => JS.NegInf
  | JS.PosInf => JS.Fin b
  | JS.Fin x => JS.Fin (if Qle_bool b x then b else x)
  end.

Definition Math_max (l : list Q) : JS.number := foldl max2 JS.NegInf l.
Definition Math_min (l : list Q) : JS.number := foldl min2 JS.PosInf l.

(** [Math.round]: the nearest integer, a half going up. *)
Definition Math_round (x : Q) : Q := inject_Z (Qfloor (x + (1 # 2))).

(** The property name [grade.grade] turns into. *)
Definition letterKey (g : Grade) : string := default "undefined" (grade g).

(** [gradeDistribution[k] = (gradeDistribution[k] || 0) + 1] *)
Definition tally (d : gmap string nat) (g : Grade) : gmap string nat :=
  <[letterKey g := (default 0 (d !! letterKey g) + 1)%nat]> d.

Record Statistics := mkStatistics {
  totalStudents : nat;
  gradedStudents : nat;
  averageMarks : Q;
  highestMarks : JS.number;
  lowestMarks : JS.number;
  gradeDistribution : gmap string nat
}.

(** Marks are taken as exact numbers; the sum of the code is a
    floating-point sum. *)
Definition getGradeStatistics (examId : ObjectId) : M Statistics :=
  gs ← gets (λ s, find examId (grades s));
  examDoc ← gets (λ s, findById (exams s) examId);
  match examDoc with
  | None => throw (CustomError "Exam not found" 404)
  | Some _ =>
      if (length gs =? 0)%nat then
        mret (mkStatistics 0 0 0 (JS.Fin 0) (JS.Fin 0) ∅)
      else
        let ms := marks <$> gs in
        let average := (foldl Qplus 0 ms / inject_Z (Z.of_nat (length ms)))%Q in
        mret {|
          totalStudents := length gs;
          gradedStudents := length gs;
          averageMarks := (Math_round (average * 100) / 100)%Q;
          highestMarks := Math_max ms;
          lowestMarks := Math_min ms;
          gradeDistribution := foldl tally ∅ gs
        |}
  end.

(** The calls of the service that write grades or remove exams. *)
Inductive Call :=
| CreateGrade (oid : ObjectId) (d : GradeData)
| UpdateGrade (id : ObjectId) (u : GradeUpdate)
| DeleteGrade (id : ObjectId)
| DeleteExam (id : ObjectId).

(** The store a call leaves behind, whether it returns or throws. *)
Definition after (c : Call) (s : Store) : Store :=
  match c with
  | CreateGrade oid d => (createGrade oid d s).2
  | UpdateGrade id u => (updateGrade id u s).2
  | DeleteGrade id => (deleteGrade id s).2
  | DeleteExam id => (deleteExam id s).2
  end.

Definition afterAll (cs : list Call) (s : Store) : Store := foldl (λ s c, after c s) s cs.

(** The marks of every grade whose exam exists are within its maximum. *)
Definition marksWithinMaximum (s : Store) : Prop :=
  ∀ id g e, grades s !! id = Some g → exams s !! exam g = Some e →
            (marks g <= maxMarks e)%Q.

(** The grades pass the schema's rules on the letter. *)
Definition lettered (s : Store) : Prop :=
  ∀ id g, grades s !! id = Some g →
          ∃ l, grade g = Some l ∧ l ≠ "" ∧ (String.length l ≤ 2)%nat.

Lemma grade_save_cases id b old g s :
  (∃ e, saveModified id b old g s = (Throw e, s))
  ∨ (∃ g', (g' = g ∨ g' = setGrade "F" g)
       ∧ pairTaken id old g' s = false
       ∧ saveModified id b old g s = (Ok g', set_grades <[id := g']> s)).
Proof.
  unfold saveModified. rewrite bind_unfold.
  destruct (grade_validate_isCheck g s) as [-> | [e ->]]; [|left; by eexists].
  rewrite bind_unfold.
  destruct (preSave_cases b s g) as [-> | ->]; rewrite gets_bind.
  - destruct (pairTaken id old g s) eqn:Hp; [left; by eexists|].
    right. exists g. split; [by left|done].
  - destruct (pairTaken id old (setGrade "F" g) s) eqn:Hp; [left; by eexists|].
    right. exists (setGrade "F" g). split; [by right|done].
Qed.

(** The marks check of [updateGrade]: new marks are compared with the
    maximum of the exam the grade belongs to before the update. *)
Definition marksCheck (g : Grade) (u : GradeUpdate) : M unit :=
  match up_marks u with
  | Some m =>
      examDoc ← gets (λ s, findById (exams s) (exam g));
      match examDoc with
      | Some e =>
          throwIf (negb (Qle_bool m (maxMarks e)))
            (CustomError "Marks cannot exceed maximum marks for this exam" 400)
      | None => mret tt
      end
  | None => mret tt
  end.

Lemma marksCheck_cases g u s :
  (∃ e, marksCheck g u s = (Throw e, s))
  ∨ ((∀ m e, up_marks u = Some m → exams s !! exam g = Some e → (m <= maxMarks e)%Q)
     ∧ marksCheck g u s = (Ok tt, s)).
Proof.
  unfold marksCheck. destruct (up_marks u) as [m|]; [|right; by split].
  rewrite gets_bind /findById.
  destruct (exams s !! exam g) as [e|]; [|right; by split].
  destruct (Qle_bool m (maxMarks e)) eqn:Hle; [|left; by eexists].
  right. split; [|done]. intros m' e' [= <-] [= <-]. by apply Qle_bool_iff.
Qed.

Lemma updateGrade_cases id u s :
  (∃ e, updateGrade id u s = (Throw e, s))
  ∨ (∃ g g', grades s !! id = Some g
       ∧ exam g' = JS.assign (exam g) (up_exam u)
       ∧ student g' = JS.assign (student g) (up_student u)
       ∧ gradedBy g' = JS.assign (gradedBy g) (up_gradedBy u)
       ∧ marks g' = JS.assign (marks g) (up_marks u)
       ∧ (∀ m e, up_marks u = Some m → exams s !! exam g = Some e →
                 (m <= maxMarks e)%Q)
       ∧ pairTaken id g g' s = false
       ∧ updateGrade id u s = (Ok g', set_grades <[id := g']> s)).
Proof.
  unfold updateGrade. rewrite gets_bind.
  change (findById (grades s) id) with (grades s !! id).
  destruct (grades s !! id) as [g|] eqn:Hg; [|left; by eexists].
  fold (marksCheck g u). rewrite bind_unfold.
  destruct (marksCheck_cases g u s) as [[e ->] | [Hm ->]]; [left; by eexists|].
  match goal with |- context [saveModified id ?b g ?x s] =>
    destruct (grade_save_cases id b g x s) as [[e ->] | (g' & Hg' & Hp & ->)];
      [left; by eexists|]
  end.
  right. exists g, g'. split; [done|].
  by destruct Hg' as [-> | ->].
Qed.

Lemma within_write s id g :
  marksWithinMaximum s →
  (∀ e, exams s !! exam g = Some e → (marks g <= maxMarks e)%Q) →
  marksWithinMaximum (set_grades <[id := g]> s).
Proof.
  intros Hs Hg id' g' e. simpl.
  intros [[_ <-]|[_ H]]%lookup_insert_Some; [apply Hg | by apply (Hs id')].
Qed.

(** A call that leaves the exam of a grade alone. *)
Definition keepsExam (c : Call) : Prop :=
  match c with
  | UpdateGrade _ u => up_exam u = None
  | _ => True
  end.

Lemma within_after c s :
  keepsExam c → marksWithinMaximum s → marksWithinMaximum (after c s).
Proof.
  intros Hc Hs. destruct c as [oid d|id u|id|id]; simpl.
  - by destruct (createGrade_throws oid d s) as [e ->].
  - destruct (updateGrade_cases id u s)
      as [[e ->] | (g & g' & Hg & He & _ & _ & Hm & Hmax & _ & ->)]; [done|].
    simpl in Hc. rewrite Hc /= in He.
    simpl. apply within_write; [done|]. rewrite He Hm. intros e Hex.
    destruct (up_marks u) as [m|] eqn:Hu; simpl.
    + by apply (Hmax m e).
    + by apply (Hs id).
  - unfold deleteGrade. rewrite gets_bind /findById.
    destruct (grades s !! id) as [g|]; [|done]. simpl.
    intros id' g' e. simpl. unfold findByIdAndDelete.
    intros [_ H]%lookup_delete_Some. by apply (Hs id').
  - unfold deleteExam. rewrite gets_bind /findById.
    destruct (exams s !! id) as [x|]; [|done]. simpl.
    intros id' g' e. simpl. unfold findByIdAndDelete, deleteMany.
    intros [H _]%map_lookup_filter_Some [_ He]%lookup_delete_Some.
    by apply (Hs id').
Qed.

(** No sequence of grade calls and exam deletions in which no update names
    an exam puts a grade above the maximum of its exam: [updateGrade]
    checks new marks against the exam the grade belongs to.  (An update
    that names another exam moves the grade there with marks that were
    checked against the old exam, see [updateGrade_moves_exam].) *)
Theorem marks_stay_within_maximum cs s :
  marksWithinMaximum s → Forall keepsExam cs → marksWithinMaximum (afterAll cs s).
Proof.
  revert s. induction cs as [|c cs IH]; intros s Hs Hcs; [done|].
  apply Forall_cons in Hcs as [Hc Hcs].
  simpl. apply IH; [|done]. by apply within_after.
Qed.

(** *** The statistics of an exam *)

Lemma find_elem examId (c : gmap ObjectId Grade) g :
  g ∈ find examId c ↔ ∃ id, c !! id = Some g ∧ exam g = examId.
Proof.
  unfold find. rewrite list_elem_of_fmap. split.
  - intros [[id g'] [-> H]]. apply elem_of_map_to_list in H.
    apply map_lookup_filter_Some in H as [H He]. by exists id.
  - intros (id & H & He). exists (id, g). split; [done|].
    apply elem_of_map_to_list. by apply map_lookup_filter_Some.
Qed.

Lemma length_find examId (c : gmap ObjectId Grade) :
  length (find examId c) = size (filter (λ kv, exam kv.2 = examId) c).
Proof. unfold find. by rewrite length_fmap length_map_to_list. Qed.

Lemma Qle_bool_total a b : Qle_bool a b = false → (b <= a)%Q.
Proof.
  intros H. apply Qlt_le_weak, Qnot_le_lt. intros Hle.
  apply Qle_bool_iff in Hle. congruence.
Qed.

Lemma max_from x l :
  ∃ hi, foldl max2 (JS.Fin x) l = JS.Fin hi
        ∧ (hi = x ∨ hi ∈ l) ∧ (x <= hi)%Q ∧ ∀ m, m ∈ l → (m <= hi)%Q.
Proof.
  revert x. induction l as [|a l IH]; intros x.
  - exists x. split; [done|]. split; [by left|]. split; [apply Qle_refl|].
    intros m Hm. by apply elem_of_nil in Hm.
  - simpl. destruct (Qle_bool x a) eqn:Hxa.
    + destruct (IH a) as (hi & -> & Hin & Hle & Hall). exists hi.
      split; [done|]. split.
      { right. destruct Hin as [-> | Hin]; [left | by right]. }
      split.
      { apply Qle_trans with a; [by apply Qle_bool_iff | done]. }
      intros m [-> | Hm]%elem_of_cons; [done | by apply Hall].
    + destruct (IH x) as (hi & -> & Hin & Hle & Hall). exists hi.
      split; [done|]. split.
      { destruct Hin as [-> | Hin]; [by left | right; by right]. }
      split; [done|].
      intros m [-> | Hm]%elem_of_cons; [|by apply Hall].
      apply Qle_trans with x; [by apply Qle_bool_total | done].
Qed.

Lemma min_from x l :
  ∃ lo, foldl min2 (JS.Fin x) l = JS.Fin lo
        ∧ (lo = x ∨ lo ∈ l) ∧ (lo <= x)%Q ∧ ∀ m, m ∈ l → (lo <= m)%Q.
Proof.
  revert x. induction l as [|a l IH]; intros x.
  - exists x. split; [done|]. split; [by left|]. split; [apply Qle_refl|].
    intros m Hm. by apply elem_of_nil in Hm.
  - simpl. destruct (Qle_bool a x) eqn:Hax.
    + destruct (IH a) as (lo & -> & Hin & Hle & Hall). exists lo.
      split; [done|]. split.
      { right. destruct Hin as [-> | Hin]; [left | by right]. }
      split.
      { apply Qle_trans with a; [done | by apply Qle_bool_iff]. }
      intros m [-> | Hm]%elem_of_cons; [done | by apply Hall].
    + destruct (IH x) as (lo & -> & Hin & Hle & Hall). exists lo.
      split; [done|]. split.
      { destruct Hin as [-> | Hin]; [by left | right; by right]. }
      split; [done|].
      intros m [-> | Hm]%elem_of_cons; [|by apply Hall].
      apply Qle_trans with x; [done | by apply Qle_bool_total].
Qed.

Lemma Math_max_spec l :
  l ≠ [] →
  ∃ hi, Math_max l = JS.Fin hi ∧ hi ∈ l ∧ ∀ m, m ∈ l → (m <= hi)%Q.
Proof.
  destruct l as [|x l]; [done|]. intros _. unfold Math_max. simpl.
  destruct (max_from x l) as (hi & -> & Hin & Hle & Hall). exists hi.
  split; [done|]. split.
  - destruct Hin as [-> | Hin]; [left | by right].
  - intros m [-> | Hm]%elem_of_cons; [done | by apply Hall].
Qed.

Lemma Math_min_spec l :
  l ≠ [] →
  ∃ lo, Math_min l = JS.Fin lo ∧ lo ∈ l ∧ ∀ m, m ∈ l → (lo <= m)%Q.
Proof.
  destruct l as [|x l]; [done|]. intros _. unfold Math_min. simpl.
  destruct (min_from x l) as (lo & -> & Hin & Hle & Hall). exists lo.
  split; [done|]. split.
  - destruct Hin as [-> | Hin]; [left | by right].
  - intros m [-> | Hm]%elem_of_cons; [done | by apply Hall].
Qed.

(** With a grade stored for the exam, the lowest and the highest marks of
    the statistics are marks of grades of that exam, and the marks of every
    grade of the exam lie between them. *)
Theorem getGradeStatistics_bounds s examId e id0 g0 :
  exams s !! examId = Some e →
  grades s !! id0 = Some g0 → exam g0 = examId →
  ∃ st lo hi,
    getGradeStatistics examId s = (Ok st, s)
    ∧ lowestMarks st = JS.Fin lo ∧ highestMarks st = JS.Fin hi
    ∧ (∀ id g, grades s !! id = Some g → exam g = examId →
               (lo <= marks g)%Q ∧ (marks g <= hi)%Q)
    ∧ (∃ id g, grades s !! id = Some g ∧ exam g = examId ∧ marks g = lo)
    ∧ (∃ id g, grades s !! id = Some g ∧ exam g = examId ∧ marks g = hi).
Proof.
  intros He Hg0 Hex.
  assert (g0 ∈ find examId (grades s)) as Hin0 by (apply find_elem; eauto).
  assert (marks <$> find examId (grades s) ≠ []) as Hne.
  { intros H. apply fmap_nil_inv in H. rewrite H in Hin0.
    by apply elem_of_nil in Hin0. }
  destruct (Math_max_spec _ Hne) as (hi & Hmax & Hhi & Hall_hi).
  destruct (Math_min_spec _ Hne) as (lo & Hmin & Hlo & Hall_lo).
  unfold getGradeStatistics. rewrite !gets_bind /findById He.
  destruct (length (find examId (grades s)) =? 0)%nat eqn:Hlen.
  { exfalso. apply Nat.eqb_eq, length_zero_iff_nil in Hlen.
    rewrite Hlen in Hin0. by apply elem_of_nil in Hin0. }
  eexists _, lo, hi. split; [reflexivity|].
  simpl. rewrite Hmin Hmax. split; [done|]. split; [done|]. split; [|split].
  - intros id g Hg Hge.
    assert (marks g ∈ marks <$> find examId (grades s)) as Hm.
    { apply list_elem_of_fmap. exists g. split; [done|]. apply find_elem. eauto. }
    split; [by apply Hall_lo | by apply Hall_hi].
  - apply list_elem_of_fmap in Hlo as (g & -> & Hg).
    apply find_elem in Hg as (id & Hg & Hge). by exists id, g.
  - apply list_elem_of_fmap in Hhi as (g & -> & Hg).
    apply find_elem in Hg as (id & Hg & Hge). by exists id, g.
Qed.

Lemma tally_fold gs : ∀ d l,
  foldl tally d gs !! l =
  let n := length (filter (λ g, letterKey g = l) gs) in
  match d !! l with
  | Some k => Some (k + n)%nat
  | None => if (n =? 0)%nat then None else Some n
  end.
Proof.
  induction gs as [|a gs IH]; intros d l.
  - simpl. destruct (d !! l) as [k|]; [|done]. f_equal. lia.
  - simpl. rewrite IH. cbv zeta. unfold tally.
    rewrite filter_cons. destruct (decide (letterKey a = l)) as [<-|Hne].
    + rewrite lookup_insert_eq. simpl.
      destruct (d !! letterKey a) as [k|]; simpl; f_equal; lia.
    + rewrite lookup_insert_ne //.
Qed.

Lemma length_filter_map_to_list `{∀ kv : ObjectId * Grade, Decision (P kv)}
    (m : gmap ObjectId Grade) :
  length (filter P (map_to_list m)) = size (filter P m).
Proof.
  induction m as [|i x m Hi IH] using map_ind.
  - by rewrite map_to_list_empty map_filter_empty.
  - rewrite -> (map_to_list_insert m i x Hi). rewrite filter_cons.
    destruct (decide (P (i, x))) as [HP|HP].
    + rewrite map_filter_insert_True // map_size_insert_None.
      { apply map_lookup_filter_None. by left. }
      simpl. by rewrite IH.
    + rewrite map_filter_insert_not' //.
      intros y Hy. congruence.
Qed.

Lemma length_filter_snd `{∀ g : Grade, Decision (P g)} (l : list (ObjectId * Grade)) :
  length (filter P (l.*2)) = length (filter (λ kv, P kv.2) l).
Proof.
  induction l as [|[i x] l IH]; [done|].
  rewrite fmap_cons !filter_cons. simpl.
  destruct (decide (P x)); simpl; by rewrite IH.
Qed.

(** The number of grades of an exam that carry a given letter. *)
Definition lettersOf (s : Store) (examId : ObjectId) (l : string) : nat :=
  size (filter (λ kv, exam kv.2 = examId ∧ grade kv.2 = Some l) (grades s)).

Lemma count_letter s examId l :
  lettered s →
  length (filter (λ g, letterKey g = l) (find examId (grades s)))
  = lettersOf s examId l.
Proof.
  intros Hs. unfold find, lettersOf.
  rewrite length_filter_snd length_filter_map_to_list.
  rewrite (map_filter_filter (λ kv, letterKey kv.2 = l)). f_equal.
  apply map_filter_ext. intros i g Hg. simpl.
  destruct (Hs i g Hg) as (l' & Hl' & _). unfold letterKey. rewrite Hl'. simpl.
  split; [intros [-> ?]; done | intros [? [= ->]]; done].
Qed.

(** For an exam that exists the statistics count the grades stored for it,
    as total and as graded students alike; the distribution has one entry
    for each letter that occurs among them, with the number of grades that
    carry it; with no grade stored everything is zero. *)
Theorem getGradeStatistics_counts s examId e :
  lettered s →
  exams s !! examId = Some e →
  ∃ st,
    getGradeStatistics examId s = (Ok st, s)
    ∧ totalStudents st = size (filter (λ kv, exam kv.2 = examId) (grades s))
    ∧ gradedStudents st = totalStudents st
    ∧ (∀ l, gradeDistribution st !! l
            = if (lettersOf s examId l =? 0)%nat then None
              else Some (lettersOf s examId l))
    ∧ (totalStudents st = 0%nat →
       st = mkStatistics 0 0 0 (JS.Fin 0) (JS.Fin 0) ∅).
Proof.
  intros Hs He. unfold getGradeStatistics. rewrite !gets_bind /findById He.
  destruct (length (find examId (grades s)) =? 0)%nat eqn:Hlen.
  - apply Nat.eqb_eq in Hlen. eexists. split; [reflexivity|]. simpl.
    split; [by rewrite -length_find|]. split; [done|]. split; [|done].
    intros l. rewrite -count_letter //.
    apply length_zero_iff_nil in Hlen. by rewrite Hlen.
  - apply Nat.eqb_neq in Hlen. eexists. split; [reflexivity|]. simpl.
    split; [by rewrite length_find|]. split; [done|]. split; [|done].
    intros l. rewrite tally_fold lookup_empty. cbv zeta.
    by rewrite count_letter.
Qed.

(** *** Instances *)

Definition bobsGrade : Grade := mkGrade "e1" "s2" 52 (Some "C-") None "t1".
Definition cysGrade : Grade := mkGrade "e1" "s3" 95 (Some "A+") None "t1".
Definition quizGrade : Grade := mkGrade "e2" "s1" 7 (Some "B") None "t1".

Definition results : Store :=
  mkStore ClassFacts.people ∅
    (<["e1" := midterm]> (<["e2" := mkExam "Quiz" "c1" "sub1" 10]> ∅))
    (<["g1" := annsGrade]> (<["g2" := bobsGrade]> (<["g3" := cysGrade]>
       (<["g4" := quizGrade]> ∅))))
    ∅.

Lemma results_grades id g :
  grades results !! id = Some g →
  g = annsGrade ∨ g = bobsGrade ∨ g = cysGrade ∨ g = quizGrade.
Proof.
  simpl. intros H.
  repeat (apply lookup_insert_Some in H as [[_ <-]|[_ H]]; [tauto|]).
  by rewrite lookup_empty in H.
Qed.

Lemma results_within : marksWithinMaximum results.
Proof.
  intros id g e Hg He.
  apply results_grades in Hg as [-> | [-> | [-> | ->]]];
    vm_compute in He; injection He as <-; by vm_compute.
Qed.

Lemma results_lettered : lettered results.
Proof.
  intros id g Hg.
  apply results_grades in Hg as [-> | [-> | [-> | ->]]];
    eexists; (split; [reflexivity|]); (split; [done|]); simpl; lia.
Qed.

Definition marking : list Call :=
  [ UpdateGrade "g2" (mkGradeUpdate (Some 120%Q) None);
    UpdateGrade "g2" (mkGradeUpdate (Some 61%Q) (Some " Resit "));
    UpdateGrade "g3" (mkPartialGrade None None (Some 88%Q) (Some " a ") None (Some "t2"));
    CreateGrade "g5" (gradeOf "s3" 101);
    DeleteGrade "g1";
    DeleteExam "e2" ].

Lemma marks_stay_within_maximum_witness :
  Forall keepsExam marking
  ∧ marksWithinMaximum (afterAll marking results)
  ∧ grades (afterAll marking results) !! "g2"
    = Some (mkGrade "e1" "s2" 61 (Some "C-") (Some "Resit") "t1")
  ∧ grades (afterAll marking results) !! "g3"
    = Some (mkGrade "e1" "s3" 88 (Some "A") None "t2")
  ∧ size (grades (afterAll marking results)) = 2%nat.
Proof.
  assert (Forall keepsExam marking) as Hkeep by (repeat constructor).
  split; [exact Hkeep|]. split; [|by vm_compute].
  apply (marks_stay_within_maximum marking results results_within Hkeep).
Defined.

(** An update that names another exam is checked against the old exam, if
    at all, and moves the grade: 52 marks end up under an exam of at most
    10.  Where another grade holds the new (exam, student) pair the index
    refuses the update. *)
Lemma updateGrade_moves_exam :
  (updateGrade "g2" (mkPartialGrade (Some "e2") None None None None None) results).1
  = Ok (mkGrade "e2" "s2" 52 (Some "C-") None "t1")
  ∧ ¬ marksWithinMaximum
        (updateGrade "g2" (mkPartialGrade (Some "e2") None None None None None) results).2
  ∧ updateGrade "g1" (mkPartialGrade (Some "e2") None None None None None) results
    = (Throw (MongoServerError "E11000 duplicate key error"), results).
Proof.
  split; [by vm_compute|]. split; [|by vm_compute].
  intros H.
  specialize (H "g2" (mkGrade "e2" "s2" 52 (Some "C-") None "t1")
                (mkExam "Quiz" "c1" "sub1" 10)).
  assert (52 <= 10)%Q as Hle; [|by vm_compute in Hle].
  apply H; by vm_compute.
Qed.

Lemma getGradeStatistics_bounds_witness :
  ∃ st lo hi,
    getGradeStatistics "e1" results = (Ok st, results)
    ∧ lowestMarks st = JS.Fin lo ∧ highestMarks st = JS.Fin hi
    ∧ (∀ id g, grades results !! id = Some g → exam g = "e1" →
               (lo <= marks g)%Q ∧ (marks g <= hi)%Q)
    ∧ (∃ id g, grades results !! id = Some g ∧ exam g = "e1" ∧ marks g = lo)
    ∧ (∃ id g, grades results !! id = Some g ∧ exam g = "e1" ∧ marks g = hi).
Proof.
  apply (getGradeStatistics_bounds results "e1" midterm "g1" annsGrade);
    reflexivity.
Defined.

Lemma getGradeStatistics_counts_witness :
  lettersOf results "e1" "A+" = 2%nat
  ∧ ∃ st,
      getGradeStatistics "e1" results = (Ok st, results)
      ∧ totalStudents st = 3%nat
      ∧ gradeDistribution st !! "A+" = Some 2%nat
      ∧ gradeDistribution st !! "B" = None.
Proof.
  split; [by vm_compute|].
  destruct (getGradeStatistics_counts results "e1" midterm results_lettered eq_refl)
    as (st & Hrun & Htotal & _ & Hdist & _).
  exists st. split; [exact Hrun|]. split; [|split].
  - rewrite Htotal. by vm_compute.
  - rewrite Hdist. by vm_compute.
  - rewrite Hdist. by vm_compute.
Defined.

End GradeMore.

(** ** Announcements: creation, archiving, deletion and who may change what *)

Module AnnouncementMore.
Import AnnouncementModel AnnouncementService AnnouncementFacts.

(** The body accepted by the create route (createAnnouncementSchema) with
    [createdBy] added by the controller, for the fields of the document kept
    here. *)
Record CreateData := mkCreate {
  a_title : string;
  a_body : string;
  a_audience : Audience;
  a_targets : option (list ObjectId);
  a_createdBy : ObjectId;
  a_status : option AnnouncementStatus;
  a_expiresAt : option Z
}.

(** [doc.save()] on a new document whose [status] was given to the
    constructor: validation, the hook, then the insert; the database refuses
    an [_id] that is in use. *)
Definition saveNew (now : Z) (oid : ObjectId) (a : Announcement) : M Announcement :=
  validate a;;
  let a' := preSave now true a in
  taken ← gets (λ s, findById (announcements s) oid);
  throwIf (bool_decide (is_Some taken)) (MongoServerError "E11000 duplicate key error");;
  modify (set_announcements <[oid := a']>);;
  mret a'.

Definition deleteAnnouncement (id : ObjectId)
    (userRole : option Role) (userId : option ObjectId) : M unit :=
  announcement ← gets (λ s, findById (announcements s) id);
  match announcement with
  | None => throw (CustomError "Announcement not found" 404)
  | Some a =>
      throwIf (notOwnerNorAdmin a userRole userId)
        (CustomError "You can only delete your own announcements" 403);;
      modify (set_announcements (findByIdAndDelete id))
  end.

Definition archiveAnnouncement (now : Z) (id : ObjectId)
    (userRole : option Role) (userId : option ObjectId) : M Announcement :=
  announcement ← gets (λ s, findById (announcements s) id);
  match announcement with
  | None => throw (CustomError "Announcement not found" 404)
  | Some a =>
      throwIf (notOwnerNorAdmin a userRole userId)
        (CustomError "You can only archive your own announcements" 403);;
      save now id (bool_decide (annStatus a ≠ ARCHIVED)) (setStatus ARCHIVED a)
  end.

Definition AnnouncementNotFound : Error := CustomError "Announcement not found" 404.
Definition TargetsRequired : Error :=
  CustomError "Targets are required when audience is not ALL" 400.

(** [targets && targets.length > 0] *)
Definition nonEmpty (targets : option (list ObjectId)) : bool :=
  match targets with
  | Some (_ :: _) => true
  | _ => false
  end.

Section WithTrim.
(** [String.prototype.trim], the setter of the schema's [trim: true] paths. *)
Variable trim : string → string.

(** The document [new Announcement({...})] builds. *)
Definition newAnnouncement (d : CreateData) : Announcement := {|
  title := trim (a_title d);
  body := trim (a_body d);
  audience := a_audience d;
  targets := default [] (a_targets d);
  targetModel := None;
  createdBy := a_createdBy d;
  annStatus := default DRAFT (a_status d);
  publishedAt := None;
  expiresAt := a_expiresAt d
|}.

Definition createAnnouncement (now : Z) (oid : ObjectId) (d : CreateData)
    : M Announcement :=
  createdByUser ← gets (λ s, findById (users s) (a_createdBy d));
  match createdByUser with
  | None => throw (CustomError "User not found" 404)
  | Some _ =>
      throwIf (bool_decide (a_audience d ≠ ALL) && negb (nonEmpty (a_targets d)))
        TargetsRequired;;
      match a_targets d with
      | Some (t :: ts) =>
          let tgts := t :: ts in
          match a_audience d with
          | CLASS =>
              found ← gets (λ s, countIn tgts (classes s));
              throwIf (negb (found =? length tgts)%nat)
                (CustomError "One or more classes not found" 400)
          | USER | ROLE =>
              found ← gets (λ s, countIn tgts (users s));
              throwIf (negb (found =? length tgts)%nat)
                (CustomError "One or more users not found" 400)
          | ALL => mret tt
          end
      | _ => mret tt
      end;;
      saveNew now oid (newAnnouncement d)
  end.

(** The service calls that write announcements. *)
Inductive Call :=
| Create (now : Z) (oid : ObjectId) (d : CreateData)
| Update (now : Z) (id : ObjectId) (u : UpdateData)
         (userRole : option Role) (userId : option ObjectId)
| Delete (id : ObjectId) (userRole : option Role) (userId : option ObjectId)
| Publish (now : Z) (id : ObjectId) (userRole : option Role) (userId : option ObjectId)
| Archive (now : Z) (id : ObjectId) (userRole : option Role) (userId : option ObjectId).

(** The store a call leaves behind, whether it returns or throws. *)
Definition after (c : Call) (s : Store) : Store :=
  match c with
  | Create now oid d => (createAnnouncement now oid d s).2
  | Update now id u userRole userId => (updateAnnouncement now id u userRole userId s).2
  | Delete id userRole userId => (deleteAnnouncement id userRole userId s).2
  | Publish now id userRole userId => (publishAnnouncement now id userRole userId s).2
  | Archive now id userRole userId => (archiveAnnouncement now id userRole userId s).2
  end.

Definition afterAll (cs : list Call) (s : Store) : Store := foldl (λ s c, after c s) s cs.

(** No stored announcement is addressed to anything but everybody. *)
Definition untargeted (s : Store) : Prop :=
  ∀ id a, announcements s !! id = Some a → audience a = ALL ∧ targetModel a = None.

Lemma announcement_validate_inv a s r : validate a s = (Ok tt, r) → validB a = true ∧ r = s.
Proof.
  unfold validate, validB.
  do 5 (match goal with |- context [throwIf ?b ?e ≫= _] =>
          destruct b; [by rewrite throwIf_true | rewrite throwIf_false] end).
  match goal with |- context [throwIf ?b ?e] => destruct b end; [done|].
  by intros [= <-].
Qed.

Lemma announcement_validate_cases a s :
  (validB a = true ∧ validate a s = (Ok tt, s))
  ∨ (validB a = false ∧ ∃ e, validate a s = (Throw e, s)).
Proof.
  destruct (validB a) eqn:Hv.
  - left. split; [done|]. by apply announcement_validate_ok.
  - right. split; [done|].
    destruct (announcement_validate_isCheck a s) as [H | H]; [|done].
    apply announcement_validate_inv in H as [H _]. congruence.
Qed.

Lemma validB_untargeted a :
  validB a = true → targetModel a = None → audience a = ALL.
Proof.
  unfold validB. intros H Ht. rewrite Ht in H.
  repeat (apply andb_prop in H as [H ?]).
  destruct (audience a); done.
Qed.

Lemma validB_targeted a :
  audience a ≠ ALL → targetModel a = None → validB a = false.
Proof.
  intros Ha Ht. destruct (validB a) eqn:Hv; [|done].
  by apply validB_untargeted in Hv.
Qed.

(** The checks that precede the save in [createAnnouncement] and
    [updateAnnouncement]. *)
Lemma targets_isCheck (tgts : option (list ObjectId)) (au : Audience) :
  isCheck (match tgts with
           | Some (t :: ts) =>
               let tgts := t :: ts in
               match au with
               | CLASS =>
                   found ← gets (λ s, countIn tgts (classes s));
                   throwIf (negb (found =? length tgts)%nat)
                     (CustomError "One or more classes not found" 400)
               | USER | ROLE =>
                   found ← gets (λ s, countIn tgts (users s));
                   throwIf (negb (found =? length tgts)%nat)
                     (CustomError "One or more users not found" 400)
               | ALL => mret tt
               end
           | _ => mret tt
           end).
Proof.
  destruct tgts as [[|x l]|]; auto with checks.
  cbv zeta. destruct au; auto with checks.
Qed.

Lemma announcement_saveNew_cases now oid a s :
  (validB a = true ∧ announcements s !! oid = None
   ∧ saveNew now oid a s
     = (Ok (preSave now true a), set_announcements <[oid := preSave now true a]> s))
  ∨ ((validB a = false ∨ is_Some (announcements s !! oid))
     ∧ ∃ e, saveNew now oid a s = (Throw e, s)).
Proof.
  unfold saveNew. rewrite bind_unfold.
  destruct (announcement_validate_cases a s) as [[Hv ->] | [Hv [e ->]]]; [|right; eauto].
  cbv zeta. rewrite gets_bind /findById.
  destruct (announcements s !! oid) as [x|] eqn:Hoid.
  - right. split; [eauto|]. rewrite bool_decide_eq_true_2 //. eauto.
  - left. rewrite bool_decide_eq_false_2; [by intros [? ?]|]. done.
Qed.

Lemma announcement_save_cases now id b a s :
  (validB a = true
   ∧ save now id b a s = (Ok (preSave now b a), set_announcements <[id := preSave now b a]> s))
  ∨ (validB a = false ∧ ∃ e, save now id b a s = (Throw e, s)).
Proof.
  unfold save. rewrite bind_unfold.
  destruct (announcement_validate_cases a s) as [[Hv ->] | [Hv [e ->]]]; [|right; eauto].
  by left.
Qed.

(** An announcement for a class, a role or a user is never created: each
    such call throws and writes nothing.  When the targets are given and
    exist, it is the schema that refuses the document, whose [targetModel]
    the service does not set. *)
Theorem targeted_announcement_never_created now oid d s :
  a_audience d ≠ ALL →
  ∃ e, createAnnouncement now oid d s = (Throw e, s).
Proof.
  intros Ha. unfold createAnnouncement. rewrite gets_bind.
  destruct (findById _ _); [|by eexists].
  match goal with |- context [(?m ≫= ?k) s] =>
    destruct (isCheck_bind m k s) as [-> | [e ->]]; [auto with checks| |by eexists]
  end.
  match goal with |- context [(?m ≫= ?k) s] =>
    destruct (isCheck_bind m k s) as [-> | [e ->]];
      [apply targets_isCheck| |by eexists]
  end.
  destruct (announcement_saveNew_cases now oid (newAnnouncement d) s) as [[Hv _] | [_ H]]; [|done].
  by rewrite validB_targeted in Hv.
Qed.

(** What [createAnnouncement] stores for an announcement to everybody. *)
Definition created (now : Z) (d : CreateData) : Announcement :=
  if bool_decide (a_status d = Some PUBLISHED)
  then setPublishedAt now (newAnnouncement d)
  else newAnnouncement d.

Definition wellFormed (d : CreateData) : Prop :=
  trim (a_title d) ≠ "" ∧ (String.length (trim (a_title d)) ≤ 200)%nat
  ∧ trim (a_body d) ≠ "" ∧ (String.length (trim (a_body d)) ≤ 2000)%nat.

Lemma validB_new d :
  a_audience d = ALL → (validB (newAnnouncement d) = true ↔ wellFormed d).
Proof.
  intros Ha. unfold validB, wellFormed. simpl. rewrite Ha /=.
  rewrite !andb_true_r !andb_true_iff !negb_true_iff.
  rewrite !Nat.ltb_ge.
  assert (∀ x, String.eqb x "" = false ↔ x ≠ "") as E.
  { intros x. rewrite -not_true_iff_false. by rewrite String.eqb_eq. }
  rewrite !E. tauto.
Qed.

Lemma preSave_new now d :
  preSave now true (newAnnouncement d) = created now d.
Proof.
  unfold preSave, created. simpl.
  destruct (a_status d) as [[]|]; simpl; try done.
Qed.

Lemma createAnnouncement_cases now oid d s :
  (∃ e, createAnnouncement now oid d s = (Throw e, s))
  ∨ (validB (newAnnouncement d) = true
     ∧ createAnnouncement now oid d s
       = (Ok (created now d), set_announcements <[oid := created now d]> s)).
Proof.
  unfold createAnnouncement. rewrite gets_bind.
  destruct (findById _ _); [|left; by eexists].
  match goal with |- context [(?m ≫= ?k) s] =>
    destruct (isCheck_bind m k s) as [-> | [e ->]];
      [auto with checks| |left; by eexists]
  end.
  match goal with |- context [(?m ≫= ?k) s] =>
    destruct (isCheck_bind m k s) as [-> | [e ->]];
      [apply targets_isCheck| |left; by eexists]
  end.
  destruct (announcement_saveNew_cases now oid (newAnnouncement d) s)
    as [(Hv & _ & ->) | [_ H]]; [|by left].
  right. by rewrite preSave_new.
Qed.

(** An announcement to everybody is created exactly when its author exists
    and the trimmed title and body are within the schema's bounds; it is a
    DRAFT unless a status is given, and it carries a publication time exactly
    when it is created as PUBLISHED.  Targets sent along are stored without
    a lookup. *)
Theorem createAnnouncement_for_everybody now oid d s :
  a_audience d = ALL →
  announcements s !! oid = None →
  (is_Some (users s !! a_createdBy d) ∧ wellFormed d →
     createAnnouncement now oid d s
     = (Ok (created now d), set_announcements <[oid := created now d]> s))
  ∧ (¬ (is_Some (users s !! a_createdBy d) ∧ wellFormed d) →
     ∃ e, createAnnouncement now oid d s = (Throw e, s)).
Proof.
  intros Ha Hfresh.
  assert (createAnnouncement now oid d s
          = match users s !! a_createdBy d with
            | None => (Throw (CustomError "User not found" 404), s)
            | Some _ => saveNew now oid (newAnnouncement d) s
            end) as ->.
  { unfold createAnnouncement. rewrite gets_bind /findById.
    destruct (users s !! _); [|done].
    rewrite Ha /=.
    by destruct (a_targets d) as [[|x l]|]. }
  split.
  - intros [[u Hu] Hw]. rewrite Hu.
    destruct (announcement_saveNew_cases now oid (newAnnouncement d) s)
      as [(_ & _ & ->) | [[Hv | [x Hx]] _]].
    + by rewrite preSave_new.
    + apply validB_new in Hw; [congruence|done].
    + congruence.
  - intros Hnot. destruct (users s !! _) as [u|] eqn:Hu; [|by eexists].
    destruct (announcement_saveNew_cases now oid (newAnnouncement d) s)
      as [(Hv & _ & _) | [_ H]]; [|done].
    destruct Hnot. split; [by eexists|]. by apply validB_new.
Qed.

Lemma updateAnnouncement_cases now id u userRole userId s :
  (∃ e, updateAnnouncement now id u userRole userId s = (Throw e, s))
  ∨ (∃ a b, announcements s !! id = Some a
       ∧ notOwnerNorAdmin a userRole userId = false
       ∧ validB (assignUpdate a u) = true
       ∧ updateAnnouncement now id u userRole userId s
         = (Ok (preSave now b (assignUpdate a u)),
            set_announcements <[id := preSave now b (assignUpdate a u)]> s)).
Proof.
  unfold updateAnnouncement. rewrite gets_bind /findById.
  destruct (announcements s !! id) as [a|] eqn:Ha; [|left; by eexists].
  destruct (notOwnerNorAdmin _ _ _) eqn:Hauth; [left; by eexists|].
  rewrite throwIf_false.
  match goal with |- context [(?m ≫= ?k) s] =>
    destruct (isCheck_bind m k s) as [-> | [e ->]];
      [apply targets_isCheck| |left; by eexists]
  end.
  cbv zeta.
  match goal with |- context [save now id ?b ?x s] =>
    destruct (announcement_save_cases now id b x s) as [[Hv ->] | [_ H]]; [|by left]
  end.
  right. by eexists _, _.
Qed.

Lemma publishAnnouncement_cases now id userRole userId s :
  (∃ e, publishAnnouncement now id userRole userId s = (Throw e, s))
  ∨ (∃ a, announcements s !! id = Some a
       ∧ notOwnerNorAdmin a userRole userId = false
       ∧ validB a = true
       ∧ publishAnnouncement now id userRole userId s
         = (Ok (setPublishedAt now (setStatus PUBLISHED a)),
            set_announcements <[id := setPublishedAt now (setStatus PUBLISHED a)]> s)).
Proof.
  unfold publishAnnouncement. rewrite gets_bind /findById.
  destruct (announcements s !! id) as [a|] eqn:Ha; [|left; by eexists].
  destruct (notOwnerNorAdmin _ _ _) eqn:Hauth; [left; by eexists|].
  rewrite throwIf_false. cbv zeta.
  match goal with |- context [save now id ?b ?x s] =>
    destruct (announcement_save_cases now id b x s) as [[Hv ->] | [_ H]]; [|by left]
  end.
  right. exists a. split; [done|]. split; [done|]. split; [done|].
  by rewrite (preSave_keeps_stamp _ _ _ now).
Qed.

Lemma preSave_archived now b a :
  preSave now b (setStatus ARCHIVED a) = setStatus ARCHIVED a.
Proof.
  unfold preSave. simpl. by rewrite andb_false_r.
Qed.

Lemma archiveAnnouncement_cases now id userRole userId s :
  (∃ e, archiveAnnouncement now id userRole userId s = (Throw e, s))
  ∨ (∃ a, announcements s !! id = Some a
       ∧ notOwnerNorAdmin a userRole userId = false
       ∧ validB a = true
       ∧ archiveAnnouncement now id userRole userId s
         = (Ok (setStatus ARCHIVED a), set_announcements <[id := setStatus ARCHIVED a]> s)).
Proof.
  unfold archiveAnnouncement. rewrite gets_bind /findById.
  destruct (announcements s !! id) as [a|] eqn:Ha; [|left; by eexists].
  destruct (notOwnerNorAdmin _ _ _) eqn:Hauth; [left; by eexists|].
  rewrite throwIf_false.
  match goal with |- context [save now id ?b ?x s] =>
    destruct (announcement_save_cases now id b x s) as [[Hv ->] | [_ H]]; [|by left]
  end.
  right. exists a. by rewrite preSave_archived.
Qed.

Lemma preSave_audience now b a : audience (preSave now b a) = audience a.
Proof. unfold preSave. by destruct (_ && _). Qed.

Lemma preSave_targetModel now b a : targetModel (preSave now b a) = targetModel a.
Proof. unfold preSave. by destruct (_ && _). Qed.

Lemma untargeted_write s id a :
  untargeted s → audience a = ALL → targetModel a = None →
  untargeted (set_announcements <[id := a]> s).
Proof.
  intros Hs Ha Ht id' a'. simpl.
  intros [[_ <-]|[_ H]]%lookup_insert_Some; [done|by apply (Hs id')].
Qed.

Lemma untargeted_after c s : untargeted s → untargeted (after c s).
Proof.
  intros Hs. destruct c as [now oid d|now id u r i|id r i|now id r i|now id r i]; simpl.
  - destruct (createAnnouncement_cases now oid d s) as [[e ->] | [Hv ->]]; [done|].
    rewrite -preSave_new. simpl.
    apply untargeted_write; [done| |by rewrite preSave_targetModel].
    rewrite preSave_audience. by apply validB_untargeted.
  - destruct (updateAnnouncement_cases now id u r i s)
      as [[e ->] | (a & b & Ha & _ & Hv & ->)]; [done|].
    simpl. destruct (Hs id a Ha) as [_ Ht].
    apply untargeted_write; [done| |by rewrite preSave_targetModel].
    rewrite preSave_audience. by apply validB_untargeted.
  - unfold deleteAnnouncement. rewrite gets_bind /findById.
    destruct (announcements s !! id) as [a|]; [|done].
    destruct (notOwnerNorAdmin _ _ _); [done|].
    rewrite throwIf_false. simpl.
    intros id' a'. simpl. unfold findByIdAndDelete.
    intros [_ H]%lookup_delete_Some. by apply (Hs id').
  - destruct (publishAnnouncement_cases now id r i s)
      as [[e ->] | (a & Ha & _ & _ & ->)]; [done|].
    simpl. destruct (Hs id a Ha) as [Hau Ht]. by apply untargeted_write.
  - destruct (archiveAnnouncement_cases now id r i s)
      as [[e ->] | (a & Ha & _ & _ & ->)]; [done|].
    simpl. destruct (Hs id a Ha) as [Hau Ht]. by apply untargeted_write.
Qed.

(** Whatever calls are made, in whatever order and by whomever, the stored
    announcements stay addressed to everybody: the service never sets
    [targetModel], which the schema requires for any other audience. *)
Theorem announcements_stay_untargeted cs s :
  untargeted s → untargeted (afterAll cs s).
Proof.
  revert s. induction cs as [|c cs IH]; intros s Hs; [done|].
  simpl. apply IH. by apply untargeted_after.
Qed.

End WithTrim.

(** Only an administrator or the author gets past the ownership check: for
    anybody else, and for a caller without identity, the four calls that
    change an existing announcement fail with status 403 and write nothing. *)
Theorem announcement_owner_gate s now id a u userRole userId :
  announcements s !! id = Some a →
  userRole ≠ Some ADMIN →
  userId ≠ Some (createdBy a) →
  updateAnnouncement now id u userRole userId s
  = (Throw (CustomError "You can only update your own announcements" 403), s)
  ∧ deleteAnnouncement id userRole userId s
    = (Throw (CustomError "You can only delete your own announcements" 403), s)
  ∧ publishAnnouncement now id userRole userId s
    = (Throw (CustomError "You can only publish your own announcements" 403), s)
  ∧ archiveAnnouncement now id userRole userId s
    = (Throw (CustomError "You can only archive your own announcements" 403), s).
Proof.
  intros Ha Hr Hu.
  assert (notOwnerNorAdmin a userRole userId = true) as Hgate.
  { unfold notOwnerNorAdmin. rewrite !bool_decide_eq_true_2 //; congruence. }
  unfold updateAnnouncement, deleteAnnouncement, publishAnnouncement,
    archiveAnnouncement.
  by rewrite !gets_bind /findById Ha Hgate.
Qed.

(** Deleting is final and touches one document: the author's or an
    administrator's call removes the announcement and nothing else, and from
    then on every call on that id fails with 'Announcement not found'. *)
Theorem deleted_announcement_is_gone s now id a u userRole userId r i :
  announcements s !! id = Some a →
  (userRole = Some ADMIN ∨ userId = Some (createdBy a)) →
  ∃ s',
    deleteAnnouncement id userRole userId s = (Ok tt, s')
    ∧ announcements s' = delete id (announcements s)
    ∧ users s' = users s ∧ classes s' = classes s
    ∧ exams s' = exams s ∧ grades s' = grades s
    ∧ updateAnnouncement now id u r i s' = (Throw AnnouncementNotFound, s')
    ∧ deleteAnnouncement id r i s' = (Throw AnnouncementNotFound, s')
    ∧ publishAnnouncement now id r i s' = (Throw AnnouncementNotFound, s')
    ∧ archiveAnnouncement now id r i s' = (Throw AnnouncementNotFound, s').
Proof.
  intros Ha Hmay.
  assert (notOwnerNorAdmin a userRole userId = false) as Hgate.
  { unfold notOwnerNorAdmin. destruct Hmay as [-> | ->].
    - by rewrite (bool_decide_eq_false_2 (Some ADMIN ≠ Some ADMIN)); [naive_solver|].
    - rewrite (bool_decide_eq_false_2 (Some (createdBy a) ≠ Some (createdBy a)));
        [naive_solver|]. by rewrite andb_false_r. }
  exists (set_announcements (findByIdAndDelete id) s).
  split.
  { unfold deleteAnnouncement. by rewrite gets_bind /findById Ha Hgate. }
  do 5 (split; [done|]).
  unfold updateAnnouncement, deleteAnnouncement, publishAnnouncement,
    archiveAnnouncement.
  rewrite !gets_bind /findById /= /findByIdAndDelete lookup_delete_eq. done.
Qed.

(** Archiving changes the status and nothing else: the publication time, if
    any, stays, and none is set.  It succeeds exactly for the author or an
    administrator on a document that passes the schema. *)
Theorem archiveAnnouncement_outcome s now id a userRole userId :
  announcements s !! id = Some a →
  (notOwnerNorAdmin a userRole userId = false ∧ validB a = true →
     archiveAnnouncement now id userRole userId s
     = (Ok (setStatus ARCHIVED a), set_announcements <[id := setStatus ARCHIVED a]> s))
  ∧ (¬ (notOwnerNorAdmin a userRole userId = false ∧ validB a = true) →
     ∃ e, archiveAnnouncement now id userRole userId s = (Throw e, s)).
Proof.
  intros Ha.
  destruct (archiveAnnouncement_cases now id userRole userId s)
    as [[e He] | (a' & Ha' & Hgate & Hv & ->)].
  - split; [|by eexists]. intros [Hgate Hv]. exfalso.
    revert He. unfold archiveAnnouncement.
    rewrite gets_bind /findById Ha Hgate throwIf_false.
    match goal with |- context [save now id ?b ?x s] =>
      destruct (announcement_save_cases now id b x s) as [[_ ->] | [Hv' _]]; [done|]
    end.
    unfold validB in *. simpl in Hv'. congruence.
  - assert (a' = a) as -> by congruence.
    split; [done|]. intros []. done.
Qed.

(** *** Instances *)

(** [trim] on text whose white space is ASCII. *)
Definition isSpace (c : Ascii.ascii) : bool :=
  let n := Ascii.nat_of_ascii c in
  ((9 <=? n) && (n <=? 13) || (n =? 32))%nat.

Fixpoint trimStart (s : string) : string :=
  match s with
  | String c r => if isSpace c then trimStart r else s
  | EmptyString => EmptyString
  end.

Definition asciiTrim (s : string) : string :=
  String.rev (trimStart (String.rev (trimStart s))).

Definition examWeek (au : Audience) (tgts : option (list ObjectId))
    (st : option AnnouncementStatus) : CreateData :=
  mkCreate " Exam week " "Bring a pencil." au tgts "t1" st None.

Lemma targeted_announcement_never_created_witness :
  countIn ["c1"] (classes ClassFacts.emptyClassOfTwo) = 1%nat
  ∧ ∃ e, createAnnouncement asciiTrim 1000 "a2" (examWeek CLASS (Some ["c1"]) None)
           ClassFacts.emptyClassOfTwo
         = (Throw e, ClassFacts.emptyClassOfTwo).
Proof.
  split; [by vm_compute|].
  by apply (targeted_announcement_never_created asciiTrim 1000 "a2"
              (examWeek CLASS (Some ["c1"]) None) ClassFacts.emptyClassOfTwo).
Defined.

Lemma createAnnouncement_for_everybody_witness :
  (∃ a, createAnnouncement asciiTrim 2000 "a2" (examWeek ALL None (Some PUBLISHED)) board
        = (Ok a, set_announcements <["a2" := a]> board)
        ∧ title a = "Exam week" ∧ publishedAt a = Some 2000)
  ∧ (∃ a, createAnnouncement asciiTrim 2000 "a2" (examWeek ALL None None) board
          = (Ok a, set_announcements <["a2" := a]> board)
          ∧ annStatus a = DRAFT ∧ publishedAt a = None).
Proof.
  split.
  - exists (created asciiTrim 2000 (examWeek ALL None (Some PUBLISHED))).
    split; [|by vm_compute].
    apply (createAnnouncement_for_everybody asciiTrim 2000 "a2"
             (examWeek ALL None (Some PUBLISHED)) board eq_refl eq_refl).
    split; [by eexists|]. repeat split; [done|simpl; lia|done|simpl; lia].
  - exists (created asciiTrim 2000 (examWeek ALL None None)).
    split; [|by vm_compute].
    apply (createAnnouncement_for_everybody asciiTrim 2000 "a2"
             (examWeek ALL None None) board eq_refl eq_refl).
    split; [by eexists|]. repeat split; [done|simpl; lia|done|simpl; lia].
Defined.

Lemma board_untargeted : untargeted board.
Proof.
  intros id a. simpl.
  intros [[_ <-]|[_ H]]%lookup_insert_Some; [done|].
  by rewrite lookup_empty in H.
Qed.

Definition retarget : UpdateData :=
  mkUpdate None None (Some USER) (Some ["s1"]) None None.

Definition busyDay : list (Call) :=
  [ Create 2000 "a2" (examWeek ROLE (Some ["s1"; "s2"]) (Some PUBLISHED));
    Create 2100 "a3" (examWeek ALL (Some ["s1"]) None);
    Update 2200 "a1" retarget (Some TEACHER) (Some "t1");
    Archive 2300 "a1" (Some ADMIN) (Some "t9");
    Publish 2400 "a3" (Some TEACHER) (Some "t1");
    Delete "a1" (Some STUDENT) (Some "s1") ].

Lemma announcements_stay_untargeted_witness :
  untargeted (afterAll asciiTrim busyDay board)
  ∧ size (announcements (afterAll asciiTrim busyDay board)) = 2%nat.
Proof.
  split; [|by vm_compute].
  apply (announcements_stay_untargeted asciiTrim busyDay board board_untargeted).
Defined.

Lemma announcement_owner_gate_witness :
  archiveAnnouncement 2000 "a1" (Some TEACHER) (Some "t2") board
  = (Throw (CustomError "You can only archive your own announcements" 403), board)
  ∧ deleteAnnouncement "a1" None None board
    = (Throw (CustomError "You can only delete your own announcements" 403), board).
Proof.
  split.
  - apply (announcement_owner_gate board 2000 "a1" notice retarget
             (Some TEACHER) (Some "t2")); done.
  - apply (announcement_owner_gate board 2000 "a1" notice retarget None None); done.
Defined.

Lemma deleted_announcement_is_gone_witness :
  ∃ s',
    deleteAnnouncement "a1" (Some TEACHER) (Some "t1") board = (Ok tt, s')
    ∧ announcements s' = ∅
    ∧ publishAnnouncement 3000 "a1" (Some ADMIN) (Some "t9") s'
      = (Throw AnnouncementNotFound, s').
Proof.
  destruct (deleted_announcement_is_gone board 3000 "a1" notice retarget
              (Some TEACHER) (Some "t1") (Some ADMIN) (Some "t9") eq_refl
              (or_intror eq_refl))
    as (s' & Hdel & Hgone & _ & _ & _ & _ & _ & _ & Hpub & _).
  exists s'. split; [exact Hdel|]. split; [|exact Hpub].
  rewrite Hgone. by vm_compute.
Defined.

Lemma archiveAnnouncement_outcome_witness :
  ∃ a,
    archiveAnnouncement 3000 "a1" (Some TEACHER) (Some "t1") board
    = (Ok a, set_announcements <["a1" := a]> board)
    ∧ annStatus a = ARCHIVED ∧ publishedAt a = Some 1000.
Proof.
  exists (setStatus ARCHIVED notice). split; [|done].
  apply (archiveAnnouncement_outcome board 3000 "a1" notice
           (Some TEACHER) (Some "t1") eq_refl).
  by vm_compute.
Defined.

End AnnouncementMore.

(** ** Announcements: who can read one *)

Module AnnouncementReading.
Import AnnouncementModel AnnouncementService.

Definition AnnouncementNotFound : Error := CustomError "Announcement not found" 404.

Section WithQueries.
(** Whether the condition [{ targets: undefined }], which the filter holds
    for a caller without id, matches a list of targets; this is left to the
    object-document mapper. *)
Variable matchesUndefined : list ObjectId → bool.

(** The condition [{ targets: userId }] on the array [targets]. *)
Definition targetsMatch (userId : option ObjectId) (a : Announcement) : bool :=
  match userId with
  | Some u => bool_decide (u ∈ targets a)
  | None => matchesUndefined (targets a)
  end.

(** The conditions the filter gets for a caller who is not an administrator:
    [status], [$or] on the audience and [$and] on the expiry. *)
Definition forOthers (now : Z) (userId : option ObjectId) (a : Announcement) : bool :=
  bool_decide (annStatus a = PUBLISHED)
  && (bool_decide (audience a = ALL)
      || bool_decide (audience a = ROLE) && targetsMatch userId a
      || bool_decide (audience a = USER) && targetsMatch userId a)
  && match expiresAt a with
     | None => true
     | Some t => (now <? t)
     end.

(** [getAnnouncementById] (populate left aside). *)
Definition getAnnouncementById (now : Z) (id : ObjectId)
    (userRole : option Role) (userId : option ObjectId) : M Announcement :=
  announcement ← gets (λ s,
    findOne (λ k a, String.eqb k id
                    && (if bool_decide (userRole ≠ Some ADMIN)
                        then forOthers now userId a else true))
            (announcements s));
  match announcement with
  | None => throw (CustomError "Announcement not found" 404)
  | Some (_, a) => mret a
  end.

Lemma findOne_by_id {A} (p : A → bool) (c : gmap ObjectId A) id :
  snd <$> findOne (λ k a, String.eqb k id && p a) c
  = match c !! id with
    | Some a => if p a then Some a else None
    | None => None
    end.
Proof.
  destruct (findOne _ c) as [[k a]|] eqn:E.
  - apply findOne_Some in E as [Hk Hp].
    apply andb_prop in Hp as [->%String.eqb_eq Hp]. by rewrite Hk Hp.
  - destruct (c !! id) as [a|] eqn:Hid; [|done].
    destruct (p a) eqn:Hp; [|done].
    rewrite findOne_None in E. specialize (E id a Hid).
    by rewrite String.eqb_refl Hp in E.
Qed.

Lemma getAnnouncementById_run now id userRole userId s :
  getAnnouncementById now id userRole userId s
  = match announcements s !! id with
    | Some a =>
        if (if bool_decide (userRole ≠ Some ADMIN) then forOthers now userId a else true)
        then (Ok a, s) else (Throw AnnouncementNotFound, s)
    | None => (Throw AnnouncementNotFound, s)
    end.
Proof.
  unfold getAnnouncementById. rewrite gets_bind.
  pose proof (findOne_by_id
    (λ a, if bool_decide (userRole ≠ Some ADMIN) then forOthers now userId a else true)
    (announcements s) id) as H.
  destruct (findOne _ _) as [[k a]|]; simpl in H.
  - destruct (announcements s !! id) as [a'|]; [|done].
    destruct (if bool_decide _ then _ else _); [|done]. by injection H as ->.
  - destruct (announcements s !! id) as [a'|]; [|done].
    by destruct (if bool_decide _ then _ else _).
Qed.

(** Reading never writes, and an administrator reads every announcement.
    Anybody else reads only announcements that are PUBLISHED, not expired
    and not addressed to classes: a draft or an archived announcement is
    'not found' even for its author.  A published, unexpired announcement
    to everybody is readable by every caller. *)
Theorem getAnnouncementById_visibility s now id a userRole userId :
  announcements s !! id = Some a →
  (userRole = Some ADMIN → getAnnouncementById now id userRole userId s = (Ok a, s))
  ∧ (userRole ≠ Some ADMIN →
     (∀ r s', getAnnouncementById now id userRole userId s = (Ok r, s') →
        r = a ∧ s' = s
        ∧ annStatus a = PUBLISHED
        ∧ audience a ≠ CLASS
        ∧ ∀ t, expiresAt a = Some t → now < t)
     ∧ (annStatus a ≠ PUBLISHED ∨ audience a = CLASS
        ∨ (∃ t, expiresAt a = Some t ∧ t <= now) →
        getAnnouncementById now id userRole userId s = (Throw AnnouncementNotFound, s))
     ∧ (annStatus a = PUBLISHED → audience a = ALL →
        (∀ t, expiresAt a = Some t → now < t) →
        getAnnouncementById now id userRole userId s = (Ok a, s))).
Proof.
  intros Ha. rewrite getAnnouncementById_run Ha. split.
  { intros ->. by rewrite bool_decide_eq_false_2; [naive_solver|]. }
  intros Hr. rewrite bool_decide_eq_true_2 //.
  assert (forOthers now userId a = true →
          annStatus a = PUBLISHED ∧ audience a ≠ CLASS
          ∧ ∀ t, expiresAt a = Some t → now < t) as Hsound.
  { unfold forOthers. intros [[Hst Hau]%andb_prop Hex]%andb_prop.
    apply bool_decide_eq_true in Hst. split; [done|]. split.
    - intros Hc. rewrite Hc in Hau. by vm_compute in Hau.
    - intros t Ht. rewrite Ht in Hex. by apply Z.ltb_lt. }
  split; [|split].
  - intros r s'. destruct (forOthers now userId a); [|done].
    intros [= <- <-]. by destruct (Hsound eq_refl).
  - intros Hhidden. destruct (forOthers now userId a); [|done].
    destruct (Hsound eq_refl) as (Hst & Hau & Hex).
    destruct Hhidden as [? | [? | (t & Ht & Hle)]]; [done..|].
    specialize (Hex t Ht). lia.
  - intros Hst Hau Hex. unfold forOthers.
    rewrite (bool_decide_eq_true_2 _ Hst) (bool_decide_eq_true_2 _ Hau) /=.
    destruct (expiresAt a) as [t|]; [|done].
    by rewrite (proj2 (Z.ltb_lt now t) (Hex t eq_refl)).
Qed.

End WithQueries.

(** *** Instances *)

Definition draft : Announcement :=
  mkAnnouncement "Trip" "Details follow." ALL [] None "t1" DRAFT None None.

Definition desk : Store :=
  mkStore ClassFacts.people ∅ ∅ ∅
    (<["a1" := AnnouncementFacts.notice]> (<["a2" := draft]> ∅)).

Lemma getAnnouncementById_visibility_witness :
  getAnnouncementById (λ _, false) 5000 "a2" (Some ADMIN) (Some "t9") desk = (Ok draft, desk)
  ∧ getAnnouncementById (λ _, false) 5000 "a2" (Some TEACHER) (Some "t1") desk
    = (Throw AnnouncementNotFound, desk)
  ∧ getAnnouncementById (λ _, false) 5000 "a1" (Some STUDENT) (Some "s1") desk
    = (Ok AnnouncementFacts.notice, desk).
Proof.
  destruct (getAnnouncementById_visibility (λ _, false) desk 5000 "a2" draft
              (Some ADMIN) (Some "t9") eq_refl) as [Hadmin _].
  destruct (getAnnouncementById_visibility (λ _, false) desk 5000 "a2" draft
              (Some TEACHER) (Some "t1") eq_refl) as [_ Hauthor].
  destruct (getAnnouncementById_visibility (λ _, false) desk 5000 "a1"
              AnnouncementFacts.notice (Some STUDENT) (Some "s1") eq_refl)
    as [_ Hstudent].
  split; [by apply Hadmin|]. split.
  - destruct Hauthor as (_ & Hhidden & _); [done|]. apply Hhidden. by left.
  - destruct Hstudent as (_ & _ & Hshown); [done|]. by apply Hshown.
Defined.

End AnnouncementReading.
